(** * MindFlow API: a shallow embedding of [src/api/main.py]

    The service is a coordination layer between HTTP callers, the graphiti
    extraction engine and a FalkorDB store.  This development embeds the
    module function by function:

    - [make_graphiti]        (credential routing, lines 44-102),
    - [ensure_indices]       (index lifecycle, lines 158-171),
    - [lifespan_startup] / [lifespan_shutdown] (lines 174-207),
    - [build_graph_response] (materialization, lines 223-294),
    - [health], [ingest], [get_graph], [search] (endpoints, lines 299-402).

    Modelling conventions.

    - Python [str] is [string], holding the text in UTF-8.  [strip] knows
      every white-space character of Unicode; [replace] works on the bytes,
      which is exact for an ASCII pattern; [lower] is written out for ASCII
      text and is the runtime's for text with any other character.
    - Python truthiness ([if x:], [x or y]) is the class [Truthy].
    - Module globals ([indices_built], [driver]) live in a [World] record
      that every function threads; the record also carries the trace of
      observable effects (log records, objects constructed, awaited calls
      to collaborators) and the state of the outside world.
    - Exceptions are the [Raise] outcome of the monad [M]; only subclasses
      of [Exception] are modelled (that is what [except Exception] sees).
    - A coroutine runs from its first line to its last: the operations of
      the process ([Op]) follow one another, and the interleaving of
      concurrent requests at their [await]s is not modelled.
    - Everything the module imports but does not define (graphiti, the
      FalkorDB driver, [datetime]) is a field of the class [Runtime]; any of
      it that talks to the store or the engine is answered by the outside
      world and may raise, the driver's constructor included.  The values
      read from the process environment at import time are the class
      [Config]. *)

From Stdlib Require Import ZArith String Ascii List Bool Lia.
From stdpp Require Import base strings gmap list pretty.

Open Scope string_scope.
Open Scope Z_scope.

(** ** Python strings *)

Definition is_upper (c : ascii) : bool :=
  let n := N_of_ascii c in ((65 <=? n) && (n <=? 90))%N.

Definition lower_ascii (c : ascii) : ascii :=
  if is_upper c then ascii_of_N (N_of_ascii c + 32) else c.

(** [str.lower] on ASCII text. *)
Fixpoint ascii_lower (s : string) : string :=
  match s with
  | EmptyString => EmptyString
  | String c s' => String (lower_ascii c) (ascii_lower s')
  end.

(** [str.isascii] *)
Fixpoint is_ascii (s : string) : bool :=
  match s with
  | EmptyString => true
  | String c s' => (N_of_ascii c <? 128)%N && is_ascii s'
  end.

(** [str.isspace] on a character of one byte: tab, newline, vertical tab,
    form feed, carriage return, the four separators 28..31 and the space. *)
Definition is_space (c : ascii) : bool :=
  let n := N_of_ascii c in
  (((9 <=? n) && (n <=? 13)) || ((28 <=? n) && (n <=? 32)))%N.

(** ... of two bytes: U+0085 (next line) and U+00A0 (no-break space). *)
Definition is_space2 (c1 c2 : ascii) : bool :=
  let n1 := N_of_ascii c1 in
  let n2 := N_of_ascii c2 in
  ((n1 =? 194) && ((n2 =? 133) || (n2 =? 160)))%N.

(** ... of three bytes: U+1680, U+2000..U+200A, U+2028, U+2029, U+202F,
    U+205F and U+3000. *)
Definition is_space3 (c1 c2 c3 : ascii) : bool :=
  let n1 := N_of_ascii c1 in
  let n2 := N_of_ascii c2 in
  let n3 := N_of_ascii c3 in
  (((n1 =? 225) && (n2 =? 154) && (n3 =? 128))
   || ((n1 =? 226) && (n2 =? 128)
       && (((128 <=? n3) && (n3 <=? 138)) || (n3 =? 168) || (n3 =? 169) || (n3 =? 175)))
   || ((n1 =? 226) && (n2 =? 129) && (n3 =? 159))
   || ((n1 =? 227) && (n2 =? 128) && (n3 =? 128)))%N.

(** Every character of [s] is white space ([s] may be empty). *)
Fixpoint all_space (s : string) : bool :=
  match s with
  | EmptyString => true
  | String c1 s1 =>
      if is_space c1 then all_space s1
      else
        match s1 with
        | EmptyString => false
        | String c2 s2 =>
            if is_space2 c1 c2 then all_space s2
            else
              match s2 with
              | EmptyString => false
              | String c3 s3 => is_space3 c1 c2 c3 && all_space s3
              end
        end
  end.

Fixpoint lstrip (s : string) : string :=
  match s with
  | EmptyString => EmptyString
  | String c1 s1 =>
      if is_space c1 then lstrip s1
      else
        match s1 with
        | EmptyString => s
        | String c2 s2 =>
            if is_space2 c1 c2 then lstrip s2
            else
              match s2 with
              | EmptyString => s
              | String c3 s3 => if is_space3 c1 c2 c3 then lstrip s3 else s
              end
        end
  end.

(** The text up to where nothing but white space follows. *)
Fixpoint rstrip (s : string) : string :=
  match s with
  | EmptyString => EmptyString
  | String c s' => if all_space s then EmptyString else String c (rstrip s')
  end.

(** [str.strip] *)
Definition strip (s : string) : string := rstrip (lstrip s).

(** [str.replace(old, new)]: non-overlapping occurrences, left to right.
    [skip] counts the characters of a match that are still to be dropped. *)
Fixpoint replace_from (old new : string) (skip : nat) (s : string) : string :=
  match s with
  | EmptyString => EmptyString
  | String c s' =>
      match skip with
      | S k => replace_from old new k s'
      | O =>
          if String.prefix old s
          then new ++ replace_from old new (Nat.pred (String.length old)) s'
          else String c (replace_from old new 0 s')
      end
  end.

Fixpoint intersperse_all (new s : string) : string :=
  match s with
  | EmptyString => new
  | String c s' => new ++ String c (intersperse_all new s')
  end.

Definition replace (s old new : string) : string :=
  match old with
  | EmptyString => intersperse_all new s
  | _ => replace_from old new 0 s
  end.

(** ** Python truthiness *)

Class Truthy (A : Type) := truthy : A -> bool.

#[global] Instance truthy_bool : Truthy bool := fun b => b.
#[global] Instance truthy_str : Truthy string :=
  fun s => match s with EmptyString => false | _ => true end.
#[global] Instance truthy_list {A} : Truthy (list A) :=
  fun l => match l with nil => false | _ => true end.
#[global] Instance truthy_option {A} `{Truthy A} : Truthy (option A) :=
  fun o => match o with None => false | Some a => truthy a end.

(** [x or d] where [x] may be [None]. *)
Definition or_else {A} `{Truthy A} (x : option A) (d : A) : A :=
  match x with
  | Some a => if truthy a then a else d
  | None => d
  end.

(** ** Exceptions *)

Inductive Exn :=
| ValueError (msg : string)
| HTTPException (status_code : Z) (detail : string)
| Exception (cls msg : string).

(** [str(e)] *)
Definition str_exn (e : Exn) : string :=
  match e with
  | ValueError msg => msg
  | HTTPException code detail => pretty code ++ ": " ++ detail
  | Exception _ msg => msg
  end.

Definition is_ValueError (e : Exn) : bool :=
  match e with ValueError _ => true | _ => false end.

Inductive Res (A : Type) :=
| Ok (a : A)
| Raise (e : Exn).
Arguments Ok {A} a.
Arguments Raise {A} e.

Definition returned {A} (r : Res A) : bool :=
  match r with Ok _ => true | Raise _ => false end.

(** ** Client configuration objects (graphiti_core) *)

Record LLMConfig := mkLLMConfig {
  api_key : string;
  model : option string;
  small_model : option string;
  temperature : option Z
}.

Record OpenAIEmbedderConfig := mkOpenAIEmbedderConfig {
  embedder_api_key : string;
  embedding_model : option string
}.

Inductive LLMClient :=
| AnthropicClient (config : LLMConfig)
| OpenAIClient (config : LLMConfig).

Inductive EmbedderClient :=
| OpenAIEmbedder (config : OpenAIEmbedderConfig).

Inductive CrossEncoderClient :=
| OpenAIRerankerClient (config : LLMConfig).

Definition llm_config (c : LLMClient) : LLMConfig :=
  match c with AnthropicClient cfg => cfg | OpenAIClient cfg => cfg end.

Definition embedder_key_of (e : EmbedderClient) : string :=
  match e with OpenAIEmbedder cfg => embedder_api_key cfg end.

Definition reranker_key_of (r : CrossEncoderClient) : string :=
  match r with OpenAIRerankerClient cfg => api_key cfg end.

(** ** Module constants read from the process environment (lines 22-28) *)

Class Config := mkConfig {
  FALKORDB_HOST : string;
  FALKORDB_PORT : Z;
  FALKORDB_PASSWORD : option string;
  EMBEDDER_API_KEY : string
}.

Inductive Level := INFO | WARNING | ERROR.

Inductive EpisodeType := EpisodeType_text.

(** ** JSON values, as [model_dump] and the endpoints return them *)

#[warnings="-register-all"]
Inductive JSON :=
| JNull
| JBool (b : bool)
| JInt (n : Z)
| JStr (s : string)
| JList (items : list JSON)
| JDict (fields : list (string * JSON)).

Definition json_opt_str (o : option string) : JSON :=
  match o with Some s => JStr s | None => JNull end.

Definition json_opt_int (o : option Z) : JSON :=
  match o with Some n => JInt n | None => JNull end.

(** The keys of a JSON object, in order. *)
Definition json_keys (j : JSON) : list string :=
  match j with JDict kv => map fst kv | _ => nil end.

Fixpoint assoc (k : string) (kv : list (string * JSON)) : option JSON :=
  match kv with
  | nil => None
  | (k', v) :: rest => if String.eqb k k' then Some v else assoc k rest
  end.

(** [j[k]] for a JSON object. *)
Definition json_get (k : string) (j : JSON) : option JSON :=
  match j with JDict kv => assoc k kv | _ => None end.

(** ** Request and response models (lines 107-153) *)

Record IngestRequest := mkIngestRequest {
  ireq_session_id : string;
  ireq_text : string;
  ireq_llm_provider : string;
  ireq_llm_api_key : string;
  ireq_openai_api_key : string;
  ireq_timestamp : option string
}.

Record SearchRequest := mkSearchRequest {
  sreq_session_id : string;
  sreq_query : string;
  sreq_llm_provider : string;
  sreq_llm_api_key : string;
  sreq_openai_api_key : string
}.

Record GraphEntity := mkGraphEntity {
  ge_id : string;
  ge_name : string;
  ge_summary : string;
  ge_type : string;
  ge_created_at : string;
  ge_degree : Z;
  ge_community : option Z
}.

Record GraphRelationship := mkGraphRelationship {
  gr_id : string;
  gr_source_id : string;
  gr_target_id : string;
  gr_fact : string;
  gr_type : string;
  gr_valid_at : option string;
  gr_invalid_at : option string
}.

Record KnowledgeGraphResponse := mkKnowledgeGraphResponse {
  entities : list GraphEntity;
  relationships : list GraphRelationship;
  metadata : list (string * JSON)
}.

Record SearchResult := mkSearchResult {
  sres_fact : string;
  sres_source : string;
  sres_target : string
}.

Definition dump_GraphEntity (e : GraphEntity) : JSON :=
  JDict [("id", JStr (ge_id e)); ("name", JStr (ge_name e));
         ("summary", JStr (ge_summary e)); ("type", JStr (ge_type e));
         ("created_at", JStr (ge_created_at e)); ("degree", JInt (ge_degree e));
         ("community", json_opt_int (ge_community e))].

Definition dump_GraphRelationship (r : GraphRelationship) : JSON :=
  JDict [("id", JStr (gr_id r)); ("source_id", JStr (gr_source_id r));
         ("target_id", JStr (gr_target_id r)); ("fact", JStr (gr_fact r));
         ("type", JStr (gr_type r));
         ("valid_at", json_opt_str (gr_valid_at r));
         ("invalid_at", json_opt_str (gr_invalid_at r))].

Definition dump_KnowledgeGraphResponse (g : KnowledgeGraphResponse) : JSON :=
  JDict [("entities", JList (map dump_GraphEntity (entities g)));
         ("relationships", JList (map dump_GraphRelationship (relationships g)));
         ("metadata", JDict (metadata g))].

Definition dump_SearchResult (r : SearchResult) : JSON :=
  JDict [("fact", JStr (sres_fact r)); ("source", JStr (sres_source r));
         ("target", JStr (sres_target r))].

(** ** The engine's records, the world, and the effect monad *)

Section Types.
Context {datetime FalkorDriver Ext : Type}.

(** The fields of [graphiti_core.nodes.EntityNode] the module reads.  An
    attribute that is missing or [None] is [None]. *)
Record EntityNode := mkEntityNode {
  node_uuid : string;
  node_name : string;
  node_summary : option string;
  node_labels : option (list string);
  node_created_at : option datetime
}.

(** The fields of [graphiti_core.edges.EntityEdge] the module reads. *)
Record EntityEdge := mkEntityEdge {
  edge_uuid : string;
  source_node_uuid : string;
  target_node_uuid : string;
  edge_name : option string;
  edge_fact : option string;
  edge_valid_at : option datetime;
  edge_invalid_at : option datetime
}.

(** What [add_episode] returns; a missing attribute is [None]. *)
Record AddEpisodeResults := mkAddEpisodeResults {
  result_nodes : option (list EntityNode);
  result_edges : option (list EntityEdge)
}.

Record Graphiti := mkGraphiti {
  graph_driver : FalkorDriver;
  llm_client : LLMClient;
  embedder : EmbedderClient;
  cross_encoder : CrossEncoderClient
}.

(** Objects the module constructs. *)
Inductive Obj :=
| ObjLLMClient (c : LLMClient)
| ObjEmbedder (e : EmbedderClient)
| ObjReranker (r : CrossEncoderClient)
| ObjDriver (d : FalkorDriver)
| ObjGraphiti (g : Graphiti).

(** Calls into the collaborators, with the arguments the module passes. *)
Inductive Call :=
| Call_clone (d : FalkorDriver) (database : string)
| Call_get_nodes (d : FalkorDriver) (group_ids : list string)
| Call_get_edges (d : FalkorDriver) (group_ids : list string)
| Call_build_indices (g : Graphiti)
| Call_add_episode (g : Graphiti) (name episode_body : string)
    (source : EpisodeType) (source_description : string)
    (reference_time : datetime) (group_id : string)
| Call_search (g : Graphiti) (query : string) (group_ids : list string)
    (num_results : Z).

(** [Called c returned]: the call [c] was made, and it returned
    ([returned = true]) or raised. *)
Inductive Event :=
| Log (lvl : Level) (msg : string)
| New (o : Obj)
| Called (c : Call) (returned : bool).

(** The module globals, the effects observed so far (oldest first) and the
    state of everything outside the process. *)
Record World := mkWorld {
  indices_built : bool;
  driver : option FalkorDriver;
  trace : list Event;
  ext : Ext
}.

Definition M (A : Type) : Type := World -> Res A * World.

Definition ret {A} (a : A) : M A := fun w => (Ok a, w).

Definition bind {A B} (m : M A) (k : A -> M B) : M B :=
  fun w =>
    match m w with
    | (Ok a, w') => k a w'
    | (Raise e, w') => (Raise e, w')
    end.

Definition raise {A} (e : Exn) : M A := fun w => (Raise e, w).

(** [try: body except Exception as e: handler e] *)
Definition try_except {A} (body : M A) (handler : Exn -> M A) : M A :=
  fun w =>
    match body w with
    | (Ok a, w') => (Ok a, w')
    | (Raise e, w') => handler e w'
    end.

(** [try: body except ValueError as e: handler e] *)
Definition try_except_ValueError {A} (body : M A) (handler : Exn -> M A) : M A :=
  try_except body (fun e => if is_ValueError e then handler e else raise e).

Definition emit (ev : Event) : M unit :=
  fun w => (Ok tt, mkWorld (indices_built w) (driver w) (trace w ++ [ev]) (ext w)).

Definition read_indices_built : M bool := fun w => (Ok (indices_built w), w).

Definition write_indices_built (b : bool) : M unit :=
  fun w => (Ok tt, mkWorld b (driver w) (trace w) (ext w)).

Definition read_driver : M (option FalkorDriver) := fun w => (Ok (driver w), w).

Definition write_driver (d : option FalkorDriver) : M unit :=
  fun w => (Ok tt, mkWorld (indices_built w) d (trace w) (ext w)).

(** A call into a collaborator: answered by the outside world, which may
    change, and recorded with its outcome. *)
Definition perform {A} (c : Call) (oracle : Ext -> Res A * Ext) : M A :=
  fun w =>
    let (r, x) := oracle (ext w) in
    (r, mkWorld (indices_built w) (driver w) (trace w ++ [Called c (returned r)]) x).

Definition logger_info (msg : string) : M unit := emit (Log INFO msg).
Definition logger_warning (msg : string) : M unit := emit (Log WARNING msg).
Definition logger_error (msg : string) : M unit := emit (Log ERROR msg).

(** ** Collaborators *)

Class Runtime := mkRuntime {
  (** whether [from graphiti_core.llm_client.anthropic_client import ...]
      succeeds *)
  anthropic_installed : bool;
  (** [FalkorDriver(host=, port=, password=)]; the constructor connects to
      the store *)
  FalkorDriver_new : string -> Z -> option string -> Ext -> Res FalkorDriver * Ext;
  (** [driver.clone(database)] *)
  driver_clone : FalkorDriver -> string -> Ext -> Res FalkorDriver * Ext;
  (** [EntityNode.get_by_group_ids(driver=, group_ids=)] *)
  EntityNode_get_by_group_ids :
    FalkorDriver -> list string -> Ext -> Res (list EntityNode) * Ext;
  (** [EntityEdge.get_by_group_ids(driver=, group_ids=)] *)
  EntityEdge_get_by_group_ids :
    FalkorDriver -> list string -> Ext -> Res (list EntityEdge) * Ext;
  (** [graphiti.build_indices_and_constraints()] *)
  build_indices_and_constraints : Graphiti -> Ext -> Res unit * Ext;
  (** [graphiti.add_episode(name=, episode_body=, source=,
      source_description=, reference_time=, group_id=)] *)
  add_episode :
    Graphiti -> string -> string -> EpisodeType -> string -> datetime ->
    string -> Ext -> Res AddEpisodeResults * Ext;
  (** [graphiti.search(query=, group_ids=, num_results=)] *)
  graphiti_search :
    Graphiti -> string -> list string -> Z -> Ext -> Res (list EntityEdge) * Ext;
  (** [datetime.now(timezone.utc)] *)
  datetime_now_utc : Ext -> datetime * Ext;
  (** [datetime.fromisoformat(s)]; [None] is its [ValueError] *)
  fromisoformat : string -> option datetime;
  (** [dt.isoformat()] *)
  isoformat : datetime -> string;
  (** [int(dt.timestamp())] *)
  timestamp_int : datetime -> Res Z;
  (** [s.lower()] for a string that holds a character outside ASCII *)
  lower_non_ascii : string -> string
}.

End Types.

Arguments EntityNode : clear implicits.
Arguments EntityEdge : clear implicits.
Arguments AddEpisodeResults : clear implicits.
Arguments Graphiti : clear implicits.
Arguments Obj : clear implicits.
Arguments Call : clear implicits.
Arguments Event : clear implicits.
Arguments World : clear implicits.
Arguments M : clear implicits.
Arguments Runtime : clear implicits.

Notation "'let*' x ':=' m 'in' k" := (bind m (fun x => k))
  (at level 10, x name, m at level 100, k at level 200).

(** ** The module's functions *)

Section Service.
Context {datetime FalkorDriver Ext : Type}.
Context {cfg : Config} {rt : Runtime datetime FalkorDriver Ext}.

Abbreviation MW := (M datetime FalkorDriver Ext).

(** Object construction, recorded in the trace. *)
Definition new_llm_client (c : LLMClient) : MW LLMClient :=
  let* _ := emit (New (ObjLLMClient c)) in ret c.

Definition new_embedder (e : EmbedderClient) : MW EmbedderClient :=
  let* _ := emit (New (ObjEmbedder e)) in ret e.

Definition new_reranker (r : CrossEncoderClient) : MW CrossEncoderClient :=
  let* _ := emit (New (ObjReranker r)) in ret r.

(** The driver's constructor is answered by the outside world; the driver is
    recorded when there is one, and nothing is constructed when it raises. *)
Definition new_driver (host : string) (port : Z) (password : option string)
  : MW FalkorDriver :=
  fun w =>
    let (r, x) := FalkorDriver_new host port password (ext w) in
    match r with
    | Ok d =>
        (Ok d, mkWorld (indices_built w) (driver w) (trace w ++ [New (ObjDriver d)]) x)
    | Raise e => (Raise e, mkWorld (indices_built w) (driver w) (trace w) x)
    end.

Definition new_graphiti (g : Graphiti FalkorDriver) : MW (Graphiti FalkorDriver) :=
  let* _ := emit (New (ObjGraphiti g)) in ret g.

(** [get_driver] (lines 33-41) *)
Definition get_driver : MW FalkorDriver :=
  let* current := read_driver in
  match current with
  | None =>
      let* d := new_driver FALKORDB_HOST FALKORDB_PORT
                  (if truthy FALKORDB_PASSWORD then FALKORDB_PASSWORD else None) in
      let* _ := write_driver (Some d) in
      ret d
  | Some d => ret d
  end.

Definition MISSING_EMBEDDER_KEY : string :=
  "Embeddings require an OpenAI API key. Either use OpenAI as your LLM provider, "
  ++ "or set OPENAI_API_KEY on the server for embeddings.".

Definition ANTHROPIC_NOT_INSTALLED : string :=
  "Anthropic support requires: pip install graphiti-core[anthropic]".

(** Lines 47-53 of [make_graphiti]: the value of the local
    [effective_embedder_key] when the emptiness check is reached. *)
Definition effective_embedder_key (llm_provider llm_api_key embedder_key : string)
  : string :=
  if String.eqb llm_provider "openai" then llm_api_key
  else if truthy embedder_key then embedder_key
  else if truthy EMBEDDER_API_KEY then EMBEDDER_API_KEY
  else "".

(** [make_graphiti] (lines 44-102) *)
Definition make_graphiti (llm_provider llm_api_key embedder_key : string)
  : MW (Graphiti FalkorDriver) :=
  let key := effective_embedder_key llm_provider llm_api_key embedder_key in
  if negb (truthy key) then raise (ValueError MISSING_EMBEDDER_KEY)
  else
    let* llm :=
      if String.eqb llm_provider "anthropic" then
        if anthropic_installed then
          new_llm_client
            (AnthropicClient
               (mkLLMConfig llm_api_key (Some "claude-haiku-4-5-20251001")
                  (Some "claude-haiku-4-5-20251001") (Some 0)))
        else raise (ValueError ANTHROPIC_NOT_INSTALLED)
      else
        new_llm_client
          (OpenAIClient
             (mkLLMConfig llm_api_key (Some "gpt-4.1-mini")
                (Some "gpt-4.1-nano") (Some 0))) in
    let* emb :=
      new_embedder
        (OpenAIEmbedder
           (mkOpenAIEmbedderConfig key (Some "text-embedding-3-small"))) in
    let* reranker :=
      new_reranker (OpenAIRerankerClient (mkLLMConfig key None None None)) in
    let* d := get_driver in
    new_graphiti (mkGraphiti d llm emb reranker).

(** [ensure_indices] (lines 161-171) *)
Definition ensure_indices (graphiti : Graphiti FalkorDriver) : MW unit :=
  let* built := read_indices_built in
  if built then ret tt
  else
    try_except
      (let* _ := perform (Call_build_indices graphiti)
                   (build_indices_and_constraints graphiti) in
       let* _ := write_indices_built true in
       logger_info "Graphiti indices built successfully")
      (fun e => logger_warning ("Failed to build indices: " ++ str_exn e)).

(** [lifespan], before the [yield] (lines 176-201) *)
Definition lifespan_startup : MW unit :=
  if truthy EMBEDDER_API_KEY then
    try_except
      (let* temp_llm :=
         new_llm_client
           (OpenAIClient
              (mkLLMConfig EMBEDDER_API_KEY (Some "gpt-4.1-mini") None None)) in
       let* temp_embedder :=
         new_embedder
           (OpenAIEmbedder (mkOpenAIEmbedderConfig EMBEDDER_API_KEY None)) in
       let* temp_reranker :=
         new_reranker
           (OpenAIRerankerClient (mkLLMConfig EMBEDDER_API_KEY None None None)) in
       let* d := get_driver in
       let* temp := new_graphiti (mkGraphiti d temp_llm temp_embedder temp_reranker) in
       ensure_indices temp)
      (fun e =>
         logger_warning ("Failed to build indices on startup: " ++ str_exn e))
  else
    logger_info "OPENAI_API_KEY not set — indices will be built on first ingest.".

(** [lifespan], after the [yield] (lines 205-207) *)
Definition lifespan_shutdown : MW unit := write_driver None.

(** *** Materialization (lines 223-294) *)

(** Reading the clock: [datetime.now(timezone.utc)]. *)
Definition now_utc : MW datetime :=
  fun w =>
    let (t, x) := datetime_now_utc (ext w) in
    (Ok t, mkWorld (indices_built w) (driver w) (trace w) x).

(** [d.get(k, default)] *)
Definition dict_get (d : gmap string Z) (k : string) (dflt : Z) : Z :=
  match d !! k with Some v => v | None => dflt end.

(** The body of the loop at lines 248-250. *)
Definition count_edge (degree_map : gmap string Z) (edge : EntityEdge datetime)
  : gmap string Z :=
  let degree_map1 :=
    <[source_node_uuid edge :=
        dict_get degree_map (source_node_uuid edge) 0 + 1]> degree_map in
  <[target_node_uuid edge :=
      dict_get degree_map1 (target_node_uuid edge) 0 + 1]> degree_map1.

Definition build_degree_map (edges : list (EntityEdge datetime)) : gmap string Z :=
  fold_left count_edge edges ∅.

(** [str.lower] *)
Definition lower (s : string) : string :=
  if is_ascii s then ascii_lower s else lower_non_ascii s.

(** [x in ("entity", "node", "entitynode")] *)
Definition is_generic_label (x : string) : bool :=
  String.eqb x "entity" || String.eqb x "node" || String.eqb x "entitynode".

(** The loop at lines 256-259; returning from the recursion is the [break]. *)
Fixpoint label_loop (labels : list string) (node_type : string) : string :=
  match labels with
  | nil => node_type
  | label :: rest =>
      if negb (is_generic_label (lower label)) then lower label
      else label_loop rest node_type
  end.

(** Lines 254-259. *)
Definition infer_node_type (node : EntityNode datetime) : string :=
  let node_type := "topic" in
  match node_labels node with
  | Some labels => if truthy labels then label_loop labels node_type else node_type
  | None => node_type
  end.

(** [dt.isoformat() if dt else dflt]; a [datetime] object is always truthy,
    so only an absent one takes the [else]. *)
Definition isoformat_or {A} (some : string -> A) (dflt : A) (dt : option datetime) : A :=
  match dt with
  | Some t => some (isoformat t)
  | None => dflt
  end.

(** Lines 261-268. *)
Definition entity_of (degree_map : gmap string Z) (node : EntityNode datetime)
  : GraphEntity :=
  {| ge_id := node_uuid node;
     ge_name := node_name node;
     ge_summary := or_else (node_summary node) "";
     ge_type := infer_node_type node;
     ge_created_at := isoformat_or (fun s => s) "" (node_created_at node);
     ge_degree := dict_get degree_map (node_uuid node) 0;
     ge_community := None |}.

(** Lines 271-283. *)
Definition relationship_of (edge : EntityEdge datetime) : GraphRelationship :=
  let rel_type := or_else (edge_name edge) "related_to" in
  {| gr_id := edge_uuid edge;
     gr_source_id := source_node_uuid edge;
     gr_target_id := target_node_uuid edge;
     gr_fact := or_else (edge_fact edge) "";
     gr_type := rel_type;
     gr_valid_at := isoformat_or Some None (edge_valid_at edge);
     gr_invalid_at := isoformat_or Some None (edge_invalid_at edge) |}.

Definition len {A} (l : list A) : Z := Z.of_nat (length l).

(** Lines 246-294: the response assembled from the fetched nodes and edges
    and the clock reading. *)
Definition assemble_response (session_id : string)
  (nodes : list (EntityNode datetime)) (edges : list (EntityEdge datetime))
  (now : datetime) : KnowledgeGraphResponse :=
  let degree_map := build_degree_map edges in
  let entities := map (entity_of degree_map) nodes in
  let relationships := map relationship_of edges in
  {| entities := entities;
     relationships := relationships;
     metadata := [("session_id", JStr session_id);
                  ("entity_count", JInt (len entities));
                  ("relationship_count", JInt (len relationships));
                  ("last_updated", JStr (isoformat now))] |}.

(** [build_graph_response] *)
Definition build_graph_response (driver : FalkorDriver) (session_id : string)
  : MW KnowledgeGraphResponse :=
  let* session_driver :=
    perform (Call_clone driver session_id) (driver_clone driver session_id) in
  let* nodes :=
    try_except
      (perform (Call_get_nodes session_driver [session_id])
         (EntityNode_get_by_group_ids session_driver [session_id]))
      (fun e =>
         let* _ := logger_warning
                     ("Failed to get nodes for " ++ session_id ++ ": " ++ str_exn e) in
         ret nil) in
  let* edges :=
    try_except
      (perform (Call_get_edges session_driver [session_id])
         (EntityEdge_get_by_group_ids session_driver [session_id]))
      (fun e =>
         let* _ := logger_warning
                     ("Failed to get edges for " ++ session_id ++ ": " ++ str_exn e) in
         ret nil) in
  let* now := now_utc in
  ret (assemble_response session_id nodes edges now).

(** *** Endpoints (lines 299-402) *)

(** [health] *)
Definition health : MW JSON :=
  let falkordb_ok := false in
  let* falkordb_ok :=
    try_except
      (let* d := get_driver in ret true)
      (fun _ => ret falkordb_ok) in
  ret (JDict [("status", JStr "ok"); ("falkordb", JBool falkordb_ok)]).

(** Lines 327-332 of [ingest]: the reference time, given the clock reading. *)
Definition reference_time (now : datetime) (timestamp : option string) : datetime :=
  let ref_time := now in
  if truthy timestamp then
    match timestamp with
    | Some ts =>
        match fromisoformat (replace ts "Z" "+00:00") with
        | Some t => t
        | None => ref_time
        end
    | None => ref_time
    end
  else ref_time.

Definition lift_res {A} (r : Res A) : MW A := fun w => (r, w).

(** [len(x.attr) if hasattr(x, attr) else 0] *)
Definition len_if_present {A} (l : option (list A)) : Z :=
  match l with Some xs => len xs | None => 0 end.

(** [ingest] *)
Definition ingest (req : IngestRequest) : MW JSON :=
  if negb (truthy (strip (ireq_text req))) then
    raise (HTTPException 400 "Empty text")
  else if negb (truthy (ireq_llm_api_key req)) then
    raise (HTTPException 400 "LLM API key required")
  else
    let* graphiti :=
      try_except_ValueError
        (make_graphiti (ireq_llm_provider req) (ireq_llm_api_key req)
           (ireq_openai_api_key req))
        (fun e => raise (HTTPException 400 (str_exn e))) in
    let* _ := ensure_indices graphiti in
    try_except
      (let* now := now_utc in
       let ref_time := reference_time now (ireq_timestamp req) in
       let* seconds := lift_res (timestamp_int ref_time) in
       let* result :=
         perform
           (Call_add_episode graphiti
              (ireq_session_id req ++ "_" ++ pretty seconds) (ireq_text req)
              EpisodeType_text "Live speech transcript from MindFlow"
              ref_time (ireq_session_id req))
           (add_episode graphiti
              (ireq_session_id req ++ "_" ++ pretty seconds) (ireq_text req)
              EpisodeType_text "Live speech transcript from MindFlow"
              ref_time (ireq_session_id req)) in
       let entities_added := len_if_present (result_nodes result) in
       let relationships_added := len_if_present (result_edges result) in
       let* d := get_driver in
       let* graph := build_graph_response d (ireq_session_id req) in
       ret (JDict [("entities_added", JInt entities_added);
                   ("relationships_added", JInt relationships_added);
                   ("graph", dump_KnowledgeGraphResponse graph)]))
      (fun e =>
         let* _ := logger_error ("Ingest failed: " ++ str_exn e) in
         raise (HTTPException 500 (str_exn e))).

(** [get_graph] *)
Definition get_graph (session_id : string) : MW JSON :=
  try_except
    (let* d := get_driver in
     let* graph := build_graph_response d session_id in
     ret (dump_KnowledgeGraphResponse graph))
    (fun e =>
       let* _ := logger_error ("Get graph failed: " ++ str_exn e) in
       raise (HTTPException 500 (str_exn e))).

(** Lines 392-396: the projection of one engine edge. *)
Definition search_result_of (edge : EntityEdge datetime) : SearchResult :=
  {| sres_fact := or_else (edge_fact edge) "";
     sres_source := source_node_uuid edge;
     sres_target := target_node_uuid edge |}.

(** [search] *)
Definition search (req : SearchRequest) : MW JSON :=
  if negb (truthy (strip (sreq_query req))) then
    raise (HTTPException 400 "Empty query")
  else if negb (truthy (sreq_llm_api_key req)) then
    raise (HTTPException 400 "LLM API key required")
  else
    let* graphiti :=
      try_except_ValueError
        (make_graphiti (sreq_llm_provider req) (sreq_llm_api_key req)
           (sreq_openai_api_key req))
        (fun e => raise (HTTPException 400 (str_exn e))) in
    try_except
      (let* edges :=
         perform
           (Call_search graphiti (sreq_query req) [sreq_session_id req] 20)
           (graphiti_search graphiti (sreq_query req) [sreq_session_id req] 20) in
       let results := map search_result_of edges in
       ret (JDict [("results", JList (map dump_SearchResult results))]))
      (fun e =>
         let* _ := logger_error ("Search failed: " ++ str_exn e) in
         raise (HTTPException 500 (str_exn e))).

(** *** Vocabulary for the statements about routing *)

(** The language-model client lines 61-83 build. *)
Definition llm_client_for (llm_provider llm_api_key : string) : LLMClient :=
  if String.eqb llm_provider "anthropic" then
    AnthropicClient
      (mkLLMConfig llm_api_key (Some "claude-haiku-4-5-20251001")
         (Some "claude-haiku-4-5-20251001") (Some 0))
  else
    OpenAIClient
      (mkLLMConfig llm_api_key (Some "gpt-4.1-mini") (Some "gpt-4.1-nano") (Some 0)).

(** What asking for the shared handle comes to in world [w]: the handle at
    hand, or else the answer of the constructor, with the outside world as
    it is afterwards. *)
Definition driver_attempt (w : World datetime FalkorDriver Ext)
  : Res FalkorDriver * Ext :=
  match driver w with
  | Some d => (Ok d, ext w)
  | None =>
      FalkorDriver_new FALKORDB_HOST FALKORDB_PORT
        (if truthy FALKORDB_PASSWORD then FALKORDB_PASSWORD else None) (ext w)
  end.

(** The three clients [make_graphiti] builds before it asks for the handle. *)
Definition routed_clients (llm_provider llm_api_key embedder_key : string)
  : list (Event datetime FalkorDriver) :=
  let key := effective_embedder_key llm_provider llm_api_key embedder_key in
  [New (ObjLLMClient (llm_client_for llm_provider llm_api_key));
   New (ObjEmbedder
          (OpenAIEmbedder (mkOpenAIEmbedderConfig key (Some "text-embedding-3-small"))));
   New (ObjReranker (OpenAIRerankerClient (mkLLMConfig key None None None)))].

(** *** Vocabulary for the statements about materialization *)

(** What a fetch contributes: its list, or nothing when it raised. *)
Definition fetched_or_empty {A} (r : Res (list A)) : list A :=
  match r with Ok l => l | Raise _ => nil end.

(** The warning a failed fetch leaves in the log. *)
Definition fetch_warning {A} (prefix session_id : string) (r : Res A)
  : list (Event datetime FalkorDriver) :=
  match r with
  | Ok _ => nil
  | Raise e => [Log WARNING (prefix ++ session_id ++ ": " ++ str_exn e)]
  end.

Definition is_source (uuid : string) (edge : EntityEdge datetime) : bool :=
  String.eqb (source_node_uuid edge) uuid.

Definition is_target (uuid : string) (edge : EntityEdge datetime) : bool :=
  String.eqb (target_node_uuid edge) uuid.

(** The number of edges in which [uuid] appears as source or as target. *)
Definition edges_touching (uuid : string) (edges : list (EntityEdge datetime)) : Z :=
  len (List.filter (fun e => is_source uuid e || is_target uuid e) edges).

(** The number of edges from [uuid] to itself. *)
Definition self_loops (uuid : string) (edges : list (EntityEdge datetime)) : Z :=
  len (List.filter (fun e => is_source uuid e && is_target uuid e) edges).

(** The number of edge ends at [uuid]: sources plus targets. *)
Definition edge_ends (uuid : string) (edges : list (EntityEdge datetime)) : Z :=
  len (List.filter (is_source uuid) edges) + len (List.filter (is_target uuid) edges).

(** What one edge adds to the count of [uuid]. *)
Definition end_count (uuid : string) (edge : EntityEdge datetime) : Z :=
  (if is_source uuid edge then 1 else 0) + (if is_target uuid edge then 1 else 0).

(** The labels that say more than "this is a node". *)
Definition descriptive_labels (labels : list string) : list string :=
  List.filter (fun label => negb (is_generic_label (lower label))) labels.

Definition labels_of (node : EntityNode datetime) : list string :=
  match node_labels node with Some labels => labels | None => nil end.

(** The type by the rule: the first descriptive label in lower case, and
    "topic" when there is none. *)
Definition type_by_rule (node : EntityNode datetime) : string :=
  match descriptive_labels (labels_of node) with
  | nil => "topic"
  | label :: _ => lower label
  end.

(** The relationship type by the rule. *)
Definition relationship_type_by_rule (edge : EntityEdge datetime) : string :=
  match edge_name edge with
  | Some name => if String.eqb name "" then "related_to" else name
  | None => "related_to"
  end.

(** How a node's creation time is to appear in JSON. *)
Definition created_at_json (node : EntityNode datetime) : JSON :=
  match node_created_at node with
  | Some t => JStr (isoformat t)
  | None => JStr ""
  end.

(** How a validity bound of an edge is to appear in JSON. *)
Definition validity_json (bound : option datetime) : JSON :=
  match bound with
  | Some t => JStr (isoformat t)
  | None => JNull
  end.

(** *** The process: startup, requests in sequence, shutdown *)

Inductive Op :=
| OpStartup
| OpHealth
| OpIngest (req : IngestRequest)
| OpGetGraph (session_id : string)
| OpSearch (req : SearchRequest)
| OpShutdown.

(** One operation; what it returns or raises goes to the caller, the world
    carries on. *)
Definition run_op (op : Op) (w : World datetime FalkorDriver Ext)
  : World datetime FalkorDriver Ext :=
  match op with
  | OpStartup => snd (lifespan_startup w)
  | OpHealth => snd (health w)
  | OpIngest req => snd (ingest req w)
  | OpGetGraph sid => snd (get_graph sid w)
  | OpSearch req => snd (search req w)
  | OpShutdown => snd (lifespan_shutdown w)
  end.

Definition run_ops (ops : list Op) (w : World datetime FalkorDriver Ext)
  : World datetime FalkorDriver Ext :=
  fold_left (fun w op => run_op op w) ops w.

(** ** What the trace shows *)

Definition is_build_call (ev : Event datetime FalkorDriver) : bool :=
  match ev with Called (Call_build_indices _) _ => true | _ => false end.

Definition is_build_ok (ev : Event datetime FalkorDriver) : bool :=
  match ev with Called (Call_build_indices _) true => true | _ => false end.

Definition is_build_failed (ev : Event datetime FalkorDriver) : bool :=
  match ev with Called (Call_build_indices _) false => true | _ => false end.

(** How many times the index build was attempted, how many of the attempts
    returned, and how many raised. *)
Definition build_attempts (w : World datetime FalkorDriver Ext) : nat :=
  length (List.filter is_build_call (trace w)).

Definition builds_ok (w : World datetime FalkorDriver Ext) : nat :=
  length (List.filter is_build_ok (trace w)).

Definition builds_failed (w : World datetime FalkorDriver Ext) : nat :=
  length (List.filter is_build_failed (trace w)).

(** *** Vocabulary for the statements about the endpoints *)


(** A computation that only ever adds to the trace. *)
Definition extending {A} (m : M datetime FalkorDriver Ext A) : Prop :=
  forall w, exists evs, trace (snd (m w)) = (trace w ++ evs)%list.

(** The JSON of one search result, field by field. *)
Definition search_result_json (edge : EntityEdge datetime) : JSON :=
  JDict [("fact", JStr (match edge_fact edge with Some f => f | None => "" end));
         ("source", JStr (source_node_uuid edge));
         ("target", JStr (target_node_uuid edge))].

(** *** Vocabulary for the statements about the index lifecycle *)

(** A computation that leaves the flag alone and attempts no build. *)
Definition steady {A} (m : M datetime FalkorDriver Ext A) : Prop :=
  forall w,
    indices_built (snd (m w)) = indices_built w
    /\ builds_ok (snd (m w)) = builds_ok w
    /\ builds_failed (snd (m w)) = builds_failed w.

(** One move of the two-state machine, from [w] to [w']: from BUILT nothing
    changes and nothing is attempted; from NOT_BUILT the flag is set exactly
    when one more build has returned. *)
Definition index_step (w w' : World datetime FalkorDriver Ext) : Prop :=
  if indices_built w then
    indices_built w' = true
    /\ builds_ok w' = builds_ok w
    /\ builds_failed w' = builds_failed w
  else
    (indices_built w' = false /\ builds_ok w' = builds_ok w)
    \/ (indices_built w' = true /\ builds_ok w' = S (builds_ok w)).

Definition stepping {A} (m : M datetime FalkorDriver Ext A) : Prop :=
  forall w, index_step w (snd (m w)).

End Service.

(** ** An instrumented stub of the collaborators

    Times are seconds since the epoch, a driver handle is the name it was
    opened for, and the outside world is a script of what the store and the
    engine will answer.  Text outside ASCII is left as it is by the stub's
    [lower_non_ascii]; the stub is only ever run on ASCII labels. *)

Record StubState := mkStubState {
  stub_clock : Z;
  stub_clone_error : option Exn;
  stub_nodes : Res (list (EntityNode Z));
  stub_edges : Res (list (EntityEdge Z));
  (** answers of the successive index builds; a build succeeds once the
      script is used up *)
  stub_builds : list (Res unit);
  stub_matches : list (EntityEdge Z)
}.

Definition stub_build (x : StubState) : Res unit * StubState :=
  match stub_builds x with
  | nil => (Ok tt, x)
  | r :: rest =>
      (r, mkStubState (stub_clock x) (stub_clone_error x) (stub_nodes x)
            (stub_edges x) rest (stub_matches x))
  end.

Definition stub_tick (x : StubState) : Z * StubState :=
  (stub_clock x,
   mkStubState (stub_clock x + 1) (stub_clone_error x) (stub_nodes x)
     (stub_edges x) (stub_builds x) (stub_matches x)).

Definition stub_fromisoformat (s : string) : option Z :=
  if String.eqb s "2024-01-01T00:00:00+00:00" then Some 1704067200 else None.

Definition stub_isoformat (t : Z) : string :=
  if Z.eqb t 1704067200 then "2024-01-01T00:00:00+00:00" else "@" ++ pretty t.

(** [anthropic]: whether the optional client is installed; [honours_cap]:
    whether the engine's search keeps to [num_results]. *)
Definition stub_runtime (anthropic honours_cap : bool) : Runtime Z string StubState :=
  {| anthropic_installed := anthropic;
     FalkorDriver_new := fun host port _ x => (Ok (host ++ ":" ++ pretty port), x);
     driver_clone := fun _ database x =>
       (match stub_clone_error x with Some e => Raise e | None => Ok database end, x);
     EntityNode_get_by_group_ids := fun _ _ x => (stub_nodes x, x);
     EntityEdge_get_by_group_ids := fun _ _ x => (stub_edges x, x);
     build_indices_and_constraints := fun _ x => stub_build x;
     add_episode := fun _ _ _ _ _ _ _ x =>
       (Ok (mkAddEpisodeResults (Some nil) (Some nil)), x);
     graphiti_search := fun _ _ _ n x =>
       (Ok (if honours_cap then firstn (Z.to_nat n) (stub_matches x)
            else stub_matches x), x);
     datetime_now_utc := stub_tick;
     fromisoformat := stub_fromisoformat;
     isoformat := stub_isoformat;
     timestamp_int := fun t => Ok t;
     lower_non_ascii := fun s => s |}.

Definition stub_config (fallback_key : string) : Config :=
  mkConfig "localhost" 6379 None fallback_key.

Definition stub_state : StubState :=
  mkStubState 1700000000 None (Ok nil) (Ok nil) nil nil.

(** A freshly started process. *)
Definition fresh_world {datetime FalkorDriver Ext : Type} (x : Ext)
  : World datetime FalkorDriver Ext :=
  mkWorld false None nil x.

Definition stub_world : World Z string StubState := fresh_world stub_state.

Definition stub_node (uuid name : string) (labels : list string) : EntityNode Z :=
  mkEntityNode uuid name (Some (name ++ " (summary)")) (Some labels) (Some 1704067200).

Definition stub_edge (uuid source target : string) (name : option string)
  : EntityEdge Z :=
  mkEntityEdge uuid source target name (Some (source ++ " -> " ++ target)) None None.

Definition with_store (nodes : Res (list (EntityNode Z)))
  (edges : Res (list (EntityEdge Z))) : World Z string StubState :=
  fresh_world (mkStubState 1700000000 None nodes edges nil nil).

(** ** Vocabulary for the further properties *)

(** Whether the character [c] occurs in [s]. *)
Fixpoint occurs (c : ascii) (s : string) : bool :=
  match s with
  | EmptyString => false
  | String c' s' => Ascii.eqb c' c || occurs c s'
  end.

(** The sum of the counts held in a degree map. *)
Definition degree_total (degree_map : gmap string Z) : Z :=
  map_fold (fun _ count total => count + total) 0 degree_map.

(** The status of an [HTTPException]; [None] for any other exception. *)
Definition http_status (e : Exn) : option Z :=
  match e with HTTPException code _ => Some code | _ => None end.

(** What [ingest] and [search] make of an exception from the router (lines
    319-322 and 378-381): a [ValueError] becomes status 400, anything else
    passes. *)
Definition routing_error (e : Exn) : Exn :=
  if is_ValueError e then HTTPException 400 (str_exn e) else e.

Section FurtherVocabulary.
Context {datetime FalkorDriver Ext : Type}.

Definition is_call (ev : Event datetime FalkorDriver) : bool :=
  match ev with Called _ _ => true | _ => false end.

Definition is_log (ev : Event datetime FalkorDriver) : bool :=
  match ev with Log _ _ => true | _ => false end.

Definition is_new_driver (ev : Event datetime FalkorDriver) : bool :=
  match ev with New (ObjDriver _) => true | _ => false end.


(** How many driver objects have been constructed. *)
Definition drivers_built (w : World datetime FalkorDriver Ext) : nat :=
  length (List.filter is_new_driver (trace w)).

(** One move of the shared handle, from [w] to [w']: a handle that is there
    stays, and none is constructed; where there is none, either nothing
    changes or exactly one is constructed and stored. *)
Definition driver_step (w w' : World datetime FalkorDriver Ext) : Prop :=
  match driver w with
  | Some d => driver w' = Some d /\ drivers_built w' = drivers_built w
  | None =>
      (driver w' = None /\ drivers_built w' = drivers_built w)
      \/ (exists d, driver w' = Some d /\ drivers_built w' = S (drivers_built w))
  end.

Definition driver_stepping {A} (m : M datetime FalkorDriver Ext A) : Prop :=
  forall w, driver_step w (snd (m w)).

Context {cfg : Config} {rt : Runtime datetime FalkorDriver Ext}.

(** The name [ingest] gives the episode (line 335). *)
Definition episode_name (session_id : string) (seconds : Z) : string :=
  session_id ++ "_" ++ pretty seconds.

(** The call [ingest] makes into the engine (lines 334-341), for a given
    reference time. *)
Definition episode_call (req : IngestRequest) (g : Graphiti FalkorDriver)
  (ref_time : datetime) (seconds : Z) : Call datetime FalkorDriver :=
  Call_add_episode g (episode_name (ireq_session_id req) seconds) (ireq_text req)
    EpisodeType_text "Live speech transcript from MindFlow" ref_time
    (ireq_session_id req).

(** The body [ingest] returns on success (lines 349-353). *)
Definition ingest_body (result : AddEpisodeResults datetime)
  (graph : KnowledgeGraphResponse) : JSON :=
  JDict [("entities_added", JInt (len_if_present (result_nodes result)));
         ("relationships_added", JInt (len_if_present (result_edges result)));
         ("graph", dump_KnowledgeGraphResponse graph)].

End FurtherVocabulary.

Definition is_shutdown (op : Op) : bool :=
  match op with OpShutdown => true | _ => false end.

(** The stub world in which obtaining a session handle fails. *)
Definition store_down : World Z string StubState :=
  fresh_world
    (mkStubState 1700000000 (Some (Exception "ConnectionError" "store down"))
       (Ok nil) (Ok nil) nil nil).

(** A text that is one no-break space, U+00A0. *)
Definition nbsp : string := String (ascii_of_N 194) (String (ascii_of_N 160) EmptyString).

(** The stub world in which the first index build fails. *)
Definition build_fails_once : World Z string StubState :=
  fresh_world
    (mkStubState 1700000000 None (Ok nil) (Ok nil)
       [Raise (Exception "IndexError" "index build failed")] nil).

(** The stub with an engine that is down: [add_episode] and [search] raise. *)
Definition stub_runtime_engine_down : Runtime Z string StubState :=
  {| anthropic_installed := true;
     FalkorDriver_new := fun host port _ x => (Ok (host ++ ":" ++ pretty port), x);
     driver_clone := fun _ database x =>
       (match stub_clone_error x with Some e => Raise e | None => Ok database end, x);
     EntityNode_get_by_group_ids := fun _ _ x => (stub_nodes x, x);
     EntityEdge_get_by_group_ids := fun _ _ x => (stub_edges x, x);
     build_indices_and_constraints := fun _ x => stub_build x;
     add_episode := fun _ _ _ _ _ _ _ x =>
       (Raise (Exception "EngineError" "engine down"), x);
     graphiti_search := fun _ _ _ _ x =>
       (Raise (Exception "EngineError" "engine down"), x);
     datetime_now_utc := stub_tick;
     fromisoformat := stub_fromisoformat;
     isoformat := stub_isoformat;
     timestamp_int := fun t => Ok t;
     lower_non_ascii := fun s => s |}.

(** The stub with a store that cannot be reached: the driver's constructor
    raises. *)
Definition stub_runtime_unreachable : Runtime Z string StubState :=
  {| anthropic_installed := true;
     FalkorDriver_new := fun host port _ x =>
       (Raise (Exception "ConnectionError"
                 ("Error connecting to " ++ host ++ ":" ++ pretty port)), x);
     driver_clone := fun _ database x => (Ok database, x);
     EntityNode_get_by_group_ids := fun _ _ x => (stub_nodes x, x);
     EntityEdge_get_by_group_ids := fun _ _ x => (stub_edges x, x);
     build_indices_and_constraints := fun _ x => stub_build x;
     add_episode := fun _ _ _ _ _ _ _ x =>
       (Ok (mkAddEpisodeResults (Some nil) (Some nil)), x);
     graphiti_search := fun _ _ _ _ x => (Ok (stub_matches x), x);
     datetime_now_utc := stub_tick;
     fromisoformat := stub_fromisoformat;
     isoformat := stub_isoformat;
     timestamp_int := fun t => Ok t;
     lower_non_ascii := fun s => s |}.

Definition stub_ingest_request : IngestRequest :=
  mkIngestRequest "s1" "Alice knows Bob" "openai" "sk-llm" "" None.

Definition stub_search_request : SearchRequest :=
  mkSearchRequest "s1" "Alice" "openai" "sk-llm" "".

(** * Properties *)

Lemma truthy_str_true (s : string) : truthy s = true <-> s <> "".
Proof. destruct s; unfold truthy, truthy_str; split; intros; congruence. Qed.

Lemma truthy_str_false (s : string) : truthy s = false <-> s = "".
Proof. destruct s; unfold truthy, truthy_str; split; intros; congruence. Qed.

Lemma eqb_neq_false (a b : string) : a <> b -> String.eqb a b = false.
Proof. intros H. apply String.eqb_neq. exact H. Qed.

Ltac run_monad :=
  unfold logger_info, logger_warning, logger_error, try_except_ValueError;
  unfold bind, ret, raise, try_except, emit, perform, read_indices_built,
    write_indices_built, read_driver, write_driver; simpl.

(** ** Credential routing *)

Section Routing.
Context {datetime FalkorDriver Ext : Type}.
Context {cfg : Config} {rt : Runtime datetime FalkorDriver Ext}.

Abbreviation W := (World datetime FalkorDriver Ext).

(** *** The shared handle *)

Lemma get_driver_present (w : W) (d : FalkorDriver) :
  driver w = Some d -> get_driver w = (Ok d, w).
Proof.
  intros Hd. unfold get_driver. run_monad. rewrite Hd. reflexivity.
Qed.

Lemma get_driver_ok (w : W) (d : FalkorDriver) (x : Ext) :
  driver_attempt w = (Ok d, x) ->
  get_driver w =
  (Ok d,
   mkWorld (indices_built w) (Some d)
     (trace w ++ match driver w with
                 | Some _ => nil
                 | None => [New (ObjDriver d)]
                 end)
     x).
Proof.
  unfold driver_attempt, get_driver, new_driver. run_monad.
  destruct w as [b [d0|] t x0]; simpl.
  - intros H. injection H as <- <-. rewrite app_nil_r. reflexivity.
  - intros H. rewrite H. reflexivity.
Qed.

Lemma get_driver_raise (w : W) (e : Exn) (x : Ext) :
  driver_attempt w = (Raise e, x) ->
  driver w = None
  /\ get_driver w = (Raise e, mkWorld (indices_built w) None (trace w) x).
Proof.
  unfold driver_attempt, get_driver, new_driver. run_monad.
  destruct w as [b [d0|] t x0]; simpl.
  - discriminate.
  - intros H. rewrite H. split; reflexivity.
Qed.

(** *** The two checks *)

Lemma make_graphiti_missing_key (p k h : string) (w : W) :
  effective_embedder_key p k h = "" ->
  make_graphiti p k h w = (Raise (ValueError MISSING_EMBEDDER_KEY), w).
Proof.
  intros H. unfold make_graphiti. rewrite H. reflexivity.
Qed.

Lemma make_graphiti_not_installed (p k h : string) (w : W) :
  effective_embedder_key p k h <> "" ->
  p = "anthropic" ->
  anthropic_installed = false ->
  make_graphiti p k h w = (Raise (ValueError ANTHROPIC_NOT_INSTALLED), w).
Proof.
  intros Hkey -> Hinst. unfold make_graphiti.
  apply truthy_str_true in Hkey. rewrite Hkey. simpl negb. cbv iota.
  rewrite Hinst. reflexivity.
Qed.

(** A call that gets past both checks builds its three clients and asks
    for the shared handle. *)
Lemma make_graphiti_past_checks (p k h : string) (w : W) :
  effective_embedder_key p k h <> "" ->
  (p = "anthropic" -> anthropic_installed = true) ->
  let key := effective_embedder_key p k h in
  let llm := llm_client_for p k in
  let emb := OpenAIEmbedder (mkOpenAIEmbedderConfig key (Some "text-embedding-3-small")) in
  let rer := OpenAIRerankerClient (mkLLMConfig key None None None) in
  make_graphiti p k h w
  = bind get_driver (fun d => new_graphiti (mkGraphiti d llm emb rer))
      (mkWorld (indices_built w) (driver w) (trace w ++ routed_clients p k h) (ext w)).
Proof.
  intros Hkey Hinst. simpl. unfold make_graphiti, llm_client_for, routed_clients.
  apply truthy_str_true in Hkey. rewrite Hkey. cbn [negb].
  unfold new_llm_client, new_embedder, new_reranker, llm_client_for.
  destruct (String.eqb p "anthropic") eqn:E.
  - apply String.eqb_eq in E. rewrite (Hinst E).
    unfold bind at 1 2 3 4 5 6. unfold emit, ret.
    cbn [trace indices_built driver ext]. rewrite <- !app_assoc. reflexivity.
  - unfold bind at 1 2 3 4 5 6. unfold emit, ret.
    cbn [trace indices_built driver ext]. rewrite <- !app_assoc. reflexivity.
Qed.

(** The run of a call that gets past both checks and obtains the handle. *)
Lemma make_graphiti_run (p k h : string) (w : W) (d : FalkorDriver) (x : Ext) :
  effective_embedder_key p k h <> "" ->
  (p = "anthropic" -> anthropic_installed = true) ->
  driver_attempt w = (Ok d, x) ->
  let key := effective_embedder_key p k h in
  let llm := llm_client_for p k in
  let emb := OpenAIEmbedder (mkOpenAIEmbedderConfig key (Some "text-embedding-3-small")) in
  let rer := OpenAIRerankerClient (mkLLMConfig key None None None) in
  let g := mkGraphiti d llm emb rer in
  make_graphiti p k h w =
  (Ok g,
   mkWorld (indices_built w) (Some d)
     (trace w ++ [New (ObjLLMClient llm); New (ObjEmbedder emb); New (ObjReranker rer)]
        ++ match driver w with
           | Some _ => nil
           | None => [New (ObjDriver d)]
           end
        ++ [New (ObjGraphiti g)])
     x).
Proof.
  intros Hkey Hinst Hd. simpl.
  rewrite (make_graphiti_past_checks p k h w Hkey Hinst).
  unfold bind. rewrite (get_driver_ok _ d x) by exact Hd.
  unfold new_graphiti, routed_clients. run_monad.
  rewrite <- !app_assoc. reflexivity.
Qed.

(** The run of a call that gets past both checks and is refused the
    handle: the constructor's exception goes up, after the three clients
    have been built. *)
Lemma make_graphiti_no_driver (p k h : string) (w : W) (e : Exn) (x : Ext) :
  effective_embedder_key p k h <> "" ->
  (p = "anthropic" -> anthropic_installed = true) ->
  driver_attempt w = (Raise e, x) ->
  make_graphiti p k h w
  = (Raise e, mkWorld (indices_built w) None (trace w ++ routed_clients p k h) x).
Proof.
  intros Hkey Hinst Hd.
  rewrite (make_graphiti_past_checks p k h w Hkey Hinst).
  unfold bind.
  match goal with
  | |- context [get_driver ?w0] =>
      destruct (get_driver_raise w0 e x Hd) as [_ Hrun]; rewrite Hrun
  end.
  reflexivity.
Qed.

Lemma effective_key_openai (k h : string) :
  effective_embedder_key "openai" k h = k.
Proof. reflexivity. Qed.

Lemma effective_key_hint (p k h : string) :
  p <> "openai" -> h <> "" -> effective_embedder_key p k h = h.
Proof.
  intros Hp Hh. unfold effective_embedder_key.
  rewrite (eqb_neq_false _ _ Hp).
  apply truthy_str_true in Hh. rewrite Hh. reflexivity.
Qed.

Lemma effective_key_fallback (p k : string) :
  p <> "openai" -> effective_embedder_key p k "" = EMBEDDER_API_KEY.
Proof.
  intros Hp. unfold effective_embedder_key.
  rewrite (eqb_neq_false _ _ Hp). simpl.
  destruct (truthy EMBEDDER_API_KEY) eqn:E; [reflexivity|].
  apply truthy_str_false in E. congruence.
Qed.

(** A call that returns hands the embedder and the reranker the same key,
    the one the chain resolved. *)
Lemma make_graphiti_keys (p k h : string) (w : W) (d : FalkorDriver) (x : Ext) :
  effective_embedder_key p k h <> "" ->
  (p = "anthropic" -> anthropic_installed = true) ->
  driver_attempt w = (Ok d, x) ->
  exists g w',
    make_graphiti p k h w = (Ok g, w')
    /\ llm_client g = llm_client_for p k
    /\ embedder_key_of (embedder g) = effective_embedder_key p k h
    /\ reranker_key_of (cross_encoder g) = effective_embedder_key p k h.
Proof.
  intros Hkey Hinst Hd.
  pose proof (make_graphiti_run p k h w d x Hkey Hinst Hd) as Hrun. simpl in Hrun.
  eexists _, _. split; [exact Hrun|]. simpl. auto.
Qed.

Lemma make_graphiti_ok_inv (p k h : string) (w w' : W) (g : Graphiti FalkorDriver) :
  make_graphiti p k h w = (Ok g, w') ->
  effective_embedder_key p k h <> ""
  /\ (p = "anthropic" -> anthropic_installed = true)
  /\ driver_attempt w = (Ok (graph_driver g), ext w').
Proof.
  intros Hrun.
  assert (Hkey : effective_embedder_key p k h <> "").
  { intros Hkey. rewrite (make_graphiti_missing_key _ _ _ _ Hkey) in Hrun.
    discriminate. }
  assert (Hinst : p = "anthropic" -> anthropic_installed = true).
  { intros Hp. destruct anthropic_installed eqn:Hinst; [reflexivity|].
    rewrite (make_graphiti_not_installed _ _ _ _ Hkey Hp Hinst) in Hrun.
    discriminate. }
  split; [exact Hkey|]. split; [exact Hinst|].
  destruct (driver_attempt w) as [[d|e] x] eqn:Hd.
  - pose proof (make_graphiti_run p k h w d x Hkey Hinst Hd) as R. simpl in R.
    rewrite Hrun in R. injection R as -> ->. reflexivity.
  - rewrite (make_graphiti_no_driver p k h w e x Hkey Hinst Hd) in Hrun.
    discriminate.
Qed.

(** A call that returned has run as [make_graphiti_run] says. *)
Lemma make_graphiti_ok_run (p k h : string) (w w' : W) (g : Graphiti FalkorDriver) :
  make_graphiti p k h w = (Ok g, w') ->
  exists d x,
    driver_attempt w = (Ok d, x)
    /\ g = mkGraphiti d (llm_client_for p k)
             (OpenAIEmbedder
                (mkOpenAIEmbedderConfig (effective_embedder_key p k h)
                   (Some "text-embedding-3-small")))
             (OpenAIRerankerClient
                (mkLLMConfig (effective_embedder_key p k h) None None None))
    /\ w' = mkWorld (indices_built w) (Some d)
              (trace w ++ routed_clients p k h
                 ++ match driver w with
                    | Some _ => nil
                    | None => [New (ObjDriver d)]
                    end
                 ++ [New (ObjGraphiti g)])
              x.
Proof.
  intros Hrun.
  destruct (make_graphiti_ok_inv p k h w w' g Hrun) as (Hkey & Hinst & Hd).
  exists (graph_driver g), (ext w'). split; [exact Hd|].
  pose proof (make_graphiti_run p k h w _ _ Hkey Hinst Hd) as R. simpl in R.
  rewrite Hrun in R. injection R as Hg Hw. split; [exact Hg|].
  rewrite Hw at 1. rewrite <- Hg. reflexivity.
Qed.

(** Every way [make_graphiti] can raise. *)
Lemma make_graphiti_raise_inv (p k h : string) (w w1 : W) (e : Exn) :
  make_graphiti p k h w = (Raise e, w1) ->
  (effective_embedder_key p k h = ""
   /\ e = ValueError MISSING_EMBEDDER_KEY /\ w1 = w)
  \/ (effective_embedder_key p k h <> ""
      /\ p = "anthropic" /\ anthropic_installed = false
      /\ e = ValueError ANTHROPIC_NOT_INSTALLED /\ w1 = w)
  \/ (effective_embedder_key p k h <> ""
      /\ (p = "anthropic" -> anthropic_installed = true)
      /\ driver w = None
      /\ exists x,
           driver_attempt w = (Raise e, x)
           /\ w1 = mkWorld (indices_built w) None (trace w ++ routed_clients p k h) x).
Proof.
  intros Hrun.
  destruct (String.eqb (effective_embedder_key p k h) "") eqn:Hkey.
  - apply String.eqb_eq in Hkey.
    rewrite (make_graphiti_missing_key p k h w Hkey) in Hrun.
    injection Hrun as <- <-. left. auto.
  - apply String.eqb_neq in Hkey. right.
    assert (Hcase : (p = "anthropic" /\ anthropic_installed = false)
                    \/ (p = "anthropic" -> anthropic_installed = true)).
    { destruct (String.eqb_spec p "anthropic") as [Hp|Hp].
      - destruct anthropic_installed; [right; auto|left; auto].
      - right. intros Hp'. contradiction. }
    destruct Hcase as [[Hp Hinst]|Hinst].
    + rewrite (make_graphiti_not_installed p k h w Hkey Hp Hinst) in Hrun.
      injection Hrun as <- <-. left. auto.
    + right. destruct (driver_attempt w) as [[d|e0] x] eqn:Hd.
      * pose proof (make_graphiti_run p k h w d x Hkey Hinst Hd) as R. simpl in R.
        rewrite R in Hrun. discriminate.
      * rewrite (make_graphiti_no_driver p k h w e0 x Hkey Hinst Hd) in Hrun.
        injection Hrun as <- <-.
        destruct (get_driver_raise w e0 x Hd) as [Hnone _].
        split; [exact Hkey|]. split; [exact Hinst|]. split; [exact Hnone|].
        exists x. split; reflexivity.
Qed.

(** C1.  For every call with a non-empty LLM key (the endpoints answer an
    empty one before they reach the router) the embedding credential is
    resolved in this order: with provider "openai" it is the LLM key,
    whatever hint is supplied; with any other provider it is the hint when
    that is not empty, else the server fallback; and the call fails with the
    configuration error, leaving the world as it was, when none of the three
    is there, which is the only way for the resolved credential to be
    empty.  With a credential resolved (and the anthropic client installed
    when the provider is "anthropic") the embedder and the reranker are
    both constructed with it: the call returns them once the shared store
    handle is obtained, and has constructed them also when the handle is
    refused.  A call that returns always carries the resolved credential in
    both, and with a provider other than "openai" the LLM key plays no part
    in that credential. *)
Theorem make_graphiti_credential_priority (p k h : string) (w : W) :
  k <> "" ->
  let key := effective_embedder_key p k h in
  (p = "openai" -> key = k)
  /\ (p <> "openai" -> h <> "" -> key = h)
  /\ (p <> "openai" -> h = "" -> key = EMBEDDER_API_KEY)
  /\ (key = "" <-> p <> "openai" /\ h = "" /\ EMBEDDER_API_KEY = "")
  /\ (key = "" -> make_graphiti p k h w = (Raise (ValueError MISSING_EMBEDDER_KEY), w))
  /\ (key <> "" -> (p = "anthropic" -> anthropic_installed = true) ->
      (forall d x,
         driver_attempt w = (Ok d, x) ->
         exists g w',
           make_graphiti p k h w = (Ok g, w')
           /\ embedder_key_of (embedder g) = key
           /\ reranker_key_of (cross_encoder g) = key)
      /\ (forall e x,
            driver_attempt w = (Raise e, x) ->
            exists w',
              make_graphiti p k h w = (Raise e, w')
              /\ trace w' = (trace w ++ routed_clients p k h)%list))
  /\ (forall g w',
        make_graphiti p k h w = (Ok g, w') ->
        embedder_key_of (embedder g) = key
        /\ reranker_key_of (cross_encoder g) = key
        /\ In (New (ObjReranker (OpenAIRerankerClient (mkLLMConfig key None None None))))
             (trace w'))
  /\ (p <> "openai" -> forall k', effective_embedder_key p k' h = key).
Proof.
  intros Hk key. unfold key.
  split; [intros ->; apply effective_key_openai|].
  split; [intros Hp Hh; apply effective_key_hint; assumption|].
  split; [intros Hp ->; apply effective_key_fallback; assumption|].
  split.
  { split.
    - intros Hkey. destruct (String.eqb_spec p "openai") as [->|Hp].
      + rewrite effective_key_openai in Hkey. contradiction.
      + split; [exact Hp|]. destruct (String.eqb_spec h "") as [->|Hh].
        * rewrite (effective_key_fallback _ _ Hp) in Hkey. auto.
        * rewrite (effective_key_hint _ _ _ Hp Hh) in Hkey. contradiction.
    - intros (Hp & -> & Hfb). rewrite (effective_key_fallback _ _ Hp). exact Hfb. }
  split; [apply make_graphiti_missing_key|].
  split.
  { intros Hkey Hinst. split.
    - intros d x Hd.
      destruct (make_graphiti_keys p k h w d x Hkey Hinst Hd)
        as (g & w' & Hrun & _ & He & Hr).
      exists g, w'. auto.
    - intros e x Hd. eexists. split.
      + apply (make_graphiti_no_driver p k h w e x Hkey Hinst Hd).
      + reflexivity. }
  split.
  { intros g w' Hrun.
    destruct (make_graphiti_ok_inv _ _ _ _ _ _ Hrun) as (Hkey & Hinst & Hd).
    pose proof (make_graphiti_run p k h w _ _ Hkey Hinst Hd) as R. simpl in R.
    rewrite Hrun in R. injection R as -> ->. simpl.
    split; [reflexivity|]. split; [reflexivity|].
    rewrite !in_app_iff. simpl. auto. }
  intros Hp k'. unfold effective_embedder_key.
  rewrite (eqb_neq_false _ _ Hp). reflexivity.
Qed.

(** C6 (as amended).  With provider "anthropic", no hint and no server
    fallback, routing fails with the configuration error and leaves the world
    as it was: nothing is constructed, whether or not the anthropic client is
    installed.  With provider "anthropic", the client not installed and an
    embedding credential at hand (a hint or a fallback), routing fails with
    the not-installed error, again with nothing constructed.  The two
    messages differ. *)
Theorem make_graphiti_anthropic_failures (k h : string) (w : W) :
  (h = "" -> EMBEDDER_API_KEY = "" ->
     make_graphiti "anthropic" k h w = (Raise (ValueError MISSING_EMBEDDER_KEY), w))
  /\ (anthropic_installed = false -> (h <> "" \/ EMBEDDER_API_KEY <> "") ->
     make_graphiti "anthropic" k h w
     = (Raise (ValueError ANTHROPIC_NOT_INSTALLED), w))
  /\ ANTHROPIC_NOT_INSTALLED <> MISSING_EMBEDDER_KEY.
Proof.
  repeat split.
  - intros -> Hfb. apply make_graphiti_missing_key.
    rewrite effective_key_fallback by discriminate. exact Hfb.
  - intros Hinst Hcred. apply make_graphiti_not_installed; [|reflexivity|exact Hinst].
    destruct (String.eqb h "") eqn:E.
    + apply String.eqb_eq in E. subst h.
      rewrite effective_key_fallback by discriminate.
      destruct Hcred as [Hh|Hfb]; [congruence|exact Hfb].
    + apply String.eqb_neq in E.
      rewrite effective_key_hint by (discriminate || exact E). exact E.
  - discriminate.
Qed.

(** C10.  A provider string that is neither "openai" nor "anthropic" gets
    the OpenAI language-model client, built with the caller's LLM key, but
    its embedding credential is resolved as for "anthropic": the hint, else
    the server fallback, else the configuration error; the LLM key is not
    consulted.  With a credential resolved the call returns that client set
    once the shared store handle is obtained, and when the handle is refused
    it has built the OpenAI client all the same.  So with a non-empty LLM
    key, no hint and no fallback the call fails on the credential, whereas
    the same call with provider "openai" resolves the LLM key and returns. *)
Theorem make_graphiti_unrecognized_provider (p k h : string) (w : W) :
  p <> "openai" ->
  p <> "anthropic" ->
  (effective_embedder_key p k h = effective_embedder_key "anthropic" k h)
  /\ (effective_embedder_key p k h = if truthy h then h else EMBEDDER_API_KEY)
  /\ (effective_embedder_key p k h <> "" ->
      (forall d x,
         driver_attempt w = (Ok d, x) ->
         exists g w', make_graphiti p k h w = (Ok g, w')
           /\ llm_client g =
              OpenAIClient
                (mkLLMConfig k (Some "gpt-4.1-mini") (Some "gpt-4.1-nano") (Some 0))
           /\ embedder_key_of (embedder g) = effective_embedder_key "anthropic" k h
           /\ reranker_key_of (cross_encoder g) = effective_embedder_key "anthropic" k h)
      /\ (forall e x,
            driver_attempt w = (Raise e, x) ->
            exists w', make_graphiti p k h w = (Raise e, w')
              /\ In (New (ObjLLMClient
                            (OpenAIClient
                               (mkLLMConfig k (Some "gpt-4.1-mini") (Some "gpt-4.1-nano")
                                  (Some 0)))))
                   (trace w')))
  /\ (effective_embedder_key p k h = "" ->
      make_graphiti p k h w = (Raise (ValueError MISSING_EMBEDDER_KEY), w)
      /\ make_graphiti "anthropic" k h w = (Raise (ValueError MISSING_EMBEDDER_KEY), w))
  /\ (k <> "" -> h = "" -> EMBEDDER_API_KEY = "" ->
      make_graphiti p k h w = (Raise (ValueError MISSING_EMBEDDER_KEY), w)
      /\ effective_embedder_key "openai" k h = k
      /\ forall d x,
           driver_attempt w = (Ok d, x) ->
           exists g w', make_graphiti "openai" k h w = (Ok g, w')
             /\ embedder_key_of (embedder g) = k).
Proof.
  intros Hp Ha.
  assert (Hsame : effective_embedder_key p k h = effective_embedder_key "anthropic" k h).
  { unfold effective_embedder_key. rewrite (eqb_neq_false _ _ Hp). reflexivity. }
  assert (Hchain : effective_embedder_key p k h = if truthy h then h else EMBEDDER_API_KEY).
  { unfold effective_embedder_key. rewrite (eqb_neq_false _ _ Hp).
    destruct (truthy h); [reflexivity|].
    destruct (truthy EMBEDDER_API_KEY) eqn:E; [reflexivity|].
    apply truthy_str_false in E. congruence. }
  assert (Hinst : p = "anthropic" -> anthropic_installed = true) by contradiction.
  split; [exact Hsame|]. split; [exact Hchain|].
  split; [|split].
  - intros Hkey. split.
    + intros d x Hd.
      destruct (make_graphiti_keys p k h w d x Hkey Hinst Hd)
        as (g & w' & Hrun & Hl & He & Hr).
      exists g, w'. split; [exact Hrun|].
      unfold llm_client_for in Hl. rewrite (eqb_neq_false _ _ Ha) in Hl.
      rewrite <- Hsame. auto.
    + intros e x Hd. eexists. split.
      * apply (make_graphiti_no_driver p k h w e x Hkey Hinst Hd).
      * cbn [trace]. unfold routed_clients, llm_client_for.
        rewrite (eqb_neq_false _ _ Ha). rewrite in_app_iff. simpl. auto.
  - intros Hkey. split.
    + apply make_graphiti_missing_key. assumption.
    + apply make_graphiti_missing_key. rewrite <- Hsame. assumption.
  - intros Hk -> Hfb. split; [|split].
    + apply make_graphiti_missing_key.
      rewrite (effective_key_fallback _ _ Hp). assumption.
    + apply effective_key_openai.
    + intros d x Hd.
      destruct (make_graphiti_keys "openai" k "" w d x) as (g & w' & Hrun & _ & He & _).
      * rewrite effective_key_openai. assumption.
      * discriminate.
      * exact Hd.
      * exists g, w'. rewrite effective_key_openai in He. auto.
Qed.

End Routing.

(** *** Routing on the stub *)

(** A premise about the stub is settled by running it. *)
Ltac on_stub :=
  lazymatch goal with
  | |- _ <> _ => let H := fresh in intro H; vm_compute in H; discriminate H
  | |- _ => vm_compute; reflexivity
  end.

(** C1, on the stub: one call for each line of the chain, and the reranker
    of each. *)
Lemma make_graphiti_credential_priority_witness :
  (exists g w',
     @make_graphiti Z string StubState (stub_config "sk-env") (stub_runtime true true)
       "openai" "sk-llm" "sk-hint" stub_world = (Ok g, w')
     /\ embedder_key_of (embedder g) = "sk-llm"
     /\ reranker_key_of (cross_encoder g) = "sk-llm")
  /\ (exists g w',
     @make_graphiti Z string StubState (stub_config "sk-env") (stub_runtime true true)
       "anthropic" "sk-llm" "sk-hint" stub_world = (Ok g, w')
     /\ embedder_key_of (embedder g) = "sk-hint"
     /\ reranker_key_of (cross_encoder g) = "sk-hint")
  /\ (exists g w',
     @make_graphiti Z string StubState (stub_config "sk-env") (stub_runtime true true)
       "anthropic" "sk-llm" "" stub_world = (Ok g, w')
     /\ embedder_key_of (embedder g) = "sk-env"
     /\ reranker_key_of (cross_encoder g) = "sk-env")
  /\ @make_graphiti Z string StubState (stub_config "") (stub_runtime true true)
       "anthropic" "sk-llm" "" stub_world
     = (Raise (ValueError MISSING_EMBEDDER_KEY), stub_world).
Proof.
  assert (Hk : "sk-llm" <> "") by discriminate.
  split; [|split; [|split]].
  - destruct (@make_graphiti_credential_priority Z string StubState
                (stub_config "sk-env") (stub_runtime true true)
                "openai" "sk-llm" "sk-hint" stub_world Hk)
      as (_ & _ & _ & _ & _ & H & _).
    edestruct H as [Hok _]; [on_stub|discriminate|].
    edestruct Hok as (g & w' & Hrun & He & Hr); [on_stub|].
    exists g, w'. split; [exact Hrun|]. split; [exact He|exact Hr].
  - destruct (@make_graphiti_credential_priority Z string StubState
                (stub_config "sk-env") (stub_runtime true true)
                "anthropic" "sk-llm" "sk-hint" stub_world Hk)
      as (_ & _ & _ & _ & _ & H & _).
    edestruct H as [Hok _]; [on_stub|reflexivity|].
    edestruct Hok as (g & w' & Hrun & He & Hr); [on_stub|].
    exists g, w'. split; [exact Hrun|]. split; [exact He|exact Hr].
  - destruct (@make_graphiti_credential_priority Z string StubState
                (stub_config "sk-env") (stub_runtime true true)
                "anthropic" "sk-llm" "" stub_world Hk)
      as (_ & _ & _ & _ & _ & H & _).
    edestruct H as [Hok _]; [on_stub|reflexivity|].
    edestruct Hok as (g & w' & Hrun & He & Hr); [on_stub|].
    exists g, w'. split; [exact Hrun|]. split; [exact He|exact Hr].
  - destruct (@make_graphiti_credential_priority Z string StubState
                (stub_config "") (stub_runtime true true)
                "anthropic" "sk-llm" "" stub_world Hk)
      as (_ & _ & _ & _ & H & _).
    apply H. reflexivity.
Defined.

(** C6, counterexample.  The anthropic client is not installed, the
    provider is "anthropic", and there is neither hint nor fallback: routing
    fails, but with the missing-credential message, not the not-installed
    one. *)
Lemma make_graphiti_not_installed_counterexample :
  @anthropic_installed Z string StubState (stub_runtime false true) = false
  /\ @make_graphiti Z string StubState (stub_config "") (stub_runtime false true)
       "anthropic" "sk-ant" "" stub_world
     = (Raise (ValueError MISSING_EMBEDDER_KEY), stub_world)
  /\ fst (@make_graphiti Z string StubState (stub_config "") (stub_runtime false true)
            "anthropic" "sk-ant" "" stub_world)
     <> Raise (ValueError ANTHROPIC_NOT_INSTALLED).
Proof.
  split; [reflexivity|]. split; [reflexivity|]. vm_compute. discriminate.
Qed.

(** C6 (as amended), on the stub. *)
Lemma make_graphiti_anthropic_failures_witness :
  @make_graphiti Z string StubState (stub_config "") (stub_runtime true true)
    "anthropic" "sk-ant" "" stub_world
  = (Raise (ValueError MISSING_EMBEDDER_KEY), stub_world)
  /\ @make_graphiti Z string StubState (stub_config "") (stub_runtime false true)
       "anthropic" "sk-ant" "sk-hint" stub_world
     = (Raise (ValueError ANTHROPIC_NOT_INSTALLED), stub_world).
Proof.
  split.
  - destruct (@make_graphiti_anthropic_failures Z string StubState
                (stub_config "") (stub_runtime true true) "sk-ant" "" stub_world)
      as (H & _).
    apply H; reflexivity.
  - destruct (@make_graphiti_anthropic_failures Z string StubState
                (stub_config "") (stub_runtime false true) "sk-ant" "sk-hint" stub_world)
      as (_ & H & _).
    apply H; [reflexivity|left; discriminate].
Defined.

(** C10, on the stub: provider "mistral" with an LLM key only. *)
Lemma make_graphiti_unrecognized_provider_witness :
  "mistral" <> "openai"
  /\ "mistral" <> "anthropic"
  /\ @make_graphiti Z string StubState (stub_config "") (stub_runtime true true)
       "mistral" "sk-llm" "" stub_world
     = (Raise (ValueError MISSING_EMBEDDER_KEY), stub_world)
  /\ exists g w',
       @make_graphiti Z string StubState (stub_config "") (stub_runtime true true)
         "openai" "sk-llm" "" stub_world = (Ok g, w')
       /\ embedder_key_of (embedder g) = "sk-llm".
Proof.
  assert (H1 : "mistral" <> "openai") by discriminate.
  assert (H2 : "mistral" <> "anthropic") by discriminate.
  split; [exact H1|]. split; [exact H2|].
  destruct (@make_graphiti_unrecognized_provider Z string StubState
              (stub_config "") (stub_runtime true true)
              "mistral" "sk-llm" "" stub_world H1 H2) as (_ & _ & _ & _ & H).
  destruct H as (Hfail & _ & Hopenai); [discriminate|reflexivity|reflexivity|].
  split; [exact Hfail|].
  edestruct Hopenai as (g & w' & Hrun & He); [on_stub|].
  exists g, w'. split; [exact Hrun|exact He].
Defined.

(** ** Materialization *)

Section Materialization.
Context {datetime FalkorDriver Ext : Type}.
Context {rt : Runtime datetime FalkorDriver Ext}.

Abbreviation W := (World datetime FalkorDriver Ext).
Abbreviation Edge := (EntityEdge datetime).
Abbreviation Node := (EntityNode datetime).

(** *** The degree map *)

Lemma dict_get_insert (m : gmap string Z) (k k' : string) (v dflt : Z) :
  dict_get (<[k := v]> m) k' dflt = if String.eqb k k' then v else dict_get m k' dflt.
Proof.
  unfold dict_get. destruct (String.eqb_spec k k') as [->|Hne].
  - rewrite lookup_insert_eq. reflexivity.
  - rewrite lookup_insert_ne by exact Hne. reflexivity.
Qed.

Lemma count_edge_get (m : gmap string Z) (edge : Edge) (uuid : string) :
  dict_get (count_edge m edge) uuid 0 = dict_get m uuid 0 + end_count uuid edge.
Proof.
  unfold count_edge, end_count, is_source, is_target.
  rewrite !dict_get_insert.
  destruct (String.eqb_spec (source_node_uuid edge) uuid) as [Hs|Hs];
    destruct (String.eqb_spec (target_node_uuid edge) uuid) as [Ht|Ht].
  - rewrite Ht, <- Hs, String.eqb_refl. lia.
  - rewrite Hs. lia.
  - rewrite Ht, (eqb_neq_false _ _ Hs). lia.
  - lia.
Qed.

Lemma fold_count_edge_get (edges : list Edge) (m : gmap string Z) (uuid : string) :
  dict_get (fold_left count_edge edges m) uuid 0
  = dict_get m uuid 0 + edge_ends uuid edges.
Proof.
  revert m. induction edges as [|edge edges IH]; intros m; simpl.
  - unfold edge_ends, len. simpl. lia.
  - rewrite IH, count_edge_get. unfold edge_ends, end_count, len. simpl.
    destruct (is_source uuid edge), (is_target uuid edge); simpl length; lia.
Qed.

Lemma build_degree_map_get (edges : list Edge) (uuid : string) :
  dict_get (build_degree_map edges) uuid 0 = edge_ends uuid edges.
Proof.
  unfold build_degree_map. rewrite fold_count_edge_get.
  unfold dict_get. rewrite lookup_empty. lia.
Qed.

(** Sources plus targets: every touching edge once, every self-loop once more. *)
Lemma edge_ends_split (uuid : string) (edges : list Edge) :
  edge_ends uuid edges = edges_touching uuid edges + self_loops uuid edges.
Proof.
  unfold edge_ends, edges_touching, self_loops, len.
  induction edges as [|edge edges IH]; simpl; [reflexivity|].
  destruct (is_source uuid edge), (is_target uuid edge); simpl; lia.
Qed.

Lemma self_loops_none (uuid : string) (edges : list Edge) :
  (forall e, In e edges -> source_node_uuid e <> target_node_uuid e) ->
  self_loops uuid edges = 0.
Proof.
  unfold self_loops, len, is_source, is_target.
  induction edges as [|edge edges IH]; intros Hno; simpl; [reflexivity|].
  destruct (String.eqb_spec (source_node_uuid edge) uuid) as [Hs|Hs];
    destruct (String.eqb_spec (target_node_uuid edge) uuid) as [Ht|Ht]; simpl;
    try (apply IH; intros e He; apply Hno; right; exact He).
  exfalso. apply (Hno edge); [left; reflexivity|congruence].
Qed.

(** *** The run of [build_graph_response] *)

Lemma build_graph_response_abort (d : FalkorDriver) (sid : string) (w : W)
  (e : Exn) (x1 : Ext) :
  driver_clone d sid (ext w) = (Raise e, x1) ->
  build_graph_response d sid w
  = (Raise e,
     mkWorld (indices_built w) (driver w) (trace w ++ [Called (Call_clone d sid) false]) x1).
Proof.
  intros Hclone. unfold build_graph_response. run_monad. rewrite Hclone. reflexivity.
Qed.

Lemma build_graph_response_run (d : FalkorDriver) (sid : string) (w : W)
  (sd : FalkorDriver) (x1 x2 x3 x4 : Ext)
  (rn : Res (list Node)) (re : Res (list Edge)) (t : datetime) :
  driver_clone d sid (ext w) = (Ok sd, x1) ->
  EntityNode_get_by_group_ids sd [sid] x1 = (rn, x2) ->
  EntityEdge_get_by_group_ids sd [sid] x2 = (re, x3) ->
  datetime_now_utc x3 = (t, x4) ->
  build_graph_response d sid w
  = (Ok (assemble_response sid (fetched_or_empty rn) (fetched_or_empty re) t),
     mkWorld (indices_built w) (driver w)
       (trace w
          ++ [Called (Call_clone d sid) true;
              Called (Call_get_nodes sd [sid]) (returned rn)]
          ++ fetch_warning "Failed to get nodes for " sid rn
          ++ [Called (Call_get_edges sd [sid]) (returned re)]
          ++ fetch_warning "Failed to get edges for " sid re)
       x4).
Proof.
  intros Hclone Hnodes Hedges Hnow.
  unfold build_graph_response, now_utc. run_monad.
  rewrite Hclone. simpl. rewrite Hnodes.
  destruct rn as [nodes|en]; simpl; rewrite Hedges;
    destruct re as [edges|ee]; simpl; rewrite Hnow; simpl;
    rewrite <- !app_assoc; reflexivity.
Qed.

(** Once the session handle is there, a response comes back, whatever the
    two fetches do. *)
Lemma build_graph_response_returns (d : FalkorDriver) (sid : string) (w : W)
  (sd : FalkorDriver) (x1 x2 x3 : Ext)
  (rn : Res (list Node)) (re : Res (list Edge)) :
  driver_clone d sid (ext w) = (Ok sd, x1) ->
  EntityNode_get_by_group_ids sd [sid] x1 = (rn, x2) ->
  EntityEdge_get_by_group_ids sd [sid] x2 = (re, x3) ->
  exists t w',
    build_graph_response d sid w
    = (Ok (assemble_response sid (fetched_or_empty rn) (fetched_or_empty re) t), w')
    /\ trace w' =
       (trace w
          ++ [Called (Call_clone d sid) true;
              Called (Call_get_nodes sd [sid]) (returned rn)]
          ++ fetch_warning "Failed to get nodes for " sid rn
          ++ [Called (Call_get_edges sd [sid]) (returned re)]
          ++ fetch_warning "Failed to get edges for " sid re)%list.
Proof.
  intros Hclone Hnodes Hedges.
  destruct (datetime_now_utc x3) as [t x4] eqn:Hnow.
  exists t. eexists. split.
  - apply (build_graph_response_run d sid w sd x1 x2 x3 x4 rn re t); assumption.
  - reflexivity.
Qed.

(** *** Degrees *)

Lemma entity_degree (edges : list Edge) (node : Node) :
  ge_degree (entity_of (build_degree_map edges) node)
  = edges_touching (node_uuid node) edges + self_loops (node_uuid node) edges.
Proof.
  simpl. rewrite build_degree_map_get. apply edge_ends_split.
Qed.

(** C2 (as amended).  Whenever the session handle is obtained, the
    materialization returns one entity per fetched node, in order, and the
    degree of each is computed from the edges fetched in this very call: it
    is the number of fetched edges in which the node's id is source or
    target, plus the number of fetched edges from the node to itself (an
    edge's two ends are counted separately, so a self-loop counts twice).
    Where no fetched edge is a self-loop the degree is the number of edges
    that touch the node. *)
Theorem materialized_degree (d : FalkorDriver) (sid : string) (w : W)
  (sd : FalkorDriver) (x1 x2 x3 : Ext)
  (rn : Res (list Node)) (re : Res (list Edge)) :
  driver_clone d sid (ext w) = (Ok sd, x1) ->
  EntityNode_get_by_group_ids sd [sid] x1 = (rn, x2) ->
  EntityEdge_get_by_group_ids sd [sid] x2 = (re, x3) ->
  let nodes := fetched_or_empty rn in
  let edges := fetched_or_empty re in
  exists resp w',
    build_graph_response d sid w = (Ok resp, w')
    /\ map ge_id (entities resp) = map node_uuid nodes
    /\ map ge_degree (entities resp)
       = map (fun n => edges_touching (node_uuid n) edges
                       + self_loops (node_uuid n) edges) nodes
    /\ ((forall e, In e edges -> source_node_uuid e <> target_node_uuid e) ->
        map ge_degree (entities resp)
        = map (fun n => edges_touching (node_uuid n) edges) nodes).
Proof.
  intros Hclone Hnodes Hedges nodes edges.
  destruct (build_graph_response_returns d sid w sd x1 x2 x3 rn re Hclone Hnodes Hedges)
    as (t & w' & Hrun & _).
  eexists _, w'. split; [exact Hrun|].
  fold nodes. fold edges. unfold assemble_response. cbn [entities].
  rewrite !map_map. split; [reflexivity|]. split.
  - apply map_ext. intros n. apply entity_degree.
  - intros Hno. apply map_ext. intros n. rewrite entity_degree.
    rewrite (self_loops_none _ _ Hno). lia.
Qed.

(** *** Node types *)

Lemma label_loop_rule (labels : list string) (dflt : string) :
  label_loop labels dflt
  = match descriptive_labels labels with
    | nil => dflt
    | label :: _ => lower label
    end.
Proof.
  induction labels as [|label rest IH]; simpl; [reflexivity|].
  destruct (is_generic_label (lower label)); simpl; [exact IH|reflexivity].
Qed.

Lemma infer_node_type_rule (node : Node) :
  infer_node_type node = type_by_rule node.
Proof.
  unfold infer_node_type, type_by_rule, labels_of.
  destruct (node_labels node) as [[|label rest]|]; try reflexivity.
  unfold truthy, truthy_list. apply label_loop_rule.
Qed.

(** C4 (as amended).  Whenever the session handle is obtained and the node
    fetch answers, every node is typed by this rule: "topic" when it carries
    no label beyond the generic ones ("entity", "node", "entitynode", in any
    case) or no labels at all; otherwise the first label that is not generic,
    lower-cased, and that also when it is the only such label.  So labels
    Entity, Person give "person", and the label Entity alone gives "topic". *)
Theorem materialized_node_type (d : FalkorDriver) (sid : string) (w : W)
  (sd : FalkorDriver) (x1 x2 : Ext) (nodes : list Node) :
  driver_clone d sid (ext w) = (Ok sd, x1) ->
  EntityNode_get_by_group_ids sd [sid] x1 = (Ok nodes, x2) ->
  (exists resp w',
     build_graph_response d sid w = (Ok resp, w')
     /\ map ge_type (entities resp) = map type_by_rule nodes)
  /\ (forall n : Node, descriptive_labels (labels_of n) = nil -> type_by_rule n = "topic")
  /\ (forall (n : Node) label rest,
        descriptive_labels (labels_of n) = label :: rest ->
        type_by_rule n = lower label)
  /\ (forall n : Node, node_labels n = Some ["Entity"; "Person"] -> type_by_rule n = "person")
  /\ (forall n : Node, node_labels n = Some ["Entity"] -> type_by_rule n = "topic").
Proof.
  intros Hclone Hnodes. split; [|repeat split].
  - destruct (EntityEdge_get_by_group_ids sd [sid] x2) as [re x3] eqn:Hedges.
    destruct (build_graph_response_returns d sid w sd x1 x2 x3 _ re Hclone Hnodes Hedges)
      as (t & w' & Hrun & _).
    eexists _, w'. split; [exact Hrun|].
    unfold assemble_response. cbn [entities fetched_or_empty].
    rewrite map_map. apply map_ext. intros n. apply infer_node_type_rule.
  - intros n H. unfold type_by_rule. rewrite H. reflexivity.
  - intros n label rest H. unfold type_by_rule. rewrite H. reflexivity.
  - intros n H. unfold type_by_rule, labels_of. rewrite H. reflexivity.
  - intros n H. unfold type_by_rule, labels_of. rewrite H. reflexivity.
Qed.

(** *** Degrading instead of aborting *)

Lemma build_graph_response_raises_iff (d : FalkorDriver) (sid : string) (w : W) (e : Exn) :
  fst (build_graph_response d sid w) = Raise e
  <-> fst (driver_clone d sid (ext w)) = Raise e.
Proof.
  destruct (driver_clone d sid (ext w)) as [[sd|e0] x1] eqn:Hclone.
  - destruct (EntityNode_get_by_group_ids sd [sid] x1) as [rn x2] eqn:Hnodes.
    destruct (EntityEdge_get_by_group_ids sd [sid] x2) as [re x3] eqn:Hedges.
    destruct (build_graph_response_returns d sid w sd x1 x2 x3 rn re Hclone Hnodes Hedges)
      as (t & w' & Hrun & _).
    rewrite Hrun. simpl. split; discriminate.
  - rewrite (build_graph_response_abort d sid w e0 x1 Hclone). simpl.
    split; intros H; injection H as ->; reflexivity.
Qed.

(** C5.  Materialization degrades rather than aborts.  It raises exactly
    when obtaining the session-scoped handle raises, and then with that
    error.  Once the handle is there a response comes back whatever the two
    fetches do: a failed node fetch leaves a warning in the log and an empty
    entity list, while the relationships are still those of the fetched
    edges; a failed edge fetch leaves a warning and an empty relationship
    list, while the entities are still those of the fetched nodes; and when
    there is nothing to fetch both lists are empty and both counts are 0. *)
Theorem materialization_degrades (d : FalkorDriver) (sid : string) (w : W) :
  (forall e, fst (build_graph_response d sid w) = Raise e
             <-> fst (driver_clone d sid (ext w)) = Raise e)
  /\ (forall sd x1 x2 x3 rn re,
        driver_clone d sid (ext w) = (Ok sd, x1) ->
        EntityNode_get_by_group_ids sd [sid] x1 = (rn, x2) ->
        EntityEdge_get_by_group_ids sd [sid] x2 = (re, x3) ->
        exists resp w',
          build_graph_response d sid w = (Ok resp, w')
          /\ map ge_id (entities resp) = map node_uuid (fetched_or_empty rn)
          /\ relationships resp = map relationship_of (fetched_or_empty re)
          /\ (forall e, rn = Raise e ->
                entities resp = nil
                /\ In (Log WARNING ("Failed to get nodes for " ++ sid ++ ": " ++ str_exn e))
                     (trace w'))
          /\ (forall e, re = Raise e ->
                relationships resp = nil
                /\ In (Log WARNING ("Failed to get edges for " ++ sid ++ ": " ++ str_exn e))
                     (trace w'))
          /\ (fetched_or_empty rn = nil -> fetched_or_empty re = nil ->
                entities resp = nil
                /\ relationships resp = nil
                /\ assoc "entity_count" (metadata resp) = Some (JInt 0)
                /\ assoc "relationship_count" (metadata resp) = Some (JInt 0))).
Proof.
  split; [intros e; apply build_graph_response_raises_iff|].
  intros sd x1 x2 x3 rn re Hclone Hnodes Hedges.
  destruct (build_graph_response_returns d sid w sd x1 x2 x3 rn re Hclone Hnodes Hedges)
    as (t & w' & Hrun & Htrace).
  eexists _, w'. split; [exact Hrun|].
  unfold assemble_response. cbn [entities relationships metadata].
  split; [rewrite map_map; reflexivity|]. split; [reflexivity|].
  split; [|split].
  - intros e ->. split; [reflexivity|].
    rewrite Htrace. simpl fetch_warning.
    apply in_or_app. right. apply in_or_app. right. left. reflexivity.
  - intros e ->. split; [reflexivity|].
    rewrite Htrace. simpl fetch_warning.
    apply in_or_app. right. apply in_or_app. right.
    apply in_or_app. right. apply in_or_app. right. left. reflexivity.
  - intros -> ->. simpl. auto.
Qed.

(** *** Relationship types and timestamps *)

(** C9.  Whenever the session handle is obtained, every relationship of the
    response carries as its type the engine's name for the edge when that
    name is present and non-empty, and "related_to" otherwise; a node's
    creation time is dumped as its ISO string, and as the empty string when
    absent; an edge's valid_at and invalid_at are dumped as their ISO
    strings, and as null when absent.  The empty string and null are
    different JSON values. *)
Theorem materialized_types_and_timestamps (d : FalkorDriver) (sid : string) (w : W)
  (sd : FalkorDriver) (x1 x2 x3 : Ext)
  (rn : Res (list Node)) (re : Res (list Edge)) :
  driver_clone d sid (ext w) = (Ok sd, x1) ->
  EntityNode_get_by_group_ids sd [sid] x1 = (rn, x2) ->
  EntityEdge_get_by_group_ids sd [sid] x2 = (re, x3) ->
  let nodes := fetched_or_empty rn in
  let edges := fetched_or_empty re in
  exists resp w',
    build_graph_response d sid w = (Ok resp, w')
    /\ map (json_get "type") (map dump_GraphRelationship (relationships resp))
       = map (fun e => Some (JStr (relationship_type_by_rule e))) edges
    /\ map (json_get "created_at") (map dump_GraphEntity (entities resp))
       = map (fun n => Some (created_at_json n)) nodes
    /\ map (json_get "valid_at") (map dump_GraphRelationship (relationships resp))
       = map (fun e => Some (validity_json (edge_valid_at e))) edges
    /\ map (json_get "invalid_at") (map dump_GraphRelationship (relationships resp))
       = map (fun e => Some (validity_json (edge_invalid_at e))) edges
    /\ (forall n : Node, node_created_at n = None -> created_at_json n = JStr "")
    /\ @validity_json datetime FalkorDriver Ext rt None = JNull
    /\ JStr "" <> JNull.
Proof.
  intros Hclone Hnodes Hedges nodes edges.
  destruct (build_graph_response_returns d sid w sd x1 x2 x3 rn re Hclone Hnodes Hedges)
    as (t & w' & Hrun & _).
  eexists _, w'. split; [exact Hrun|].
  fold nodes. fold edges. unfold assemble_response. cbn [entities relationships].
  rewrite !map_map. repeat split.
  - apply map_ext. intros e. simpl. unfold relationship_type_by_rule, or_else.
    destruct (edge_name e) as [[|c s]|]; reflexivity.
  - apply map_ext. intros n. simpl. unfold created_at_json, isoformat_or.
    destruct (node_created_at n); reflexivity.
  - apply map_ext. intros e. simpl. unfold validity_json, isoformat_or.
    destruct (edge_valid_at e); reflexivity.
  - apply map_ext. intros e. simpl. unfold validity_json, isoformat_or.
    destruct (edge_invalid_at e); reflexivity.
  - intros n H. unfold created_at_json. rewrite H. reflexivity.
  - discriminate.
Qed.

End Materialization.

(** *** Materialization on the stub *)

(** C2, counterexample.  One node "a" and one edge from "a" to "a": exactly
    one edge has "a" as source or target, and the degree returned is 2. *)
Lemma self_loop_degree_counterexample :
  exists resp w',
    @build_graph_response Z string StubState (stub_runtime true true) "localhost:6379" "s1"
      (with_store (Ok [stub_node "a" "Alice" ["Entity"]])
                  (Ok [stub_edge "e1" "a" "a" None]))
    = (Ok resp, w')
    /\ map ge_id (entities resp) = ["a"]
    /\ map ge_degree (entities resp) = [2]
    /\ edges_touching "a" [stub_edge "e1" "a" "a" None] = 1.
Proof.
  eexists _, _. split; [vm_compute; reflexivity|].
  repeat split.
Qed.

(** C2 (as amended), on the stub: "a" has a self-loop and an edge to "b". *)
Lemma materialized_degree_witness :
  exists resp w',
    @build_graph_response Z string StubState (stub_runtime true true) "localhost:6379" "s1"
      (with_store (Ok [stub_node "a" "Alice" ["Entity"]; stub_node "b" "Bob" ["Entity"]])
                  (Ok [stub_edge "e1" "a" "a" None; stub_edge "e2" "a" "b" None]))
    = (Ok resp, w')
    /\ map ge_id (entities resp) = ["a"; "b"]
    /\ map ge_degree (entities resp) = [2 + 1; 1 + 0].
Proof.
  destruct (@materialized_degree Z string StubState (stub_runtime true true)
              "localhost:6379" "s1"
              (with_store (Ok [stub_node "a" "Alice" ["Entity"]; stub_node "b" "Bob" ["Entity"]])
                          (Ok [stub_edge "e1" "a" "a" None; stub_edge "e2" "a" "b" None]))
              "s1" _ _ _ _ _ eq_refl eq_refl eq_refl)
    as (resp & w' & Hrun & Hid & Hdeg & _).
  exists resp, w'. split; [exact Hrun|]. split; [exact Hid|exact Hdeg].
Defined.

(** C4, counterexample.  A node labelled Entity, Person carries exactly one
    label beyond the generic ones, and a node labelled Person carries one
    label in all; both are typed "person", not "topic". *)
Lemma one_descriptive_label_counterexample :
  exists resp w',
    @build_graph_response Z string StubState (stub_runtime true true) "localhost:6379" "s1"
      (with_store (Ok [stub_node "a" "Alice" ["Entity"; "Person"];
                       stub_node "b" "Bob" ["Person"]])
                  (Ok nil))
    = (Ok resp, w')
    /\ length (@descriptive_labels Z string StubState (stub_runtime true true)
                 ["Entity"; "Person"]) = 1%nat
    /\ length (@descriptive_labels Z string StubState (stub_runtime true true)
                 ["Person"]) = 1%nat
    /\ map ge_type (entities resp) = ["person"; "person"]
    /\ "person" <> "topic".
Proof.
  eexists _, _. split; [vm_compute; reflexivity|].
  repeat split. discriminate.
Qed.

(** C4 (as amended), on the stub. *)
Lemma materialized_node_type_witness :
  exists resp w',
    @build_graph_response Z string StubState (stub_runtime true true) "localhost:6379" "s1"
      (with_store (Ok [stub_node "a" "Alice" ["Entity"; "Person"];
                       stub_node "b" "Bob" ["Entity"];
                       stub_node "c" "Carol" ["Node"; "Place"; "City"]])
                  (Ok nil))
    = (Ok resp, w')
    /\ map ge_type (entities resp) = ["person"; "topic"; "place"].
Proof.
  destruct (@materialized_node_type Z string StubState (stub_runtime true true)
              "localhost:6379" "s1"
              (with_store (Ok [stub_node "a" "Alice" ["Entity"; "Person"];
                               stub_node "b" "Bob" ["Entity"];
                               stub_node "c" "Carol" ["Node"; "Place"; "City"]])
                          (Ok nil))
              "s1" _ _ _ eq_refl eq_refl)
    as ((resp & w' & Hrun & Htype) & _).
  exists resp, w'. split; [exact Hrun|exact Htype].
Defined.

(** C5, on the stub: the node fetch fails, the edge fetch answers. *)
Lemma materialization_degrades_witness :
  exists resp w',
    @build_graph_response Z string StubState (stub_runtime true true) "localhost:6379" "s1"
      (with_store (Raise (Exception "ConnectionError" "store down"))
                  (Ok [stub_edge "e1" "a" "b" None]))
    = (Ok resp, w')
    /\ entities resp = nil
    /\ relationships resp
       = [@relationship_of Z string StubState (stub_runtime true true)
            (stub_edge "e1" "a" "b" None)]
    /\ In (Log WARNING "Failed to get nodes for s1: store down") (trace w').
Proof.
  destruct (@materialization_degrades Z string StubState (stub_runtime true true)
              "localhost:6379" "s1"
              (with_store (Raise (Exception "ConnectionError" "store down"))
                          (Ok [stub_edge "e1" "a" "b" None])))
    as (_ & H).
  destruct (H "s1" _ _ _ _ _ eq_refl eq_refl eq_refl)
    as (resp & w' & Hrun & _ & Hrel & Hnodes & _).
  destruct (Hnodes _ eq_refl) as (Hent & Hlog).
  exists resp, w'. split; [exact Hrun|].
  split; [exact Hent|]. split; [exact Hrel|exact Hlog].
Defined.

(** C9, on the stub: a named and an unnamed edge, both without validity
    bounds, and a node with and one without a creation time. *)
Lemma materialized_types_and_timestamps_witness :
  exists resp w',
    @build_graph_response Z string StubState (stub_runtime true true) "localhost:6379" "s1"
      (with_store (Ok [stub_node "a" "Alice" ["Entity"];
                       mkEntityNode "b" "Bob" None None None])
                  (Ok [stub_edge "e1" "a" "b" (Some "KNOWS");
                       mkEntityEdge "e2" "b" "a" (Some "") None (Some 1704067200) None]))
    = (Ok resp, w')
    /\ map (json_get "type") (map dump_GraphRelationship (relationships resp))
       = [Some (JStr "KNOWS"); Some (JStr "related_to")]
    /\ map (json_get "created_at") (map dump_GraphEntity (entities resp))
       = [Some (JStr "2024-01-01T00:00:00+00:00"); Some (JStr "")]
    /\ map (json_get "valid_at") (map dump_GraphRelationship (relationships resp))
       = [Some JNull; Some (JStr "2024-01-01T00:00:00+00:00")].
Proof.
  destruct (@materialized_types_and_timestamps Z string StubState (stub_runtime true true)
              "localhost:6379" "s1"
              (with_store (Ok [stub_node "a" "Alice" ["Entity"];
                               mkEntityNode "b" "Bob" None None None])
                          (Ok [stub_edge "e1" "a" "b" (Some "KNOWS");
                               mkEntityEdge "e2" "b" "a" (Some "") None
                                 (Some 1704067200) None]))
              "s1" _ _ _ _ _ eq_refl eq_refl eq_refl)
    as (resp & w' & Hrun & Htype & Hcreated & Hvalid & _).
  exists resp, w'. split; [exact Hrun|].
  split; [exact Htype|]. split; [exact Hcreated|exact Hvalid].
Defined.

(** ** The index lifecycle *)

Section Lifecycle.
Context {datetime FalkorDriver Ext : Type}.
Context {cfg : Config} {rt : Runtime datetime FalkorDriver Ext}.

Abbreviation W := (World datetime FalkorDriver Ext).
Abbreviation MW := (M datetime FalkorDriver Ext).

Lemma build_attempts_split (w : W) :
  build_attempts w = (builds_ok w + builds_failed w)%nat.
Proof.
  unfold build_attempts, builds_ok, builds_failed.
  induction (trace w) as [|ev evs IH]; simpl; [reflexivity|].
  destruct ev as [lvl msg|o|[| | | | |] [|]]; simpl; lia.
Qed.

(** *** [ensure_indices], case by case *)

Lemma ensure_indices_built (g : Graphiti FalkorDriver) (w : W) :
  indices_built w = true -> ensure_indices g w = (Ok tt, w).
Proof.
  intros Hb. unfold ensure_indices. run_monad. rewrite Hb. reflexivity.
Qed.

Lemma ensure_indices_success (g : Graphiti FalkorDriver) (w : W) (x : Ext) :
  indices_built w = false ->
  build_indices_and_constraints g (ext w) = (Ok tt, x) ->
  ensure_indices g w
  = (Ok tt,
     mkWorld true (driver w)
       (trace w ++ [Called (Call_build_indices g) true;
                    Log INFO "Graphiti indices built successfully"])
       x).
Proof.
  intros Hb Hbuild. unfold ensure_indices. run_monad. rewrite Hb, Hbuild. simpl.
  rewrite <- app_assoc. reflexivity.
Qed.

Lemma ensure_indices_failure (g : Graphiti FalkorDriver) (w : W) (e : Exn) (x : Ext) :
  indices_built w = false ->
  build_indices_and_constraints g (ext w) = (Raise e, x) ->
  ensure_indices g w
  = (Ok tt,
     mkWorld false (driver w)
       (trace w ++ [Called (Call_build_indices g) false;
                    Log WARNING ("Failed to build indices: " ++ str_exn e)])
       x).
Proof.
  intros Hb Hbuild. unfold ensure_indices. run_monad. rewrite Hb, Hbuild. simpl.
  rewrite <- app_assoc, Hb. reflexivity.
Qed.

(** *** Computations that leave the lifecycle alone *)

Lemma count_snoc {A} (f : A -> bool) (l : list A) (a : A) :
  length (List.filter f (l ++ [a]))
  = (length (List.filter f l) + if f a then 1 else 0)%nat.
Proof.
  rewrite List.filter_app, length_app. simpl. destruct (f a); reflexivity.
Qed.

Lemma steady_ret {A} (a : A) : steady (ret a : MW A).
Proof. intros w. simpl. auto. Qed.

Lemma steady_raise {A} (e : Exn) : steady (raise e : MW A).
Proof. intros w. simpl. auto. Qed.

Lemma steady_lift_res {A} (r : Res A) : steady (lift_res r : MW A).
Proof. intros w. simpl. auto. Qed.

Lemma steady_bind {A B} (m : MW A) (k : A -> MW B) :
  steady m -> (forall a, steady (k a)) -> steady (bind m k).
Proof.
  intros Hm Hk w. unfold bind. specialize (Hm w).
  destruct (m w) as [[a|e] w1]; simpl in *; [|exact Hm].
  specialize (Hk a w1). destruct Hm as (<- & <- & <-). exact Hk.
Qed.

Lemma steady_try_except {A} (m : MW A) (h : Exn -> MW A) :
  steady m -> (forall e, steady (h e)) -> steady (try_except m h).
Proof.
  intros Hm Hh w. unfold try_except. specialize (Hm w).
  destruct (m w) as [[a|e] w1]; simpl in *; [exact Hm|].
  specialize (Hh e w1). destruct Hm as (<- & <- & <-). exact Hh.
Qed.

Lemma steady_try_except_ValueError {A} (m : MW A) (h : Exn -> MW A) :
  steady m -> (forall e, steady (h e)) -> steady (try_except_ValueError m h).
Proof.
  intros Hm Hh. unfold try_except_ValueError. apply steady_try_except; [exact Hm|].
  intros e. destruct (is_ValueError e); [apply Hh|apply steady_raise].
Qed.

Lemma steady_emit (ev : Event datetime FalkorDriver) :
  is_build_call ev = false -> steady (emit ev : MW unit).
Proof.
  intros Hev w. unfold emit, builds_ok, builds_failed. simpl.
  rewrite !count_snoc.
  assert (is_build_ok ev = false /\ is_build_failed ev = false) as [-> ->].
  { destruct ev as [lvl msg|o|[| | | | |] [|]]; simpl in *; auto; discriminate. }
  repeat split; lia.
Qed.

Lemma steady_perform {A} (c : Call datetime FalkorDriver) (oracle : Ext -> Res A * Ext) :
  is_build_call (Called c true) = false -> steady (perform c oracle).
Proof.
  intros Hc w. unfold perform, builds_ok, builds_failed.
  destruct (oracle (ext w)) as [r x]. simpl. rewrite !count_snoc.
  assert (is_build_ok (Called c (returned r)) = false
          /\ is_build_failed (Called c (returned r)) = false) as [-> ->].
  { destruct c, (returned r); simpl in *; auto; discriminate. }
  repeat split; lia.
Qed.

Lemma steady_read_driver : steady (read_driver : MW (option FalkorDriver)).
Proof. intros w. simpl. auto. Qed.

Lemma steady_write_driver (d : option FalkorDriver) : steady (write_driver d : MW unit).
Proof. intros w. simpl. auto. Qed.

Lemma steady_now_utc : steady now_utc.
Proof. intros w. unfold now_utc. destruct (datetime_now_utc (ext w)). simpl. auto. Qed.

Lemma steady_new_driver (host : string) (port : Z) (password : option string) :
  steady (new_driver host port password).
Proof.
  intros w. unfold new_driver.
  destruct (FalkorDriver_new host port password (ext w)) as [[d|e] x]; simpl; [|auto].
  unfold builds_ok, builds_failed. simpl. rewrite !count_snoc. simpl.
  repeat split; lia.
Qed.

Create HintDb steady.

#[local] Hint Resolve steady_ret steady_raise steady_lift_res steady_read_driver
  steady_write_driver steady_now_utc steady_new_driver : steady.

(** Walks down a computation built from the pieces above. *)
Ltac steady_step :=
  match goal with
  | |- steady (bind _ _) => apply steady_bind; [|intros ?]
  | |- steady (try_except_ValueError _ _) =>
      apply steady_try_except_ValueError; [|intros ?]
  | |- steady (try_except _ _) => apply steady_try_except; [|intros ?]
  | |- steady (emit _) => apply steady_emit; reflexivity
  | |- steady (logger_info _) => apply steady_emit; reflexivity
  | |- steady (logger_warning _) => apply steady_emit; reflexivity
  | |- steady (logger_error _) => apply steady_emit; reflexivity
  | |- steady (perform _ _) => apply steady_perform; reflexivity
  | |- steady (if ?c then _ else _) => destruct c
  | |- steady (match ?x with _ => _ end) => destruct x
  | |- steady _ => solve [auto with steady]
  end.

Ltac steady_walk := repeat steady_step.

Lemma steady_get_driver : steady (get_driver : MW FalkorDriver).
Proof. unfold get_driver. steady_walk. Qed.

Lemma steady_make_graphiti (p k h : string) : steady (make_graphiti p k h).
Proof.
  pose proof steady_get_driver.
  unfold make_graphiti, new_llm_client, new_embedder, new_reranker, new_graphiti.
  steady_walk.
Qed.

Lemma steady_build_graph_response (d : FalkorDriver) (sid : string) :
  steady (build_graph_response d sid).
Proof. unfold build_graph_response. steady_walk. Qed.

Lemma steady_health : steady (health : MW JSON).
Proof. pose proof steady_get_driver. unfold health. steady_walk. Qed.

Lemma steady_get_graph (sid : string) : steady (get_graph sid).
Proof.
  pose proof steady_get_driver. pose proof steady_build_graph_response.
  unfold get_graph. steady_walk.
Qed.

Lemma steady_search (req : SearchRequest) : steady (search req).
Proof.
  pose proof steady_make_graphiti. unfold search. steady_walk.
Qed.

Lemma steady_lifespan_shutdown : steady (lifespan_shutdown : MW unit).
Proof. unfold lifespan_shutdown. steady_walk. Qed.

(** *** Moves of the machine *)

Lemma index_step_refl (w : W) : index_step w w.
Proof. unfold index_step. destruct (indices_built w) eqn:E; auto. Qed.

Lemma index_step_trans (a b c : W) :
  index_step a b -> index_step b c -> index_step a c.
Proof.
  unfold index_step. intros Hab Hbc.
  destruct (indices_built a) eqn:Ea.
  - destruct Hab as (Eb & Hok & Hfail). rewrite Eb in Hbc.
    destruct Hbc as (Ec & Hok' & Hfail'). repeat split; congruence.
  - destruct Hab as [(Eb & Hok)|(Eb & Hok)]; rewrite Eb in Hbc.
    + destruct Hbc as [(Ec & Hok')|(Ec & Hok')]; [left|right]; split; congruence.
    + destruct Hbc as (Ec & Hok' & _). right. split; congruence.
Qed.

Lemma steady_stepping {A} (m : MW A) : steady m -> stepping m.
Proof.
  intros Hm w. destruct (Hm w) as (Hb & Hok & Hfail).
  unfold index_step. destruct (indices_built w) eqn:E; auto.
Qed.

Lemma stepping_bind {A B} (m : MW A) (k : A -> MW B) :
  stepping m -> (forall a, stepping (k a)) -> stepping (bind m k).
Proof.
  intros Hm Hk w. unfold bind. specialize (Hm w).
  destruct (m w) as [[a|e] w1]; simpl in *; [|exact Hm].
  apply (index_step_trans w w1); [exact Hm|apply Hk].
Qed.

Lemma stepping_try_except {A} (m : MW A) (h : Exn -> MW A) :
  stepping m -> (forall e, stepping (h e)) -> stepping (try_except m h).
Proof.
  intros Hm Hh w. unfold try_except. specialize (Hm w).
  destruct (m w) as [[a|e] w1]; simpl in *; [exact Hm|].
  apply (index_step_trans w w1); [exact Hm|apply Hh].
Qed.

Lemma stepping_ensure_indices (g : Graphiti FalkorDriver) : stepping (ensure_indices g).
Proof.
  intros w. unfold index_step. destruct (indices_built w) eqn:Hb.
  - rewrite (ensure_indices_built g w Hb). simpl. auto.
  - destruct (build_indices_and_constraints g (ext w)) as [[[]|e] x] eqn:Hbuild.
    + rewrite (ensure_indices_success g w x Hb Hbuild). simpl. right.
      split; [reflexivity|]. unfold builds_ok. simpl.
      rewrite List.filter_app, length_app. simpl. lia.
    + rewrite (ensure_indices_failure g w e x Hb Hbuild). simpl. left.
      split; [reflexivity|]. unfold builds_ok. simpl.
      rewrite List.filter_app, length_app. simpl. lia.
Qed.

Lemma stepping_lifespan_startup : stepping (lifespan_startup : MW unit).
Proof.
  unfold lifespan_startup. destruct (truthy EMBEDDER_API_KEY).
  - apply stepping_try_except.
    + unfold new_llm_client, new_embedder, new_reranker, new_graphiti.
      do 5 (apply stepping_bind;
            [apply steady_stepping; pose proof steady_get_driver; steady_walk
            |intros ?]).
      apply stepping_ensure_indices.
    + intros e. apply steady_stepping. steady_walk.
  - apply steady_stepping. steady_walk.
Qed.

Lemma stepping_ingest (req : IngestRequest) : stepping (ingest req).
Proof.
  unfold ingest.
  destruct (negb (truthy (strip (ireq_text req))));
    [apply steady_stepping; steady_walk|].
  destruct (negb (truthy (ireq_llm_api_key req)));
    [apply steady_stepping; steady_walk|].
  apply stepping_bind.
  - apply steady_stepping. pose proof steady_make_graphiti. steady_walk.
  - intros g. apply stepping_bind; [apply stepping_ensure_indices|].
    intros _. apply steady_stepping.
    pose proof steady_get_driver. pose proof steady_build_graph_response.
    steady_walk.
Qed.

Lemma run_op_index_step (op : Op) (w : W) : index_step w (run_op op w).
Proof.
  destruct op as [| |req|sid|req|].
  - exact (stepping_lifespan_startup w).
  - exact (steady_stepping _ steady_health w).
  - exact (stepping_ingest req w).
  - exact (steady_stepping _ (steady_get_graph sid) w).
  - exact (steady_stepping _ (steady_search req) w).
  - exact (steady_stepping _ steady_lifespan_shutdown w).
Qed.

Lemma run_ops_index_step (ops : list Op) (w : W) : index_step w (run_ops ops w).
Proof.
  unfold run_ops. revert w. induction ops as [|op ops IH]; intros w; simpl.
  - apply index_step_refl.
  - apply (index_step_trans w (run_op op w)); [apply run_op_index_step|apply IH].
Qed.

(** C3.  [ensure_indices] follows the two-state machine, one call at a
    time: with the flag set it does nothing at all; with the flag unset it
    attempts the build, and a build that returns sets the flag, while a build
    that raises leaves the flag unset, logs a warning and still returns
    normally to the caller.  Over any sequence of operations of the process
    (startup, requests, shutdown) the flag, once set, stays set and no
    further build is attempted; and in a process started with the flag unset
    in which no build attempt has failed, at most one build has been
    attempted. *)
Theorem index_lifecycle :
  (forall g (w : W), indices_built w = true -> ensure_indices g w = (Ok tt, w))
  /\ (forall g (w : W) x,
        indices_built w = false ->
        build_indices_and_constraints g (ext w) = (Ok tt, x) ->
        ensure_indices g w
        = (Ok tt,
           mkWorld true (driver w)
             (trace w ++ [Called (Call_build_indices g) true;
                          Log INFO "Graphiti indices built successfully"])
             x))
  /\ (forall g (w : W) e x,
        indices_built w = false ->
        build_indices_and_constraints g (ext w) = (Raise e, x) ->
        ensure_indices g w
        = (Ok tt,
           mkWorld false (driver w)
             (trace w ++ [Called (Call_build_indices g) false;
                          Log WARNING ("Failed to build indices: " ++ str_exn e)])
             x))
  /\ (forall ops (w : W),
        indices_built w = true ->
        indices_built (run_ops ops w) = true
        /\ build_attempts (run_ops ops w) = build_attempts w)
  /\ (forall ops (x : Ext),
        builds_failed (run_ops ops (fresh_world x)) = 0%nat ->
        (build_attempts (run_ops ops (fresh_world x)) <= 1)%nat).
Proof.
  split; [exact ensure_indices_built|].
  split; [exact ensure_indices_success|].
  split; [exact ensure_indices_failure|].
  split.
  - intros ops w Hb. pose proof (run_ops_index_step ops w) as Hstep.
    unfold index_step in Hstep. rewrite Hb in Hstep.
    destruct Hstep as (Hb' & Hok & Hfail). split; [exact Hb'|].
    rewrite !build_attempts_split. lia.
  - intros ops x Hfail.
    pose proof (run_ops_index_step ops (fresh_world x)) as Hstep.
    unfold index_step in Hstep. simpl in Hstep.
    rewrite build_attempts_split, Hfail.
    change (builds_ok (fresh_world x)) with 0%nat in Hstep.
    destruct Hstep as [(_ & Hok)|(_ & Hok)]; lia.
Qed.

End Lifecycle.

(** C3, on the stub: a process that starts without a server key and serves
    three ingests, a graph read and a search; no build fails, and the build
    is attempted once. *)
Lemma index_lifecycle_witness :
  let req := mkIngestRequest "s1" "Alice knows Bob" "openai" "sk-llm" "" None in
  let ops := [OpStartup; OpIngest req; OpIngest req; OpGetGraph "s1";
              OpSearch (mkSearchRequest "s1" "Alice" "openai" "sk-llm" "");
              OpIngest req; OpShutdown] in
  builds_failed
    (@run_ops Z string StubState (stub_config "") (stub_runtime true true) ops stub_world)
  = 0%nat
  /\ (build_attempts
        (@run_ops Z string StubState (stub_config "") (stub_runtime true true) ops stub_world)
      <= 1)%nat
  /\ indices_built
       (@run_ops Z string StubState (stub_config "") (stub_runtime true true) ops stub_world)
     = true.
Proof.
  intros req ops.
  assert (Hfail : builds_failed
    (@run_ops Z string StubState (stub_config "") (stub_runtime true true) ops stub_world)
    = 0%nat) by (vm_compute; reflexivity).
  split; [exact Hfail|]. split; [|vm_compute; reflexivity].
  destruct (@index_lifecycle Z string StubState (stub_config "") (stub_runtime true true))
    as (_ & _ & _ & _ & H).
  exact (H ops stub_state Hfail).
Defined.

(** ** Timestamps and search *)

(** *** [replace] with the one-character pattern "Z" *)

Lemma replace_Z_cons (c : ascii) (s : string) :
  replace (String c s) "Z" "+00:00"
  = ((if Ascii.eqb c "Z" then "+00:00" else String c EmptyString)
     ++ replace s "Z" "+00:00")%string.
Proof.
  unfold replace.
  change (replace_from "Z" "+00:00" 0 (String c s))
    with (if (if ascii_dec "Z" c then String.prefix "" s else false)
          then ("+00:00" ++ replace_from "Z" "+00:00" 0 s)%string
          else String c (replace_from "Z" "+00:00" 0 s)).
  destruct (ascii_dec "Z" c) as [<-|Hne].
  - destruct s; reflexivity.
  - destruct (Ascii.eqb_spec c "Z") as [->|_]; [congruence|reflexivity].
Qed.

Lemma replace_Z_app (s t : string) :
  replace (s ++ t) "Z" "+00:00"
  = (replace s "Z" "+00:00" ++ replace t "Z" "+00:00")%string.
Proof.
  induction s as [|c s IH].
  - reflexivity.
  - change ((String c s ++ t)%string) with (String c (s ++ t)).
    rewrite !replace_Z_cons, IH.
    destruct (Ascii.eqb c "Z"); simpl; reflexivity.
Qed.


Lemma append_nonempty (s t : string) : t <> "" -> (s ++ t)%string <> "".
Proof. intros Ht. destruct s; simpl; [exact Ht|discriminate]. Qed.

Section Endpoints.
Context {datetime FalkorDriver Ext : Type}.
Context {cfg : Config} {rt : Runtime datetime FalkorDriver Ext}.

Abbreviation W := (World datetime FalkorDriver Ext).
Abbreviation MW := (M datetime FalkorDriver Ext).

(** *** The trace only grows *)

Lemma extending_ret {A} (a : A) : extending (ret a : MW A).
Proof. intros w. exists nil. simpl. rewrite app_nil_r. reflexivity. Qed.

Lemma extending_raise {A} (e : Exn) : extending (raise e : MW A).
Proof. intros w. exists nil. simpl. rewrite app_nil_r. reflexivity. Qed.

Lemma extending_lift_res {A} (r : Res A) : extending (lift_res r : MW A).
Proof. intros w. exists nil. simpl. rewrite app_nil_r. reflexivity. Qed.

Lemma extending_bind {A B} (m : MW A) (k : A -> MW B) :
  extending m -> (forall a, extending (k a)) -> extending (bind m k).
Proof.
  intros Hm Hk w. unfold bind. destruct (Hm w) as [evs Hevs].
  destruct (m w) as [[a|e] w1]; simpl in *; [|exists evs; exact Hevs].
  destruct (Hk a w1) as [evs' Hevs']. exists (evs ++ evs')%list.
  rewrite Hevs', Hevs, app_assoc. reflexivity.
Qed.

Lemma extending_try_except {A} (m : MW A) (h : Exn -> MW A) :
  extending m -> (forall e, extending (h e)) -> extending (try_except m h).
Proof.
  intros Hm Hh w. unfold try_except. destruct (Hm w) as [evs Hevs].
  destruct (m w) as [[a|e] w1]; simpl in *; [exists evs; exact Hevs|].
  destruct (Hh e w1) as [evs' Hevs']. exists (evs ++ evs')%list.
  rewrite Hevs', Hevs, app_assoc. reflexivity.
Qed.

Lemma extending_emit (ev : Event datetime FalkorDriver) : extending (emit ev : MW unit).
Proof. intros w. exists [ev]. reflexivity. Qed.

Lemma extending_perform {A} (c : Call datetime FalkorDriver) (oracle : Ext -> Res A * Ext) :
  extending (perform c oracle).
Proof.
  intros w. unfold perform. destruct (oracle (ext w)) as [r x].
  exists [Called c (returned r)]. reflexivity.
Qed.

Lemma extending_read_driver : extending (read_driver : MW (option FalkorDriver)).
Proof. intros w. exists nil. simpl. rewrite app_nil_r. reflexivity. Qed.

Lemma extending_write_driver (d : option FalkorDriver) :
  extending (write_driver d : MW unit).
Proof. intros w. exists nil. simpl. rewrite app_nil_r. reflexivity. Qed.

Lemma extending_now_utc : extending now_utc.
Proof.
  intros w. unfold now_utc. destruct (datetime_now_utc (ext w)).
  exists nil. simpl. rewrite app_nil_r. reflexivity.
Qed.

Lemma extending_new_driver (host : string) (port : Z) (password : option string) :
  extending (new_driver host port password).
Proof.
  intros w. unfold new_driver.
  destruct (FalkorDriver_new host port password (ext w)) as [[d|e] x]; simpl.
  - eexists. reflexivity.
  - exists nil. rewrite app_nil_r. reflexivity.
Qed.

Create HintDb extending.

#[local] Hint Resolve extending_ret extending_raise extending_lift_res
  extending_read_driver extending_write_driver extending_now_utc
  extending_emit extending_perform extending_new_driver : extending.

Ltac extending_step :=
  match goal with
  | |- extending (bind _ _) => apply extending_bind; [|intros ?]
  | |- extending (try_except _ _) => apply extending_try_except; [|intros ?]
  | |- extending (logger_info _) => apply extending_emit
  | |- extending (logger_warning _) => apply extending_emit
  | |- extending (logger_error _) => apply extending_emit
  | |- extending (if ?c then _ else _) => destruct c
  | |- extending (match ?x with _ => _ end) => destruct x
  | |- extending _ => solve [auto with extending]
  end.

Ltac extending_walk := repeat extending_step.

Lemma extending_get_driver : extending (get_driver : MW FalkorDriver).
Proof. unfold get_driver. extending_walk. Qed.

Lemma extending_build_graph_response (d : FalkorDriver) (sid : string) :
  extending (build_graph_response d sid).
Proof. unfold build_graph_response. extending_walk. Qed.

(** *** [ingest] and its reference time *)

Lemma ensure_indices_returns (g : Graphiti FalkorDriver) (w : W) :
  fst (ensure_indices g w) = Ok tt.
Proof.
  unfold ensure_indices. run_monad.
  destruct (indices_built w); [reflexivity|].
  destruct (build_indices_and_constraints g (ext w)) as [[[]|e] x]; reflexivity.
Qed.




Lemma bind_ok {A B} (m : MW A) (k : A -> MW B) (w w1 : W) (a : A) :
  m w = (Ok a, w1) -> bind m k w = k a w1.
Proof. intros Hm. unfold bind. rewrite Hm. reflexivity. Qed.

Lemma try_except_ValueError_ok {A} (m : MW A) (h : Exn -> MW A) (w w1 : W) (a : A) :
  m w = (Ok a, w1) -> try_except_ValueError m h w = (Ok a, w1).
Proof. intros Hm. unfold try_except_ValueError, try_except. rewrite Hm. reflexivity. Qed.







(** *** [search] *)

Lemma search_result_dump (edge : EntityEdge datetime) :
  dump_SearchResult (search_result_of edge) = search_result_json edge.
Proof.
  unfold dump_SearchResult, search_result_of, search_result_json, or_else. simpl.
  destruct (edge_fact edge) as [[|c f]|]; reflexivity.
Qed.

(** C8 (as amended).  A search that passes the checks and the routing asks
    the engine once, for exactly 20 results in the one session, and returns
    one result per edge the engine answers with, in the engine's order: it
    does not cut the answer itself, so it returns at most 20 results whenever
    the engine keeps to the count it was asked for.  Each result is the
    object with exactly the keys fact, source and target: the edge's fact (or
    the empty string when it has none), its source node id and its target
    node id. *)
Theorem search_projection (req : SearchRequest) (w w1 : W)
  (g : Graphiti FalkorDriver) (edges : list (EntityEdge datetime)) (x2 : Ext) :
  truthy (strip (sreq_query req)) = true ->
  truthy (sreq_llm_api_key req) = true ->
  make_graphiti (sreq_llm_provider req) (sreq_llm_api_key req)
    (sreq_openai_api_key req) w = (Ok g, w1) ->
  graphiti_search g (sreq_query req) [sreq_session_id req] 20 (ext w1) = (Ok edges, x2) ->
  exists results,
    search req w
    = (Ok (JDict [("results", JList results)]),
       mkWorld (indices_built w1) (driver w1)
         (trace w1 ++ [Called (Call_search g (sreq_query req) [sreq_session_id req] 20) true])
         x2)
    /\ results = map search_result_json edges
    /\ length results = length edges
    /\ Forall (fun r => json_keys r = ["fact"; "source"; "target"]) results
    /\ ((length edges <= 20)%nat -> (length results <= 20)%nat).
Proof.
  intros Hquery Hkey Hroute Hsearch.
  exists (map search_result_json edges). split; [|split; [reflexivity|]].
  - unfold search. rewrite Hquery, Hkey. cbn [negb].
    rewrite (bind_ok _ _ w w1 g) by (apply try_except_ValueError_ok; exact Hroute).
    unfold try_except, bind, perform. rewrite Hsearch. cbn [returned ret].
    rewrite map_map. rewrite (map_ext _ _ search_result_dump). reflexivity.
  - rewrite length_map. split; [reflexivity|]. split; [|auto].
    apply List.Forall_forall. intros r Hr. apply in_map_iff in Hr.
    destruct Hr as (e & <- & _). reflexivity.
Qed.

End Endpoints.

(** *** Timestamps and search on the stub *)


(** C8, counterexample.  The engine is asked for 20 results and answers
    with 21 edges; [search] returns all 21. *)
Lemma search_cap_counterexample :
  let w : World Z string StubState :=
    fresh_world (mkStubState 1700000000 None (Ok nil) (Ok nil) nil
                   (repeat (stub_edge "e" "a" "b" None) 21)) in
  exists results w',
    @search Z string StubState (stub_config "") (stub_runtime true false)
      (mkSearchRequest "s1" "Alice" "openai" "sk-llm" "") w
    = (Ok (JDict [("results", JList results)]), w')
    /\ In (Called (Call_search
                     (mkGraphiti "localhost:6379" (llm_client_for "openai" "sk-llm")
                        (OpenAIEmbedder
                           (mkOpenAIEmbedderConfig "sk-llm" (Some "text-embedding-3-small")))
                        (OpenAIRerankerClient (mkLLMConfig "sk-llm" None None None)))
                     "Alice" ["s1"] 20) true)
          (trace w')
    /\ length results = 21%nat.
Proof.
  intros w. eexists _, _. split; [vm_compute; reflexivity|].
  split; [|reflexivity].
  simpl. right. right. right. right. right. left. reflexivity.
Qed.

(** C8 (as amended), on the stub: the engine has 25 matches and keeps to
    the count it is asked for. *)
Lemma search_projection_witness :
  let w : World Z string StubState :=
    fresh_world (mkStubState 1700000000 None (Ok nil) (Ok nil) nil
                   (repeat (stub_edge "e" "a" "b" None) 25)) in
  exists results w',
    @search Z string StubState (stub_config "") (stub_runtime true true)
      (mkSearchRequest "s1" "Alice" "openai" "sk-llm" "") w
    = (Ok (JDict [("results", JList results)]), w')
    /\ length results = 20%nat
    /\ Forall (fun r => json_keys r = ["fact"; "source"; "target"]) results.
Proof.
  intros w.
  edestruct (@search_projection Z string StubState (stub_config "") (stub_runtime true true)
               (mkSearchRequest "s1" "Alice" "openai" "sk-llm" "") w)
    as (results & Hrun & _ & Hlen & Hkeys & _); [on_stub ..|].
  exists results. eexists. split; [exact Hrun|].
  split; [rewrite Hlen; reflexivity|exact Hkeys].
Defined.

(** * Further properties of the module *)

(** ** The shared driver and the routed clients *)

Section FurtherRouting.
Context {datetime FalkorDriver Ext : Type}.
Context {cfg : Config} {rt : Runtime datetime FalkorDriver Ext}.

Abbreviation W := (World datetime FalkorDriver Ext).
Abbreviation MW := (M datetime FalkorDriver Ext).

(** X1.  [get_driver] keeps one handle for the process.  A handle that is
    at hand is returned and nothing else happens.  With none at hand the
    constructor is called, with the configured host and port and with the
    password, or [None] when the password is unset or empty.  When the
    constructor returns, the new handle is stored and recorded, so that the
    next call returns the same handle and changes nothing.  When it raises,
    the exception goes to the caller and nothing is stored or recorded, so
    that the next call asks the constructor again. *)
Theorem get_driver_singleton (w : W) :
  (forall d, driver w = Some d -> get_driver w = (Ok d, w))
  /\ (driver w = None ->
      fst (get_driver w)
      = fst (FalkorDriver_new FALKORDB_HOST FALKORDB_PORT
               (if truthy FALKORDB_PASSWORD then FALKORDB_PASSWORD else None) (ext w)))
  /\ (forall d w1,
        get_driver w = (Ok d, w1) ->
        driver w1 = Some d
        /\ get_driver w1 = (Ok d, w1)
        /\ indices_built w1 = indices_built w
        /\ drivers_built w1
           = (drivers_built w + match driver w with Some _ => 0 | None => 1 end)%nat)
  /\ (forall e w1,
        get_driver w = (Raise e, w1) ->
        driver w = None
        /\ driver w1 = None
        /\ trace w1 = trace w
        /\ indices_built w1 = indices_built w
        /\ fst (get_driver w1)
           = fst (FalkorDriver_new FALKORDB_HOST FALKORDB_PORT
                    (if truthy FALKORDB_PASSWORD then FALKORDB_PASSWORD else None)
                    (ext w1))).
Proof.
  split; [intros d; apply get_driver_present|].
  split.
  { intros Hd. destruct (driver_attempt w) as [[d|e] x] eqn:Ha.
    - rewrite (get_driver_ok w d x Ha). unfold driver_attempt in Ha.
      rewrite Hd in Ha. rewrite Ha. reflexivity.
    - destruct (get_driver_raise w e x Ha) as [_ Hrun]. rewrite Hrun.
      unfold driver_attempt in Ha. rewrite Hd in Ha. rewrite Ha. reflexivity. }
  split.
  - intros d w1 Hrun. destruct (driver_attempt w) as [[d0|e] x] eqn:Ha.
    + rewrite (get_driver_ok w d0 x Ha) in Hrun. injection Hrun as <- <-.
      split; [reflexivity|]. split; [apply get_driver_present; reflexivity|].
      split; [reflexivity|].
      unfold drivers_built. cbn [trace]. rewrite List.filter_app, length_app.
      destruct (driver w); simpl; lia.
    + destruct (get_driver_raise w e x Ha) as [_ Hrun']. rewrite Hrun' in Hrun.
      discriminate.
  - intros e w1 Hrun. destruct (driver_attempt w) as [[d0|e0] x] eqn:Ha.
    + rewrite (get_driver_ok w d0 x Ha) in Hrun. discriminate.
    + destruct (get_driver_raise w e0 x Ha) as [Hnone Hrun'].
      rewrite Hrun' in Hrun. injection Hrun as <- <-.
      split; [exact Hnone|]. split; [reflexivity|]. split; [reflexivity|].
      split; [reflexivity|].
      match goal with
      | |- context [get_driver ?w1] =>
          destruct (driver_attempt w1) as [[d1|e1] x1] eqn:Ha1
      end.
      * rewrite (get_driver_ok _ d1 x1 Ha1). unfold driver_attempt in Ha1.
        cbn [driver ext] in Ha1. cbn [ext]. rewrite Ha1. reflexivity.
      * match goal with
        | |- context [get_driver ?w1] =>
            destruct (get_driver_raise w1 e1 x1 Ha1) as [_ Hrun1]; rewrite Hrun1
        end.
        unfold driver_attempt in Ha1. cbn [driver ext] in Ha1. cbn [ext].
        rewrite Ha1. reflexivity.
Qed.

(** X2.  Every way [make_graphiti] can fail.  It raises the missing-key
    error or, only for provider "anthropic" with the client not installed,
    the not-installed error, and then the world is exactly as before the
    call; or else both checks were passed, no store handle was at hand and
    the driver's constructor raised: then that exception goes to the caller
    as it is, the three clients have been constructed, no driver and no
    [Graphiti] object have, and no handle is stored.  In no case is anything
    called or logged, and the index flag is left alone. *)
Theorem make_graphiti_failures (p k h : string) (w w1 : W) (e : Exn) :
  make_graphiti p k h w = (Raise e, w1) ->
  ((e = ValueError MISSING_EMBEDDER_KEY /\ w1 = w)
   \/ (e = ValueError ANTHROPIC_NOT_INSTALLED
       /\ p = "anthropic" /\ anthropic_installed = false /\ w1 = w)
   \/ (driver w = None
       /\ FalkorDriver_new FALKORDB_HOST FALKORDB_PORT
            (if truthy FALKORDB_PASSWORD then FALKORDB_PASSWORD else None) (ext w)
          = (Raise e, ext w1)
       /\ trace w1 = (trace w ++ routed_clients p k h)%list))
  /\ driver w1 = driver w
  /\ indices_built w1 = indices_built w
  /\ List.filter is_call (trace w1) = List.filter is_call (trace w)
  /\ List.filter is_log (trace w1) = List.filter is_log (trace w)
  /\ List.filter is_new_driver (trace w1) = List.filter is_new_driver (trace w).
Proof.
  intros Hrun.
  destruct (make_graphiti_raise_inv p k h w w1 e Hrun)
    as [(_ & -> & ->)|[(_ & Hp & Hinst & -> & ->)|(_ & _ & Hnone & x & Ha & ->)]].
  - split; [left; auto|]. auto.
  - split; [right; left; auto|]. auto.
  - split.
    + right. right. split; [exact Hnone|].
      unfold driver_attempt in Ha. rewrite Hnone in Ha. split; [exact Ha|reflexivity].
    + cbn [driver indices_built trace]. rewrite Hnone, !List.filter_app.
      unfold routed_clients. simpl. rewrite !app_nil_r. auto.
Qed.

(** X3.  Whenever [make_graphiti] returns, the language-model client holds
    the caller's LLM key, whatever hint or server fallback exists, and
    temperature 0; it is the Anthropic client exactly when the provider is
    "anthropic"; and the call has constructed exactly one language-model
    client, one embedder and one reranker, in that order, before the
    [Graphiti] object. *)
Theorem make_graphiti_llm_client (p k h : string) (w w' : W) (g : Graphiti FalkorDriver) :
  make_graphiti p k h w = (Ok g, w') ->
  api_key (llm_config (llm_client g)) = k
  /\ temperature (llm_config (llm_client g)) = Some 0
  /\ (p = "anthropic" <-> exists c, llm_client g = AnthropicClient c)
  /\ (p <> "anthropic" <-> exists c, llm_client g = OpenAIClient c)
  /\ exists between,
       trace w' = (trace w
                   ++ [New (ObjLLMClient (llm_client g)); New (ObjEmbedder (embedder g));
                       New (ObjReranker (cross_encoder g))]
                   ++ between ++ [New (ObjGraphiti g)])%list
       /\ (between = nil \/ between = [New (ObjDriver (graph_driver g))]).
Proof.
  intros Hrun.
  destruct (make_graphiti_ok_run p k h w w' g Hrun) as (d & x & Hd & -> & ->).
  cbn [llm_client embedder cross_encoder trace graph_driver].
  unfold routed_clients, llm_client_for.
  destruct (String.eqb_spec p "anthropic") as [Hp|Hp]; simpl.
  - repeat split; eauto; try (intros [c Hc]; discriminate); try contradiction.
    eexists. split; [reflexivity|]. destruct (driver w); auto.
  - repeat split; eauto; try (intros [c Hc]; discriminate); try contradiction.
    eexists. split; [reflexivity|]. destruct (driver w); auto.
Qed.

Lemma make_graphiti_sets_driver (p k h : string) (w w1 : W) (g : Graphiti FalkorDriver) :
  make_graphiti p k h w = (Ok g, w1) ->
  driver w1 = Some (graph_driver g)
  /\ indices_built w1 = indices_built w
  /\ List.filter is_new_driver (trace w1)
     = (List.filter is_new_driver (trace w)
        ++ match driver w with
           | Some _ => nil
           | None => [New (ObjDriver (graph_driver g))]
           end)%list
  /\ (forall d, driver w = Some d -> graph_driver g = d /\ ext w1 = ext w).
Proof.
  intros Hrun.
  destruct (make_graphiti_ok_run p k h w w1 g Hrun) as (d0 & x & Hd & -> & ->).
  cbn [driver indices_built trace ext graph_driver].
  split; [reflexivity|]. split; [reflexivity|]. split.
  - rewrite !List.filter_app. unfold routed_clients.
    destruct (driver w); simpl; rewrite ?app_nil_r; reflexivity.
  - intros d Hdw. unfold driver_attempt in Hd. rewrite Hdw in Hd.
    injection Hd as <- <-. auto.
Qed.

(** X4.  All routed client sets share one store handle: two calls of
    [make_graphiti] that return, one after the other, give [Graphiti]
    objects with the same driver; the second call constructs no driver and
    does not touch the outside world, nor does the first when a handle was
    at hand; and neither call touches the index flag. *)
Theorem make_graphiti_shares_driver (p1 k1 h1 p2 k2 h2 : string) (w w1 w2 : W)
  (g1 g2 : Graphiti FalkorDriver) :
  make_graphiti p1 k1 h1 w = (Ok g1, w1) ->
  make_graphiti p2 k2 h2 w1 = (Ok g2, w2) ->
  graph_driver g2 = graph_driver g1
  /\ driver w2 = Some (graph_driver g1)
  /\ List.filter is_new_driver (trace w2) = List.filter is_new_driver (trace w1)
  /\ indices_built w2 = indices_built w
  /\ ext w2 = ext w1
  /\ (forall d, driver w = Some d -> ext w2 = ext w).
Proof.
  intros H1 H2.
  destruct (make_graphiti_sets_driver _ _ _ _ _ _ H1) as (Hd1 & Hb1 & _ & Hsame1).
  destruct (make_graphiti_sets_driver _ _ _ _ _ _ H2) as (Hd2 & Hb2 & Hn2 & Hsame2).
  destruct (Hsame2 _ Hd1) as [Hg Hx].
  rewrite Hd1 in Hn2. rewrite app_nil_r in Hn2.
  split; [exact Hg|]. split; [congruence|]. split; [exact Hn2|].
  split; [congruence|]. split; [exact Hx|].
  intros d Hd. destruct (Hsame1 d Hd) as [_ Hx1]. congruence.
Qed.

End FurtherRouting.

(** ** More on materialization *)

Section FurtherMaterialization.
Context {datetime FalkorDriver Ext : Type}.
Context {rt : Runtime datetime FalkorDriver Ext}.

Abbreviation W := (World datetime FalkorDriver Ext).
Abbreviation Edge := (EntityEdge datetime).
Abbreviation Node := (EntityNode datetime).

Lemma degree_total_insert (m : gmap string Z) (k : string) (v : Z) :
  degree_total (<[k := v]> m) = degree_total m - dict_get m k 0 + v.
Proof.
  unfold degree_total, dict_get. destruct (m !! k) as [old|] eqn:Hk.
  - rewrite (map_fold_delete_L _ 0 k old m); [|intros; lia|exact Hk].
    rewrite <- (insert_delete_eq m k v).
    rewrite map_fold_insert_L; [lia|intros; lia|apply lookup_delete_eq].
  - rewrite map_fold_insert_L; [lia|intros; lia|exact Hk].
Qed.

Lemma degree_total_count_edge (m : gmap string Z) (edge : Edge) :
  degree_total (count_edge m edge) = degree_total m + 2.
Proof.
  unfold count_edge. rewrite !degree_total_insert. lia.
Qed.

Lemma degree_total_fold (edges : list Edge) (m : gmap string Z) :
  degree_total (fold_left count_edge edges m) = degree_total m + 2 * len edges.
Proof.
  revert m. induction edges as [|edge edges IH]; intros m; simpl.
  - unfold len. simpl. lia.
  - rewrite IH, degree_total_count_edge. unfold len. simpl length. lia.
Qed.

Lemma edge_ends_bounds (uuid : string) (edges : list Edge) :
  0 <= edge_ends uuid edges <= 2 * len edges.
Proof.
  unfold edge_ends, len. induction edges as [|edge edges IH]; simpl; [lia|].
  destruct (is_source uuid edge), (is_target uuid edge); simpl length; lia.
Qed.

Lemma edge_ends_zero (uuid : string) (edges : list Edge) :
  edge_ends uuid edges = 0
  <-> forall e, In e edges -> source_node_uuid e <> uuid /\ target_node_uuid e <> uuid.
Proof.
  unfold edge_ends, len, is_source, is_target.
  induction edges as [|edge edges IH]; simpl.
  - split; [intros _ e []|reflexivity].
  - destruct (String.eqb_spec (source_node_uuid edge) uuid) as [Hs|Hs];
      destruct (String.eqb_spec (target_node_uuid edge) uuid) as [Ht|Ht];
      simpl length.
    + split; [lia|]. intros H. destruct (H edge (or_introl eq_refl)). contradiction.
    + split; [lia|]. intros H. destruct (H edge (or_introl eq_refl)). contradiction.
    + split; [lia|]. intros H. destruct (H edge (or_introl eq_refl)). contradiction.
    + rewrite IH. split.
      * intros H e [<-|He]; auto.
      * intros H e He. apply H. right. exact He.
Qed.

(** X5.  The degree map obeys the handshake count: the counts it holds add
    up to twice the number of edges it was built from.  Every degree read
    from it lies between 0 and twice the number of edges, and the degree of
    an id is 0 exactly when no edge has that id as source or as target. *)
Theorem degree_map_handshake (edges : list Edge) :
  degree_total (build_degree_map edges) = 2 * len edges
  /\ (forall (node : Node),
        0 <= ge_degree (entity_of (build_degree_map edges) node) <= 2 * len edges)
  /\ (forall (node : Node),
        ge_degree (entity_of (build_degree_map edges) node) = 0
        <-> forall e, In e edges ->
              source_node_uuid e <> node_uuid node
              /\ target_node_uuid e <> node_uuid node).
Proof.
  split; [|split].
  - unfold build_degree_map. rewrite degree_total_fold.
    unfold degree_total. rewrite map_fold_empty. lia.
  - intros node. simpl. rewrite build_degree_map_get. apply edge_ends_bounds.
  - intros node. simpl. rewrite build_degree_map_get. apply edge_ends_zero.
Qed.

(** *** Lower case *)

Lemma lower_ascii_idempotent (c : ascii) : lower_ascii (lower_ascii c) = lower_ascii c.
Proof.
  destruct c as [[|] [|] [|] [|] [|] [|] [|] [|]]; vm_compute; reflexivity.
Qed.

Lemma lower_ascii_keeps_ascii (c : ascii) :
  (N_of_ascii (lower_ascii c) <? 128)%N = (N_of_ascii c <? 128)%N.
Proof.
  destruct c as [[|] [|] [|] [|] [|] [|] [|] [|]]; vm_compute; reflexivity.
Qed.

Lemma ascii_lower_idempotent (s : string) : ascii_lower (ascii_lower s) = ascii_lower s.
Proof.
  induction s as [|c s IH]; simpl; [reflexivity|].
  rewrite lower_ascii_idempotent, IH. reflexivity.
Qed.

Lemma ascii_lower_keeps_ascii (s : string) : is_ascii (ascii_lower s) = is_ascii s.
Proof.
  induction s as [|c s IH]; simpl; [reflexivity|].
  rewrite lower_ascii_keeps_ascii, IH. reflexivity.
Qed.

(** On ASCII text [lower] is the table, and its result is in lower case. *)
Lemma lower_of_ascii (s : string) :
  is_ascii s = true ->
  lower s = ascii_lower s /\ is_ascii (lower s) = true /\ lower (lower s) = lower s.
Proof.
  intros Hs. unfold lower. rewrite Hs, ascii_lower_keeps_ascii, Hs.
  rewrite ascii_lower_idempotent. auto.
Qed.

Lemma label_loop_cases (labels : list string) (dflt : string) :
  label_loop labels dflt = dflt
  \/ exists label,
       In label labels
       /\ is_generic_label (lower label) = false
       /\ label_loop labels dflt = lower label.
Proof.
  induction labels as [|label rest IH]; simpl; [auto|].
  destruct (is_generic_label (lower label)) eqn:Hg; simpl.
  - destruct IH as [IH|(l & Hin & Hl & IH)]; [auto|].
    right. exists l. auto.
  - right. exists label. auto.
Qed.

Lemma infer_node_type_cases (node : Node) :
  infer_node_type node = "topic"
  \/ exists label,
       In label (labels_of node)
       /\ is_generic_label (lower label) = false
       /\ infer_node_type node = lower label.
Proof.
  unfold infer_node_type, labels_of.
  destruct (node_labels node) as [[|l ls]|]; auto.
  unfold truthy, truthy_list. apply label_loop_cases.
Qed.

(** X6.  The inferred node type is "topic" or the lower-cased form of one of
    the node's own labels, and it is never one of the generic labels
    "entity", "node", "entitynode": a label is skipped as generic whatever
    its letter case, so labels that are all generic in some spelling give
    "topic".  For a node whose labels are ASCII text the type is in lower
    case: lower-casing it again changes nothing. *)
Theorem node_type_lower_and_descriptive (node : Node) :
  is_generic_label (infer_node_type node) = false
  /\ (infer_node_type node = "topic"
      \/ exists label, In label (labels_of node) /\ infer_node_type node = lower label)
  /\ (Forall (fun label => is_ascii label = true) (labels_of node) ->
      lower (infer_node_type node) = infer_node_type node
      /\ ascii_lower (infer_node_type node) = infer_node_type node)
  /\ (forall labels,
        node_labels node = Some labels ->
        Forall (fun label => is_generic_label (lower label) = true) labels ->
        infer_node_type node = "topic").
Proof.
  split; [|split; [|split]].
  - destruct (infer_node_type_cases node) as [->|(l & _ & Hg & ->)];
      [reflexivity|exact Hg].
  - destruct (infer_node_type_cases node) as [H|(l & Hin & _ & H)]; [auto|].
    right. exists l. auto.
  - intros Hall.
    destruct (infer_node_type_cases node) as [->|(l & Hin & _ & ->)].
    + split; reflexivity.
    + rewrite List.Forall_forall in Hall. specialize (Hall l Hin).
      destruct (lower_of_ascii l Hall) as (Hl & Ha & Hll).
      split; [exact Hll|]. rewrite Hl. apply ascii_lower_idempotent.
  - intros labels Hlabels Hall. unfold infer_node_type. rewrite Hlabels.
    clear Hlabels. destruct labels as [|l ls]; [reflexivity|].
    unfold truthy, truthy_list.
    induction Hall as [|x xs Hx Hxs IH]; simpl; [reflexivity|].
    rewrite Hx. simpl. exact IH.
Qed.

(** X7.  Once the session handle is obtained, the response mirrors what was
    fetched, item for item: one entity per node and one relationship per
    edge, in fetch order, each relationship with the edge's own id, source
    and target, whether or not those endpoints are among the returned
    entities (nothing is filtered out, and nothing is logged about such an
    edge); the metadata carries the requested session id and counts equal to
    the lengths of the two lists; a missing or empty summary becomes the
    empty string, and no entity is ever given a community. *)
Theorem materialization_mirrors_fetch (d : FalkorDriver) (sid : string) (w : W)
  (sd : FalkorDriver) (x1 x2 x3 : Ext) (nodes : list Node) (edges : list Edge) :
  driver_clone d sid (ext w) = (Ok sd, x1) ->
  EntityNode_get_by_group_ids sd [sid] x1 = (Ok nodes, x2) ->
  EntityEdge_get_by_group_ids sd [sid] x2 = (Ok edges, x3) ->
  exists resp w',
    build_graph_response d sid w = (Ok resp, w')
    /\ map (fun e => (ge_id e, ge_name e)) (entities resp)
       = map (fun n => (node_uuid n, node_name n)) nodes
    /\ map (fun r => (gr_id r, gr_source_id r, gr_target_id r)) (relationships resp)
       = map (fun e => (edge_uuid e, source_node_uuid e, target_node_uuid e)) edges
    /\ assoc "session_id" (metadata resp) = Some (JStr sid)
    /\ assoc "entity_count" (metadata resp) = Some (JInt (len (entities resp)))
    /\ assoc "relationship_count" (metadata resp) = Some (JInt (len (relationships resp)))
    /\ len (entities resp) = len nodes
    /\ len (relationships resp) = len edges
    /\ map ge_summary (entities resp)
       = map (fun n => match node_summary n with Some s => s | None => "" end) nodes
    /\ Forall (fun e => ge_community e = None) (entities resp)
    /\ List.filter is_log (trace w') = List.filter is_log (trace w).
Proof.
  intros Hclone Hnodes Hedges.
  destruct (build_graph_response_returns d sid w sd x1 x2 x3 _ _ Hclone Hnodes Hedges)
    as (t & w' & Hrun & Htrace).
  eexists _, w'. split; [exact Hrun|].
  unfold assemble_response. cbn [entities relationships metadata fetched_or_empty].
  rewrite !map_map. unfold len. rewrite !length_map.
  repeat split.
  - apply map_ext. intros n. simpl. unfold or_else.
    destruct (node_summary n) as [[|c s]|]; reflexivity.
  - apply List.Forall_forall. intros e He. apply in_map_iff in He.
    destruct He as (n & <- & _). reflexivity.
  - rewrite Htrace. simpl. rewrite List.filter_app. simpl.
    rewrite app_nil_r. reflexivity.
Qed.

(** X8.  A materialization stays within its session and touches nothing
    else: it makes exactly three calls, in this order: a clone of the shared
    handle for the session id, then the node fetch and the edge fetch, both
    through the cloned handle and both with the one-element group list
    holding that session id; it constructs nothing, and it leaves the
    index flag and the shared driver as they were. *)
Theorem materialization_session_scoped (d : FalkorDriver) (sid : string) (w : W)
  (sd : FalkorDriver) (x1 x2 x3 : Ext)
  (rn : Res (list Node)) (re : Res (list Edge)) :
  driver_clone d sid (ext w) = (Ok sd, x1) ->
  EntityNode_get_by_group_ids sd [sid] x1 = (rn, x2) ->
  EntityEdge_get_by_group_ids sd [sid] x2 = (re, x3) ->
  let w' := snd (build_graph_response d sid w) in
  List.filter is_call (trace w')
  = (List.filter is_call (trace w)
     ++ [Called (Call_clone d sid) true;
         Called (Call_get_nodes sd [sid]) (returned rn);
         Called (Call_get_edges sd [sid]) (returned re)])%list
  /\ List.filter (fun ev => negb (is_call ev) && negb (is_log ev)) (trace w')
     = List.filter (fun ev => negb (is_call ev) && negb (is_log ev)) (trace w)
  /\ indices_built w' = indices_built w
  /\ driver w' = driver w.
Proof.
  intros Hclone Hnodes Hedges.
  destruct (datetime_now_utc x3) as [t x4] eqn:Hnow.
  rewrite (build_graph_response_run d sid w sd x1 x2 x3 x4 rn re t
             Hclone Hnodes Hedges Hnow).
  cbn [snd trace indices_built driver].
  rewrite !List.filter_app.
  destruct rn as [nodes|en], re as [edges|ee]; simpl;
    rewrite ?app_nil_r; repeat split; reflexivity.
Qed.

End FurtherMaterialization.

(** ** More on the endpoints *)

(** *** Blank text *)

(** Induction on a string, with the hypothesis for every shorter string. *)
Lemma string_length_ind (P : string -> Prop) :
  (forall s, (forall t, (String.length t < String.length s)%nat -> P t) -> P s) ->
  forall s, P s.
Proof.
  intros Hstep s.
  assert (H : forall n t, (String.length t < n)%nat -> P t).
  { induction n as [|n IH]; intros t Ht; [lia|].
    apply Hstep. intros u Hu. apply IH. lia. }
  apply (H (S (String.length s))). lia.
Qed.

Lemma lstrip_all_space (s : string) :
  all_space (lstrip s) = all_space s /\ (all_space s = true -> lstrip s = "").
Proof.
  induction s as [s IH] using string_length_ind.
  destruct s as [|c1 s1]; [simpl; auto|].
  cbn [lstrip all_space]. destruct (is_space c1) eqn:H1.
  { apply IH. simpl. lia. }
  destruct s1 as [|c2 s2].
  { cbn [all_space]. rewrite H1. split; [reflexivity|discriminate]. }
  destruct (is_space2 c1 c2) eqn:H2.
  { apply IH. simpl. lia. }
  destruct s2 as [|c3 s3].
  { cbn [all_space]. rewrite H1, H2. split; [reflexivity|discriminate]. }
  destruct (is_space3 c1 c2 c3) eqn:H3.
  { cbn [andb]. apply IH. simpl. lia. }
  cbn [all_space andb]. rewrite H1, H2, H3. split; [reflexivity|discriminate].
Qed.

Lemma rstrip_blank (s : string) : rstrip s = "" <-> all_space s = true.
Proof.
  destruct s as [|c s]; [simpl; tauto|].
  change (rstrip (String c s))
    with (if all_space (String c s) then "" else String c (rstrip s)).
  destruct (all_space (String c s)); split; (reflexivity || discriminate).
Qed.

(** [not text.strip()] holds exactly for the texts made of white space only. *)
Lemma strip_blank (s : string) : truthy (strip s) = false <-> all_space s = true.
Proof.
  unfold strip. rewrite truthy_str_false, rstrip_blank.
  destruct (lstrip_all_space s) as [-> _]. tauto.
Qed.

Lemma strip_not_blank (s : string) : all_space s = false -> truthy (strip s) = true.
Proof.
  intros Hall. destruct (truthy (strip s)) eqn:Ht; [reflexivity|].
  apply strip_blank in Ht. congruence.
Qed.

(** The no-break space, U+00A0, is white space, and so is the ideographic
    space, U+3000; the zero-width space, U+200B, is not. *)
Lemma all_space_unicode :
  all_space (String (ascii_of_N 194) (String (ascii_of_N 160) " ")) = true
  /\ all_space (String (ascii_of_N 227) (String (ascii_of_N 128)
                  (String (ascii_of_N 128) EmptyString))) = true
  /\ all_space (String (ascii_of_N 226) (String (ascii_of_N 128)
                  (String (ascii_of_N 139) EmptyString))) = false.
Proof. repeat split. Qed.

Section FurtherEndpoints.
Context {datetime FalkorDriver Ext : Type}.
Context {cfg : Config} {rt : Runtime datetime FalkorDriver Ext}.

Abbreviation W := (World datetime FalkorDriver Ext).
Abbreviation MW := (M datetime FalkorDriver Ext).

(** X9.  Validation comes first and has no side effect.  [ingest] answers a
    text that is empty or all whitespace with status 400 "Empty text", and
    otherwise an empty LLM key with status 400 "LLM API key required";
    [search] does the same for its query ("Empty query") and key.  In each
    case the world is left exactly as it was: no client, no driver, no call,
    no log record. *)
Theorem request_validation (w : W) :
  (forall req,
     all_space (ireq_text req) = true ->
     ingest req w = (Raise (HTTPException 400 "Empty text"), w))
  /\ (forall req,
     all_space (ireq_text req) = false ->
     ireq_llm_api_key req = "" ->
     ingest req w = (Raise (HTTPException 400 "LLM API key required"), w))
  /\ (forall req,
     all_space (sreq_query req) = true ->
     search req w = (Raise (HTTPException 400 "Empty query"), w))
  /\ (forall req,
     all_space (sreq_query req) = false ->
     sreq_llm_api_key req = "" ->
     search req w = (Raise (HTTPException 400 "LLM API key required"), w)).
Proof.
  repeat split.
  - intros req Hblank. unfold ingest.
    apply strip_blank in Hblank. rewrite Hblank. reflexivity.
  - intros req Htext Hkey. unfold ingest.
    rewrite (strip_not_blank _ Htext), Hkey. reflexivity.
  - intros req Hblank. unfold search.
    apply strip_blank in Hblank. rewrite Hblank. reflexivity.
  - intros req Htext Hkey. unfold search.
    rewrite (strip_not_blank _ Htext), Hkey. reflexivity.
Qed.

Lemma routing_raise_run {A} (p k h : string) (w w1 : W) (e : Exn)
  (rest : Graphiti FalkorDriver -> MW A) :
  make_graphiti p k h w = (Raise e, w1) ->
  bind (try_except_ValueError (make_graphiti p k h)
          (fun e => raise (HTTPException 400 (str_exn e)))) rest w
  = (Raise (routing_error e), w1).
Proof.
  intros Hrun. unfold bind, try_except_ValueError, try_except, routing_error.
  rewrite Hrun. destruct (is_ValueError e); reflexivity.
Qed.

Lemma make_graphiti_quiet (p k h : string) (w w1 : W) (e : Exn) :
  make_graphiti p k h w = (Raise e, w1) ->
  indices_built w1 = indices_built w
  /\ driver w1 = driver w
  /\ List.filter is_call (trace w1) = List.filter is_call (trace w)
  /\ List.filter is_log (trace w1) = List.filter is_log (trace w)
  /\ List.filter is_new_driver (trace w1) = List.filter is_new_driver (trace w).
Proof.
  intros Hrun.
  destruct (make_graphiti_raise_inv p k h w w1 e Hrun)
    as [(_ & _ & ->)|[(_ & _ & _ & _ & ->)|(_ & _ & Hnone & x & _ & ->)]]; auto.
  cbn [driver indices_built trace]. rewrite Hnone, !List.filter_app.
  unfold routed_clients. simpl. rewrite !app_nil_r. auto.
Qed.

(** X10.  What a routing failure costs the caller.  When [make_graphiti]
    raises for a request that passed validation, [ingest] and [search] stop
    there, in the world the router left: a [ValueError] becomes status 400
    with the error's message as detail, and any other exception goes up as
    it is, not as status 500.  The configuration errors are [ValueError]s
    and leave the world as it was; an exception that is not a [ValueError]
    can only be the one the driver's constructor raised when no handle was
    at hand.  Either way nothing is logged, nothing is called, and the index
    flag and the stored handle are as before. *)
Theorem routing_failure_translation (w w1 : W) (e : Exn) :
  (forall req,
     all_space (ireq_text req) = false ->
     ireq_llm_api_key req <> "" ->
     make_graphiti (ireq_llm_provider req) (ireq_llm_api_key req)
       (ireq_openai_api_key req) w = (Raise e, w1) ->
     ingest req w = (Raise (routing_error e), w1))
  /\ (forall req,
     all_space (sreq_query req) = false ->
     sreq_llm_api_key req <> "" ->
     make_graphiti (sreq_llm_provider req) (sreq_llm_api_key req)
       (sreq_openai_api_key req) w = (Raise e, w1) ->
     search req w = (Raise (routing_error e), w1))
  /\ (forall p k h,
     make_graphiti p k h w = (Raise e, w1) ->
     (effective_embedder_key p k h = "" ->
      routing_error e = HTTPException 400 MISSING_EMBEDDER_KEY /\ w1 = w)
     /\ (effective_embedder_key p k h <> "" -> p = "anthropic" ->
         anthropic_installed = false ->
         routing_error e = HTTPException 400 ANTHROPIC_NOT_INSTALLED /\ w1 = w)
     /\ (is_ValueError e = false ->
         routing_error e = e /\ fst (driver_attempt w) = Raise e /\ driver w = None)
     /\ indices_built w1 = indices_built w
     /\ driver w1 = driver w
     /\ List.filter is_call (trace w1) = List.filter is_call (trace w)
     /\ List.filter is_log (trace w1) = List.filter is_log (trace w)).
Proof.
  split; [|split].
  - intros req Htext Hkey Hraise. unfold ingest.
    rewrite (strip_not_blank _ Htext).
    apply truthy_str_true in Hkey. rewrite Hkey. cbn [negb].
    apply routing_raise_run. exact Hraise.
  - intros req Htext Hkey Hraise. unfold search.
    rewrite (strip_not_blank _ Htext).
    apply truthy_str_true in Hkey. rewrite Hkey. cbn [negb].
    apply routing_raise_run. exact Hraise.
  - intros p k h Hrun.
    destruct (make_graphiti_quiet p k h w w1 e Hrun) as (Hb & Hd & Hc & Hl & _).
    split; [|split; [|split]]; [| | |auto].
    + intros Hkey. rewrite (make_graphiti_missing_key p k h w Hkey) in Hrun.
      injection Hrun as <- <-. auto.
    + intros Hkey Hp Hinst.
      rewrite (make_graphiti_not_installed p k h w Hkey Hp Hinst) in Hrun.
      injection Hrun as <- <-. auto.
    + intros Hv. unfold routing_error. rewrite Hv. split; [reflexivity|].
      destruct (make_graphiti_raise_inv p k h w w1 e Hrun)
        as [(_ & -> & _)|[(_ & _ & _ & -> & _)|(_ & _ & Hnone & x & Ha & _)]];
        try discriminate.
      rewrite Ha. auto.
Qed.

Lemma server_fault_only {A} (m : MW A) (label : string) (w : W) (e : Exn) :
  fst (try_except m
         (fun e0 =>
            let* _ := logger_error (label ++ str_exn e0) in
            raise (HTTPException 500 (str_exn e0))) w) = Raise e ->
  exists e0, e = HTTPException 500 (str_exn e0).
Proof.
  unfold try_except. destruct (m w) as [[a|e0] w1]; simpl; [discriminate|].
  run_monad. intros H. injection H as <-. exists e0. reflexivity.
Qed.

Lemma health_run (w : W) :
  health w
  = (Ok (JDict [("status", JStr "ok");
                ("falkordb", JBool (returned (fst (driver_attempt w))))]),
     snd (get_driver w)).
Proof.
  unfold health, try_except, bind.
  destruct (driver_attempt w) as [[d|e] x] eqn:Ha.
  - rewrite (get_driver_ok w d x Ha). reflexivity.
  - destruct (get_driver_raise w e x Ha) as [_ Hrun]. rewrite Hrun. reflexivity.
Qed.

(** Every way a request can end in an exception after validation. *)
Lemma after_validation_errors {A} (p k h : string) (w : W) (rest : Graphiti FalkorDriver -> MW A)
  (e : Exn) :
  (forall g w1 e1, fst (rest g w1) = Raise e1 -> http_status e1 = Some 500) ->
  fst (bind (try_except_ValueError (make_graphiti p k h)
               (fun e => raise (HTTPException 400 (str_exn e)))) rest w) = Raise e ->
  (http_status e = Some 400
   /\ (snd (bind (try_except_ValueError (make_graphiti p k h)
                    (fun e => raise (HTTPException 400 (str_exn e)))) rest w) = w
       \/ exists e0, fst (driver_attempt w) = Raise e0 /\ is_ValueError e0 = true))
  \/ http_status e = Some 500
  \/ (fst (driver_attempt w) = Raise e /\ is_ValueError e = false).
Proof.
  intros Hrest.
  destruct (make_graphiti p k h w) as [[g|e0] w1] eqn:Hroute.
  - rewrite (bind_ok _ _ w w1 g) by (apply try_except_ValueError_ok; exact Hroute).
    intros H. right. left. apply (Hrest g w1 e H).
  - rewrite (routing_raise_run p k h w w1 e0 rest Hroute). cbn [fst snd].
    intros H. injection H as <-. unfold routing_error.
    destruct (make_graphiti_raise_inv p k h w w1 e0 Hroute)
      as [(_ & -> & ->)|[(_ & _ & _ & -> & ->)|(_ & _ & Hnone & x & Ha & _)]].
    + left. simpl. auto.
    + left. simpl. auto.
    + destruct (is_ValueError e0) eqn:Hv.
      * left. split; [reflexivity|]. right. exists e0. rewrite Ha. auto.
      * right. right. rewrite Ha. auto.
Qed.

(** X11.  What the endpoints can raise.  [ingest] and [search] raise an
    [HTTPException] with status 400 or 500, or else, when no store handle is
    at hand and the driver's constructor raises during routing, that
    exception itself, untranslated and unlogged.  A status 400 comes with
    the world exactly as it was before the request, unless it is a
    [ValueError] of the constructor that was translated.  With a handle at
    hand, then, nothing but status 400 with an untouched world and status
    500 is raised.  [get_graph] raises nothing but status 500, also when the
    constructor raises, and [health] never raises. *)
Theorem endpoint_errors (w : W) :
  (forall req e,
     fst (ingest req w) = Raise e ->
     (http_status e = Some 400
      /\ (snd (ingest req w) = w
          \/ exists e0, fst (driver_attempt w) = Raise e0 /\ is_ValueError e0 = true))
     \/ http_status e = Some 500
     \/ (fst (driver_attempt w) = Raise e /\ is_ValueError e = false))
  /\ (forall req e,
     fst (search req w) = Raise e ->
     (http_status e = Some 400
      /\ (snd (search req w) = w
          \/ exists e0, fst (driver_attempt w) = Raise e0 /\ is_ValueError e0 = true))
     \/ http_status e = Some 500
     \/ (fst (driver_attempt w) = Raise e /\ is_ValueError e = false))
  /\ (forall d,
     driver w = Some d ->
     (forall req e,
        fst (ingest req w) = Raise e ->
        (http_status e = Some 400 /\ snd (ingest req w) = w) \/ http_status e = Some 500)
     /\ (forall req e,
        fst (search req w) = Raise e ->
        (http_status e = Some 400 /\ snd (search req w) = w) \/ http_status e = Some 500))
  /\ (forall sid e, fst (get_graph sid w) = Raise e -> http_status e = Some 500)
  /\ (exists j, fst (health w) = Ok j).
Proof.
  assert (Hingest : forall req e,
     fst (ingest req w) = Raise e ->
     (http_status e = Some 400
      /\ (snd (ingest req w) = w
          \/ exists e0, fst (driver_attempt w) = Raise e0 /\ is_ValueError e0 = true))
     \/ http_status e = Some 500
     \/ (fst (driver_attempt w) = Raise e /\ is_ValueError e = false)).
  { intros req e. unfold ingest.
    destruct (negb (truthy (strip (ireq_text req)))).
    { simpl. intros H. injection H as <-. left. auto. }
    destruct (negb (truthy (ireq_llm_api_key req))).
    { simpl. intros H. injection H as <-. left. auto. }
    apply after_validation_errors. intros g w1 e1.
    pose proof (ensure_indices_returns g w1) as Hens.
    destruct (ensure_indices g w1) as [r w2] eqn:Heq. simpl in Hens. subst r.
    rewrite (bind_ok _ _ w1 w2 tt) by exact Heq.
    intros H. apply server_fault_only in H. destruct H as [e2 ->]. reflexivity. }
  assert (Hsearch : forall req e,
     fst (search req w) = Raise e ->
     (http_status e = Some 400
      /\ (snd (search req w) = w
          \/ exists e0, fst (driver_attempt w) = Raise e0 /\ is_ValueError e0 = true))
     \/ http_status e = Some 500
     \/ (fst (driver_attempt w) = Raise e /\ is_ValueError e = false)).
  { intros req e. unfold search.
    destruct (negb (truthy (strip (sreq_query req)))).
    { simpl. intros H. injection H as <-. left. auto. }
    destruct (negb (truthy (sreq_llm_api_key req))).
    { simpl. intros H. injection H as <-. left. auto. }
    apply after_validation_errors. intros g w1 e1.
    intros H. apply server_fault_only in H. destruct H as [e2 ->]. reflexivity. }
  split; [exact Hingest|]. split; [exact Hsearch|]. split; [|split].
  - intros d Hd.
    assert (Ha : forall e0, fst (driver_attempt w) <> Raise e0).
    { intros e0. unfold driver_attempt. rewrite Hd. discriminate. }
    split.
    + intros req e H.
      destruct (Hingest req e H) as [[H4 [Hw|(e0 & He0 & _)]]|[H5|[He _]]]; auto;
        exfalso; eapply Ha; eassumption.
    + intros req e H.
      destruct (Hsearch req e H) as [[H4 [Hw|(e0 & He0 & _)]]|[H5|[He _]]]; auto;
        exfalso; eapply Ha; eassumption.
  - intros sid e H. unfold get_graph in H.
    apply server_fault_only in H. destruct H as [e1 ->]. reflexivity.
  - rewrite health_run. eexists. reflexivity.
Qed.

(** X12.  [health] never raises and reports whether a store handle can be
    had: falkordb is true when a handle is at hand or the driver's
    constructor returns one, which is then stored, and false when there is
    none and the constructor raises; the exception is swallowed and nothing
    is stored, so that the next request asks the constructor again.  Apart
    from that constructor call it calls nothing and logs nothing, and it
    leaves the index flag alone. *)
Theorem health_reports_handle (w : W) :
  fst (health w)
  = Ok (JDict [("status", JStr "ok");
               ("falkordb", JBool (returned (fst (driver_attempt w))))])
  /\ snd (health w) = snd (get_driver w)
  /\ (forall d, driver w = Some d ->
        health w = (Ok (JDict [("status", JStr "ok"); ("falkordb", JBool true)]), w))
  /\ (forall d x,
        driver w = None ->
        driver_attempt w = (Ok d, x) ->
        health w
        = (Ok (JDict [("status", JStr "ok"); ("falkordb", JBool true)]),
           mkWorld (indices_built w) (Some d) (trace w ++ [New (ObjDriver d)]) x))
  /\ (forall e x,
        driver_attempt w = (Raise e, x) ->
        health w
        = (Ok (JDict [("status", JStr "ok"); ("falkordb", JBool false)]),
           mkWorld (indices_built w) None (trace w) x))
  /\ indices_built (snd (health w)) = indices_built w
  /\ List.filter is_call (trace (snd (health w))) = List.filter is_call (trace w)
  /\ List.filter is_log (trace (snd (health w))) = List.filter is_log (trace w).
Proof.
  rewrite health_run. cbn [fst snd].
  split; [reflexivity|]. split; [reflexivity|]. split; [|split; [|split]].
  - intros d Hd. rewrite (get_driver_present w d Hd).
    unfold driver_attempt. rewrite Hd. reflexivity.
  - intros d x Hnone Ha. rewrite (get_driver_ok w d x Ha), Ha, Hnone. reflexivity.
  - intros e x Ha. destruct (get_driver_raise w e x Ha) as [_ Hrun].
    rewrite Hrun, Ha. reflexivity.
  - destruct (driver_attempt w) as [[d|e] x] eqn:Ha.
    + rewrite (get_driver_ok w d x Ha). cbn [snd indices_built trace].
      rewrite !List.filter_app. destruct (driver w); simpl; rewrite !app_nil_r; auto.
    + destruct (get_driver_raise w e x Ha) as [_ Hrun]. rewrite Hrun. auto.
Qed.

Lemma bind_raise_run {A B} (m : MW A) (k : A -> MW B) (w w1 : W) (e : Exn) :
  m w = (Raise e, w1) -> bind m k w = (Raise e, w1).
Proof. intros Hm. unfold bind. rewrite Hm. reflexivity. Qed.





(** X14.  [search] either succeeds whole or fails whole: when the engine's
    search raises, the endpoint logs "Search failed: ..." at error level and
    raises status 500 with the engine's message as detail; no result is
    returned, and nothing else happens after the failed call. *)
Theorem search_engine_failure (req : SearchRequest) (w w1 : W)
  (g : Graphiti FalkorDriver) (e : Exn) (x2 : Ext) :
  all_space (sreq_query req) = false ->
  sreq_llm_api_key req <> "" ->
  make_graphiti (sreq_llm_provider req) (sreq_llm_api_key req)
    (sreq_openai_api_key req) w = (Ok g, w1) ->
  graphiti_search g (sreq_query req) [sreq_session_id req] 20 (ext w1) = (Raise e, x2) ->
  search req w
  = (Raise (HTTPException 500 (str_exn e)),
     mkWorld (indices_built w1) (driver w1)
       (trace w1
          ++ [Called (Call_search g (sreq_query req) [sreq_session_id req] 20) false;
              Log ERROR ("Search failed: " ++ str_exn e)])
       x2).
Proof.
  intros Hquery Hkey Hroute Hsearch. unfold search.
  rewrite (strip_not_blank _ Hquery). apply truthy_str_true in Hkey. rewrite Hkey.
  cbn [negb].
  rewrite (bind_ok _ _ w w1 g) by (apply try_except_ValueError_ok; exact Hroute).
  unfold try_except, bind, perform. rewrite Hsearch. run_monad.
  rewrite <- app_assoc. reflexivity.
Qed.

(** *** [ingest], step by step *)

Lemma ensure_indices_keeps_driver (g : Graphiti FalkorDriver) (w : W) :
  driver (snd (ensure_indices g w)) = driver w.
Proof.
  destruct (indices_built w) eqn:Hb.
  - rewrite (ensure_indices_built g w Hb). reflexivity.
  - destruct (build_indices_and_constraints g (ext w)) as [[[]|e] x] eqn:Hbuild.
    + rewrite (ensure_indices_success g w x Hb Hbuild). reflexivity.
    + rewrite (ensure_indices_failure g w e x Hb Hbuild). reflexivity.
Qed.

(** The run of [ingest] up to and including the call into the engine. *)
Lemma ingest_run (req : IngestRequest) (w w1 w2 : W) (g : Graphiti FalkorDriver)
  (now : datetime) (x3 x4 : Ext) (seconds : Z) (r : Res (AddEpisodeResults datetime)) :
  all_space (ireq_text req) = false ->
  ireq_llm_api_key req <> "" ->
  make_graphiti (ireq_llm_provider req) (ireq_llm_api_key req)
    (ireq_openai_api_key req) w = (Ok g, w1) ->
  ensure_indices g w1 = (Ok tt, w2) ->
  datetime_now_utc (ext w2) = (now, x3) ->
  timestamp_int (reference_time now (ireq_timestamp req)) = Ok seconds ->
  add_episode g (episode_name (ireq_session_id req) seconds) (ireq_text req)
    EpisodeType_text "Live speech transcript from MindFlow"
    (reference_time now (ireq_timestamp req)) (ireq_session_id req) x3 = (r, x4) ->
  let called :=
    mkWorld (indices_built w2) (driver w2)
      (trace w2
         ++ [Called (episode_call req g (reference_time now (ireq_timestamp req)) seconds)
               (returned r)])
      x4 in
  let fault := fun e : Exn =>
    let* _ := logger_error ("Ingest failed: " ++ str_exn e) in
    (raise (HTTPException 500 (str_exn e)) : MW JSON) in
  ingest req w
  = match r with
    | Raise e => fault e called
    | Ok result =>
        try_except
          (let* d := get_driver in
           let* graph := build_graph_response d (ireq_session_id req) in
           ret (ingest_body result graph))
          fault called
    end.
Proof.
  intros Htext Hkey Hroute Hens Hnow Hsecs Hadd called fault. unfold ingest.
  rewrite (strip_not_blank _ Htext). apply truthy_str_true in Hkey. rewrite Hkey.
  cbn [negb].
  rewrite (bind_ok _ _ w w1 g) by (apply try_except_ValueError_ok; exact Hroute).
  rewrite (bind_ok _ _ w1 w2 tt) by exact Hens.
  unfold try_except at 1.
  rewrite (bind_ok _ _ w2 (mkWorld (indices_built w2) (driver w2) (trace w2) x3) now)
    by (unfold now_utc; rewrite Hnow; reflexivity).
  rewrite Hsecs.
  rewrite (bind_ok _ _ _ (mkWorld (indices_built w2) (driver w2) (trace w2) x3) seconds)
    by reflexivity.
  unfold bind at 1. unfold perform at 1. cbn [ext trace indices_built driver].
  unfold episode_name in Hadd. rewrite Hadd.
  destruct r as [result|e]; reflexivity.
Qed.

(** X15.  When the engine's [add_episode] raises, [ingest] logs "Ingest
    failed: ..." at error level and raises status 500 with the engine's
    message as detail; it does not go on to read the graph (no clone, no
    fetch follows the failed call).  The episode it had submitted is named
    after the session and the whole seconds of the reference time, carries
    the request text unchanged and has the session id as its group. *)
Theorem ingest_extraction_failure (req : IngestRequest) (w w1 w2 : W)
  (g : Graphiti FalkorDriver) (now : datetime) (x3 x4 : Ext) (seconds : Z) (e : Exn) :
  all_space (ireq_text req) = false ->
  ireq_llm_api_key req <> "" ->
  make_graphiti (ireq_llm_provider req) (ireq_llm_api_key req)
    (ireq_openai_api_key req) w = (Ok g, w1) ->
  ensure_indices g w1 = (Ok tt, w2) ->
  datetime_now_utc (ext w2) = (now, x3) ->
  timestamp_int (reference_time now (ireq_timestamp req)) = Ok seconds ->
  add_episode g (ireq_session_id req ++ "_" ++ pretty seconds) (ireq_text req)
    EpisodeType_text "Live speech transcript from MindFlow"
    (reference_time now (ireq_timestamp req)) (ireq_session_id req) x3 = (Raise e, x4) ->
  ingest req w
  = (Raise (HTTPException 500 (str_exn e)),
     mkWorld (indices_built w2) (driver w2)
       (trace w2
          ++ [Called
                (Call_add_episode g (ireq_session_id req ++ "_" ++ pretty seconds)
                   (ireq_text req) EpisodeType_text
                   "Live speech transcript from MindFlow"
                   (reference_time now (ireq_timestamp req)) (ireq_session_id req))
                false;
              Log ERROR ("Ingest failed: " ++ str_exn e)])
       x4).
Proof.
  intros Htext Hkey Hroute Hens Hnow Hsecs Hadd.
  rewrite (ingest_run req w w1 w2 g now x3 x4 seconds (Raise e)
             Htext Hkey Hroute Hens Hnow Hsecs Hadd).
  run_monad. rewrite <- app_assoc. reflexivity.
Qed.

(** X16.  A failure after the write is reported as a failure of the whole
    request: when [add_episode] has returned and obtaining the session
    handle for the read-back then raises, [ingest] raises status 500 with
    that message, although the episode was submitted and accepted; nothing
    is undone or retried. *)
Theorem ingest_read_back_failure (req : IngestRequest) (w w1 w2 : W)
  (g : Graphiti FalkorDriver) (now : datetime) (x3 x4 x5 : Ext) (seconds : Z)
  (result : AddEpisodeResults datetime) (e : Exn) :
  all_space (ireq_text req) = false ->
  ireq_llm_api_key req <> "" ->
  make_graphiti (ireq_llm_provider req) (ireq_llm_api_key req)
    (ireq_openai_api_key req) w = (Ok g, w1) ->
  ensure_indices g w1 = (Ok tt, w2) ->
  datetime_now_utc (ext w2) = (now, x3) ->
  timestamp_int (reference_time now (ireq_timestamp req)) = Ok seconds ->
  add_episode g (ireq_session_id req ++ "_" ++ pretty seconds) (ireq_text req)
    EpisodeType_text "Live speech transcript from MindFlow"
    (reference_time now (ireq_timestamp req)) (ireq_session_id req) x3
  = (Ok result, x4) ->
  driver_clone (graph_driver g) (ireq_session_id req) x4 = (Raise e, x5) ->
  ingest req w
  = (Raise (HTTPException 500 (str_exn e)),
     mkWorld (indices_built w2) (driver w2)
       (trace w2
          ++ [Called
                (Call_add_episode g (ireq_session_id req ++ "_" ++ pretty seconds)
                   (ireq_text req) EpisodeType_text
                   "Live speech transcript from MindFlow"
                   (reference_time now (ireq_timestamp req)) (ireq_session_id req))
                true;
              Called (Call_clone (graph_driver g) (ireq_session_id req)) false;
              Log ERROR ("Ingest failed: " ++ str_exn e)])
       x5).
Proof.
  intros Htext Hkey Hroute Hens Hnow Hsecs Hadd Hclone.
  rewrite (ingest_run req w w1 w2 g now x3 x4 seconds (Ok result)
             Htext Hkey Hroute Hens Hnow Hsecs Hadd).
  assert (Hd : driver w2 = Some (graph_driver g)).
  { replace w2 with (snd (ensure_indices g w1)) by (rewrite Hens; reflexivity).
    rewrite ensure_indices_keeps_driver.
    apply (make_graphiti_sets_driver _ _ _ _ _ _ Hroute). }
  unfold try_except.
  match goal with
  | |- context [bind get_driver _ ?w3] =>
      rewrite (bind_ok _ _ w3 w3 (graph_driver g)) by (apply get_driver_present; exact Hd);
      rewrite (bind_raise_run _ _ w3 _ e
                 (build_graph_response_abort (graph_driver g) (ireq_session_id req)
                    w3 e x5 Hclone))
  end.
  run_monad. rewrite <- !app_assoc. reflexivity.
Qed.


End FurtherEndpoints.

(** ** More on the process *)

Section FurtherLifecycle.
Context {datetime FalkorDriver Ext : Type}.
Context {cfg : Config} {rt : Runtime datetime FalkorDriver Ext}.

Abbreviation W := (World datetime FalkorDriver Ext).
Abbreviation MW := (M datetime FalkorDriver Ext).

Create HintDb further.

#[local] Hint Resolve steady_ret steady_raise steady_lift_res steady_read_driver
  steady_write_driver steady_now_utc steady_get_driver
  steady_build_graph_response : further.

Ltac walk_steady :=
  repeat match goal with
  | |- steady (bind _ _) => apply steady_bind; [|intros ?]
  | |- steady (try_except _ _) => apply steady_try_except; [|intros ?]
  | |- steady (logger_info _) => apply steady_emit; reflexivity
  | |- steady (logger_warning _) => apply steady_emit; reflexivity
  | |- steady (logger_error _) => apply steady_emit; reflexivity
  | |- steady (perform _ _) => apply steady_perform; reflexivity
  | |- steady (if ?c then _ else _) => destruct c
  | |- steady (match ?x with _ => _ end) => destruct x
  | |- steady _ => solve [auto with further]
  end.

(** X18.  The build counter of a process adds up: after any sequence of
    operations of a freshly started process, the number of builds attempted
    is the number of builds that failed, plus one exactly when the flag is
    set.  So a failed build is tried again by later operations until one
    build returns, and after that none is attempted. *)
Theorem build_accounting (ops : list Op) (x : Ext) :
  let w' := run_ops ops (fresh_world x : W) in
  build_attempts w' = (builds_failed w' + if indices_built w' then 1 else 0)%nat.
Proof.
  intros w'. pose proof (run_ops_index_step ops (fresh_world x : W)) as Hstep.
  fold w' in Hstep. unfold index_step in Hstep. simpl in Hstep.
  change (builds_ok (fresh_world x)) with 0%nat in Hstep.
  rewrite build_attempts_split.
  destruct Hstep as [(Hb & Hok)|(Hb & Hok)]; rewrite Hb, Hok; lia.
Qed.

Lemma steady_attempts {A} (m : MW A) (w : W) :
  steady m ->
  indices_built (snd (m w)) = indices_built w
  /\ build_attempts (snd (m w)) = build_attempts w.
Proof.
  intros Hm. destruct (Hm w) as (Hb & Hok & Hfail).
  rewrite !build_attempts_split. split; [exact Hb|lia].
Qed.

(** X19.  Only [ingest] and the startup hook ever build indices: [health],
    [get_graph], [search] and the shutdown hook attempt no build and leave
    the flag as it is, in every world; a search on a process whose indices
    were never built goes to the engine all the same. *)
Theorem reads_never_build (w : W) :
  (indices_built (snd (health w)) = indices_built w
   /\ build_attempts (snd (health w)) = build_attempts w)
  /\ (forall sid,
        indices_built (snd (get_graph sid w)) = indices_built w
        /\ build_attempts (snd (get_graph sid w)) = build_attempts w)
  /\ (forall req,
        indices_built (snd (search req w)) = indices_built w
        /\ build_attempts (snd (search req w)) = build_attempts w)
  /\ (indices_built (snd (lifespan_shutdown w)) = indices_built w
      /\ build_attempts (snd (lifespan_shutdown w)) = build_attempts w).
Proof.
  split; [apply (steady_attempts _ w steady_health)|].
  split; [intros sid; apply (steady_attempts _ w (steady_get_graph sid))|].
  split; [intros req; apply (steady_attempts _ w (steady_search req))|].
  apply (steady_attempts _ w steady_lifespan_shutdown).
Qed.

Lemma ensure_indices_attempts (g : Graphiti FalkorDriver) (w : W) :
  build_attempts (snd (ensure_indices g w))
  = (build_attempts w + if indices_built w then 0 else 1)%nat
  /\ indices_built (snd (ensure_indices g w))
     = (indices_built w || returned (fst (build_indices_and_constraints g (ext w)))).
Proof.
  destruct (indices_built w) eqn:Hb.
  - rewrite (ensure_indices_built g w Hb). simpl. split; [lia|exact Hb].
  - destruct (build_indices_and_constraints g (ext w)) as [[[]|e] x] eqn:Hbuild.
    + rewrite (ensure_indices_success g w x Hb Hbuild). unfold build_attempts. simpl.
      rewrite List.filter_app, length_app. simpl. split; [lia|reflexivity].
    + rewrite (ensure_indices_failure g w e x Hb Hbuild). unfold build_attempts. simpl.
      rewrite List.filter_app, length_app. simpl. split; [lia|reflexivity].
Qed.

Lemma extending_after_episode (sid : string) (result : AddEpisodeResults datetime) :
  extending
    (try_except
       (let* d := get_driver in
        let* graph := build_graph_response d sid in
        (ret (ingest_body result graph) : MW JSON))
       (fun e =>
          let* _ := logger_error ("Ingest failed: " ++ str_exn e) in
          raise (HTTPException 500 (str_exn e)))).
Proof.
  apply extending_try_except.
  - apply extending_bind; [apply extending_get_driver|intros d].
    apply extending_bind; [apply extending_build_graph_response|intros graph].
    apply extending_ret.
  - intros e. apply extending_bind; [apply extending_emit|intros _].
    apply extending_raise.
Qed.

(** X20.  Every [ingest] that gets past validation and routing ensures the
    indices exactly once, before it calls the engine: with the flag unset it
    attempts one build, on the outside world as routing left it, and the
    flag afterwards tells whether that build returned; with the flag set it
    attempts none.  A failed build does not stop the request: the warning is
    logged, the flag stays unset, and the next thing the request does is to
    hand the episode to the engine. *)
Theorem ingest_ensures_indices (req : IngestRequest) (w w1 : W)
  (g : Graphiti FalkorDriver) :
  all_space (ireq_text req) = false ->
  ireq_llm_api_key req <> "" ->
  make_graphiti (ireq_llm_provider req) (ireq_llm_api_key req)
    (ireq_openai_api_key req) w = (Ok g, w1) ->
  build_attempts (snd (ingest req w))
  = (build_attempts w + if indices_built w then 0 else 1)%nat
  /\ indices_built (snd (ingest req w))
     = (indices_built w || returned (fst (build_indices_and_constraints g (ext w1))))
  /\ (forall e x now x3 seconds,
        indices_built w = false ->
        build_indices_and_constraints g (ext w1) = (Raise e, x) ->
        datetime_now_utc x = (now, x3) ->
        timestamp_int (reference_time now (ireq_timestamp req)) = Ok seconds ->
        exists b evs,
          trace (snd (ingest req w))
          = (trace w1
             ++ [Called (Call_build_indices g) false;
                 Log WARNING ("Failed to build indices: " ++ str_exn e);
                 Called (episode_call req g (reference_time now (ireq_timestamp req))
                           seconds) b]
             ++ evs)%list
          /\ indices_built (snd (ingest req w)) = false).
Proof.
  intros Htext Hkey Hroute.
  pose proof (steady_attempts _ w (steady_make_graphiti (ireq_llm_provider req)
                (ireq_llm_api_key req) (ireq_openai_api_key req))) as Hw1.
  rewrite Hroute in Hw1. simpl in Hw1. destruct Hw1 as [Hb1 Ha1].
  destruct (ensure_indices_attempts g w1) as [Ha2 Hb2].
  assert (Hcount :
    build_attempts (snd (ingest req w))
    = (build_attempts w + if indices_built w then 0 else 1)%nat
    /\ indices_built (snd (ingest req w))
       = (indices_built w || returned (fst (build_indices_and_constraints g (ext w1))))).
  { unfold ingest. rewrite (strip_not_blank _ Htext).
    pose proof Hkey as Hkey'. apply truthy_str_true in Hkey'. rewrite Hkey'. cbn [negb].
    rewrite (bind_ok _ _ w w1 g) by (apply try_except_ValueError_ok; exact Hroute).
    pose proof (ensure_indices_returns g w1) as Hret.
    destruct (ensure_indices g w1) as [r w2] eqn:Hens. simpl in Hret, Ha2, Hb2. subst r.
    rewrite (bind_ok _ _ w1 w2 tt) by exact Hens.
    match goal with
    | |- context [try_except ?body ?handler w2] =>
        assert (Hrest : steady (try_except body handler))
    end.
    { walk_steady. }
    destruct (steady_attempts _ w2 Hrest) as [Hb3 Ha3].
    rewrite Hb3, Ha3, Ha2, Hb2, Ha1, Hb1. split; reflexivity. }
  split; [apply Hcount|]. split; [apply Hcount|].
  intros e x now x3 seconds Hflag Hbuild Hnow Hsecs.
  assert (Hflag1 : indices_built w1 = false) by congruence.
  pose proof (ensure_indices_failure g w1 e x Hflag1 Hbuild) as Hens.
  destruct (add_episode g (episode_name (ireq_session_id req) seconds) (ireq_text req)
              EpisodeType_text "Live speech transcript from MindFlow"
              (reference_time now (ireq_timestamp req)) (ireq_session_id req) x3)
    as [r x4] eqn:Hadd.
  pose proof (ingest_run req w w1 _ g now x3 x4 seconds r Htext Hkey Hroute Hens
                Hnow Hsecs Hadd) as Hrun.
  cbv zeta in Hrun. cbn [indices_built driver trace] in Hrun.
  exists (returned r).
  destruct Hcount as [_ Hb]. rewrite Hflag, Hbuild in Hb. cbn in Hb.
  destruct r as [result|e1].
  - destruct (extending_after_episode (ireq_session_id req) result
                (mkWorld false (driver w1)
                   ((trace w1
                     ++ [Called (Call_build_indices g) false;
                         Log WARNING ("Failed to build indices: " ++ str_exn e)])
                    ++ [Called (episode_call req g
                                  (reference_time now (ireq_timestamp req)) seconds)
                          (returned (Ok result))])
                   x4)) as [evs Hevs].
    rewrite <- Hrun in Hevs. exists evs. split; [|exact Hb].
    rewrite Hevs. cbn [trace]. rewrite <- !app_assoc. reflexivity.
  - exists [Log ERROR ("Ingest failed: " ++ str_exn e1)]. split; [|exact Hb].
    rewrite Hrun. run_monad. rewrite <- !app_assoc. reflexivity.
Qed.

(** The client set the startup hook builds from the server key. *)
Lemma lifespan_startup_with_key (w : W) (d : FalkorDriver) (x : Ext) :
  EMBEDDER_API_KEY <> "" ->
  driver_attempt w = (Ok d, x) ->
  let temp :=
    mkGraphiti d
      (OpenAIClient (mkLLMConfig EMBEDDER_API_KEY (Some "gpt-4.1-mini") None None))
      (OpenAIEmbedder (mkOpenAIEmbedderConfig EMBEDDER_API_KEY None))
      (OpenAIRerankerClient (mkLLMConfig EMBEDDER_API_KEY None None None)) in
  let w0 :=
    mkWorld (indices_built w) (Some d)
      (trace w
         ++ [New (ObjLLMClient (llm_client temp)); New (ObjEmbedder (embedder temp));
             New (ObjReranker (cross_encoder temp))]
         ++ match driver w with
            | Some _ => nil
            | None => [New (ObjDriver d)]
            end
         ++ [New (ObjGraphiti temp)])
      x in
  lifespan_startup w = (Ok tt, snd (ensure_indices temp w0)).
Proof.
  intros Hkey Ha temp w0. unfold lifespan_startup.
  apply truthy_str_true in Hkey. rewrite Hkey.
  unfold try_except, new_llm_client, new_embedder, new_reranker, new_graphiti.
  unfold bind, emit, ret. cbn [fst snd trace indices_built driver ext].
  match goal with
  | |- context [get_driver ?w1] =>
      rewrite (get_driver_ok w1 d x) by exact Ha
  end.
  cbn [fst snd trace indices_built driver ext].
  match goal with
  | |- context [ensure_indices ?g ?w1] =>
      replace w1 with w0
        by (unfold w0, temp; simpl; rewrite <- !app_assoc; reflexivity);
      change g with temp
  end.
  pose proof (ensure_indices_returns temp w0) as Hret.
  destruct (ensure_indices temp w0) as [r w2]. simpl in Hret. subst r. reflexivity.
Qed.

(** The startup hook when the store handle is refused. *)
Lemma lifespan_startup_no_driver (w : W) (e : Exn) (x : Ext) :
  EMBEDDER_API_KEY <> "" ->
  driver_attempt w = (Raise e, x) ->
  lifespan_startup w
  = (Ok tt,
     mkWorld (indices_built w) None
       (trace w
          ++ [New (ObjLLMClient
                     (OpenAIClient
                        (mkLLMConfig EMBEDDER_API_KEY (Some "gpt-4.1-mini") None None)));
              New (ObjEmbedder
                     (OpenAIEmbedder (mkOpenAIEmbedderConfig EMBEDDER_API_KEY None)));
              New (ObjReranker
                     (OpenAIRerankerClient (mkLLMConfig EMBEDDER_API_KEY None None None)));
              Log WARNING ("Failed to build indices on startup: " ++ str_exn e)])
       x).
Proof.
  intros Hkey Ha. unfold lifespan_startup.
  apply truthy_str_true in Hkey. rewrite Hkey.
  unfold try_except, new_llm_client, new_embedder, new_reranker, new_graphiti.
  unfold bind, emit, ret. cbn [fst snd trace indices_built driver ext].
  match goal with
  | |- context [get_driver ?w1] =>
      destruct (get_driver_raise w1 e x Ha) as [_ Hrun]; rewrite Hrun
  end.
  unfold logger_warning, emit. cbn [fst snd trace indices_built driver ext].
  rewrite <- !app_assoc. reflexivity.
Qed.

Lemma extending_ensure_indices (g : Graphiti FalkorDriver) : extending (ensure_indices g).
Proof.
  intros w. destruct (indices_built w) eqn:Hb.
  - rewrite (ensure_indices_built g w Hb). exists nil. simpl.
    rewrite app_nil_r. reflexivity.
  - destruct (build_indices_and_constraints g (ext w)) as [[[]|e] x] eqn:Hbuild.
    + rewrite (ensure_indices_success g w x Hb Hbuild). eexists. reflexivity.
    + rewrite (ensure_indices_failure g w e x Hb Hbuild). eexists. reflexivity.
Qed.

(** X21.  The startup hook is best effort: it never raises, whatever the
    store and the build do.  Without a server key it only logs that indices
    will be built on first ingest: it constructs nothing and calls nothing.
    With a server key it constructs a client set in which the language
    model, the embedder and the reranker all carry the server key; with the
    shared store handle obtained (constructed if there was none) it ensures
    the indices with that set: one build attempt when the flag is unset,
    none when it is set; and when the handle is refused it logs "Failed to
    build indices on startup: ..." as a warning, attempts no build and
    stores no handle. *)
Theorem startup_is_best_effort (w : W) :
  fst (lifespan_startup w) = Ok tt
  /\ (EMBEDDER_API_KEY = "" ->
      lifespan_startup w
      = (Ok tt,
         mkWorld (indices_built w) (driver w)
           (trace w
              ++ [Log INFO
                    "OPENAI_API_KEY not set — indices will be built on first ingest."])
           (ext w)))
  /\ (EMBEDDER_API_KEY <> "" ->
      forall d x,
        driver_attempt w = (Ok d, x) ->
        let w' := snd (lifespan_startup w) in
        build_attempts w' = (build_attempts w + if indices_built w then 0 else 1)%nat
        /\ driver w' = Some d
        /\ In (New (ObjLLMClient
                      (OpenAIClient
                         (mkLLMConfig EMBEDDER_API_KEY (Some "gpt-4.1-mini") None None))))
              (trace w')
        /\ In (New (ObjEmbedder
                      (OpenAIEmbedder (mkOpenAIEmbedderConfig EMBEDDER_API_KEY None))))
              (trace w')
        /\ In (New (ObjReranker
                      (OpenAIRerankerClient (mkLLMConfig EMBEDDER_API_KEY None None None))))
              (trace w'))
  /\ (EMBEDDER_API_KEY <> "" ->
      forall e x,
        driver_attempt w = (Raise e, x) ->
        lifespan_startup w
        = (Ok tt,
           mkWorld (indices_built w) None
             (trace w
                ++ [New (ObjLLMClient
                           (OpenAIClient
                              (mkLLMConfig EMBEDDER_API_KEY (Some "gpt-4.1-mini")
                                 None None)));
                    New (ObjEmbedder
                           (OpenAIEmbedder (mkOpenAIEmbedderConfig EMBEDDER_API_KEY None)));
                    New (ObjReranker
                           (OpenAIRerankerClient
                              (mkLLMConfig EMBEDDER_API_KEY None None None)));
                    Log WARNING ("Failed to build indices on startup: " ++ str_exn e)])
             x)
        /\ build_attempts (snd (lifespan_startup w)) = build_attempts w).
Proof.
  assert (Hnokey : EMBEDDER_API_KEY = "" ->
            lifespan_startup w
            = (Ok tt,
               mkWorld (indices_built w) (driver w)
                 (trace w
                    ++ [Log INFO
                          "OPENAI_API_KEY not set — indices will be built on first ingest."])
                 (ext w))).
  { intros Hkey. unfold lifespan_startup. apply truthy_str_false in Hkey.
    rewrite Hkey. reflexivity. }
  split; [|split; [exact Hnokey|split]].
  - destruct (String.eqb_spec EMBEDDER_API_KEY "") as [Hkey|Hkey].
    + rewrite (Hnokey Hkey). reflexivity.
    + destruct (driver_attempt w) as [[d|e] x] eqn:Ha.
      * rewrite (lifespan_startup_with_key w d x Hkey Ha). reflexivity.
      * rewrite (lifespan_startup_no_driver w e x Hkey Ha). reflexivity.
  - intros Hkey d x Ha w'. unfold w'.
    rewrite (lifespan_startup_with_key w d x Hkey Ha). cbn [snd].
    match goal with
    | |- context [ensure_indices ?g ?w0] =>
        destruct (ensure_indices_attempts g w0) as [Hat _];
        pose proof (ensure_indices_keeps_driver g w0) as Hd;
        destruct (extending_ensure_indices g w0) as [evs Hevs]
    end.
    rewrite Hat, Hd, Hevs. cbn [trace indices_built driver].
    split.
    { unfold build_attempts. cbn [trace]. rewrite !List.filter_app.
      destruct (driver w); simpl; rewrite !app_nil_r; reflexivity. }
    split; [reflexivity|].
    rewrite !in_app_iff. simpl. auto 10.
  - intros Hkey e x Ha. rewrite (lifespan_startup_no_driver w e x Hkey Ha).
    split; [reflexivity|]. unfold build_attempts. cbn [snd trace].
    rewrite List.filter_app. simpl. rewrite app_nil_r. reflexivity.
Qed.

(** *** The shared handle over the life of the process *)

Lemma driver_step_same (w w' : W) :
  driver w' = driver w -> drivers_built w' = drivers_built w -> driver_step w w'.
Proof.
  intros Hd Hn. unfold driver_step. destruct (driver w); auto.
Qed.

Lemma driver_step_trans (a b c : W) :
  driver_step a b -> driver_step b c -> driver_step a c.
Proof.
  unfold driver_step. intros Hab Hbc. destruct (driver a) as [d|].
  - destruct Hab as [Hb Hn]. rewrite Hb in Hbc. destruct Hbc as [Hc Hn'].
    split; congruence.
  - destruct Hab as [[Hb Hn]|(d & Hb & Hn)]; rewrite Hb in Hbc.
    + destruct Hbc as [[Hc Hn']|(d & Hc & Hn')].
      * left. split; congruence.
      * right. exists d. split; congruence.
    + destruct Hbc as [Hc Hn']. right. exists d. split; congruence.
Qed.

Lemma driver_stepping_bind {A B} (m : MW A) (k : A -> MW B) :
  driver_stepping m -> (forall a, driver_stepping (k a)) -> driver_stepping (bind m k).
Proof.
  intros Hm Hk w. unfold bind. specialize (Hm w).
  destruct (m w) as [[a|e] w1]; simpl in *; [|exact Hm].
  apply (driver_step_trans w w1); [exact Hm|apply Hk].
Qed.

Lemma driver_stepping_try_except {A} (m : MW A) (h : Exn -> MW A) :
  driver_stepping m -> (forall e, driver_stepping (h e)) ->
  driver_stepping (try_except m h).
Proof.
  intros Hm Hh w. unfold try_except. specialize (Hm w).
  destruct (m w) as [[a|e] w1]; simpl in *; [exact Hm|].
  apply (driver_step_trans w w1); [exact Hm|apply Hh].
Qed.

Lemma driver_stepping_pure {A} (r : Res A) : driver_stepping (fun w : W => (r, w)).
Proof. intros w. apply driver_step_same; reflexivity. Qed.

Lemma driver_stepping_emit (ev : Event datetime FalkorDriver) :
  is_new_driver ev = false -> driver_stepping (emit ev : MW unit).
Proof.
  intros Hev w. apply driver_step_same; [reflexivity|].
  unfold drivers_built, emit. simpl. rewrite List.filter_app, length_app. simpl.
  rewrite Hev. simpl. lia.
Qed.

Lemma driver_stepping_perform {A} (c : Call datetime FalkorDriver)
  (oracle : Ext -> Res A * Ext) : driver_stepping (perform c oracle).
Proof.
  intros w. unfold perform. destruct (oracle (ext w)) as [r x].
  apply driver_step_same; [reflexivity|].
  unfold drivers_built. simpl. rewrite List.filter_app, length_app. simpl. lia.
Qed.

Lemma driver_stepping_write_flag (b : bool) : driver_stepping (write_indices_built b : MW unit).
Proof. intros w. apply driver_step_same; reflexivity. Qed.

Lemma driver_stepping_now_utc : driver_stepping (now_utc : MW datetime).
Proof.
  intros w. unfold now_utc. destruct (datetime_now_utc (ext w)).
  apply driver_step_same; reflexivity.
Qed.

Lemma driver_stepping_get_driver : driver_stepping (get_driver : MW FalkorDriver).
Proof.
  intros w. unfold driver_step.
  destruct (driver_attempt w) as [[d|e] x] eqn:Ha.
  - rewrite (get_driver_ok w d x Ha). unfold drivers_built. cbn [snd driver trace].
    rewrite List.filter_app, length_app.
    destruct (driver w) as [d0|] eqn:Hd; simpl.
    + unfold driver_attempt in Ha. rewrite Hd in Ha. injection Ha as <- <-.
      split; [reflexivity|lia].
    + right. exists d. split; [reflexivity|lia].
  - destruct (get_driver_raise w e x Ha) as [Hnone Hrun]. rewrite Hrun, Hnone.
    left. split; reflexivity.
Qed.

Ltac walk_driver :=
  repeat match goal with
  | |- driver_stepping (bind _ _) => apply driver_stepping_bind; [|intros ?]
  | |- driver_stepping (try_except _ _) => apply driver_stepping_try_except; [|intros ?]
  | |- driver_stepping (emit _) => apply driver_stepping_emit; reflexivity
  | |- driver_stepping (logger_info _) => apply driver_stepping_emit; reflexivity
  | |- driver_stepping (logger_warning _) => apply driver_stepping_emit; reflexivity
  | |- driver_stepping (logger_error _) => apply driver_stepping_emit; reflexivity
  | |- driver_stepping (perform _ _) => apply driver_stepping_perform
  | |- driver_stepping (write_indices_built _) => apply driver_stepping_write_flag
  | |- driver_stepping now_utc => apply driver_stepping_now_utc
  | |- driver_stepping get_driver => apply driver_stepping_get_driver
  | |- driver_stepping (ret _) => apply (driver_stepping_pure (Ok _))
  | |- driver_stepping (raise _) => apply (driver_stepping_pure (Raise _))
  | |- driver_stepping (lift_res _) => apply driver_stepping_pure
  | |- driver_stepping read_indices_built =>
      intros ?; apply driver_step_same; reflexivity
  | |- driver_stepping (if ?c then _ else _) => destruct c
  | |- driver_stepping (match ?x with _ => _ end) => destruct x
  | H : _ |- driver_stepping _ => solve [apply H]
  end.

Lemma driver_stepping_make_graphiti (p k h : string) :
  driver_stepping (make_graphiti p k h).
Proof.
  unfold make_graphiti, new_llm_client, new_embedder, new_reranker, new_graphiti.
  walk_driver.
Qed.

Lemma driver_stepping_ensure_indices (g : Graphiti FalkorDriver) :
  driver_stepping (ensure_indices g).
Proof. unfold ensure_indices. walk_driver. Qed.

Lemma driver_stepping_build_graph_response (d : FalkorDriver) (sid : string) :
  driver_stepping (build_graph_response d sid).
Proof. unfold build_graph_response. walk_driver. Qed.

Lemma run_op_driver_step (op : Op) (w : W) :
  is_shutdown op = false -> driver_step w (run_op op w).
Proof.
  pose proof driver_stepping_make_graphiti as Hroute.
  pose proof driver_stepping_ensure_indices as Hens.
  pose proof driver_stepping_build_graph_response as Hread.
  destruct op as [| |req|sid|req|]; intros Hop; try discriminate; cbn [run_op].
  - assert (H : driver_stepping (lifespan_startup : MW unit)).
    { unfold lifespan_startup, new_llm_client, new_embedder, new_reranker, new_graphiti.
      walk_driver. }
    apply H.
  - assert (H : driver_stepping (health : MW JSON)) by (unfold health; walk_driver).
    apply H.
  - assert (H : driver_stepping (ingest req)).
    { unfold ingest, try_except_ValueError. walk_driver. }
    apply H.
  - assert (H : driver_stepping (get_graph sid)) by (unfold get_graph; walk_driver).
    apply H.
  - assert (H : driver_stepping (search req)).
    { unfold search, try_except_ValueError. walk_driver. }
    apply H.
Qed.

Lemma run_ops_driver_step (ops : list Op) (w : W) :
  forallb (fun op => negb (is_shutdown op)) ops = true ->
  driver_step w (run_ops ops w).
Proof.
  unfold run_ops. revert w. induction ops as [|op ops IH]; intros w Hops; simpl.
  - apply driver_step_same; reflexivity.
  - simpl in Hops. apply andb_prop in Hops. destruct Hops as [Hop Hops].
    apply (driver_step_trans w (run_op op w)).
    + apply run_op_driver_step. destruct (is_shutdown op); [discriminate|reflexivity].
    + apply IH. exact Hops.
Qed.

(** X22.  The store handle is a process-wide singleton until shutdown.  Over
    any sequence of operations that holds no shutdown, a handle that exists
    is the one every later operation uses and no further driver object is
    constructed; started without a handle, the process constructs at most
    one.  The shutdown hook drops the handle (and nothing else), so that the
    next operation that needs one asks the constructor again, and a new
    driver is constructed exactly when the constructor returns. *)
Theorem driver_is_process_singleton (ops : list Op) (w : W) :
  forallb (fun op => negb (is_shutdown op)) ops = true ->
  (forall d, driver w = Some d ->
     driver (run_ops ops w) = Some d
     /\ drivers_built (run_ops ops w) = drivers_built w)
  /\ (driver w = None ->
      (drivers_built (run_ops ops w) <= S (drivers_built w))%nat
      /\ (driver (run_ops ops w) = None ->
          drivers_built (run_ops ops w) = drivers_built w))
  /\ driver (run_op OpShutdown (run_ops ops w)) = None
  /\ indices_built (run_op OpShutdown (run_ops ops w)) = indices_built (run_ops ops w)
  /\ drivers_built (run_op OpHealth (run_op OpShutdown (run_ops ops w)))
     = (drivers_built (run_ops ops w)
        + if returned
               (fst (FalkorDriver_new FALKORDB_HOST FALKORDB_PORT
                       (if truthy FALKORDB_PASSWORD then FALKORDB_PASSWORD else None)
                       (ext (run_ops ops w))))
          then 1 else 0)%nat.
Proof.
  intros Hops. pose proof (run_ops_driver_step ops w Hops) as Hstep.
  unfold driver_step in Hstep. split; [|split; [|split; [|split]]].
  - intros d Hd. rewrite Hd in Hstep. exact Hstep.
  - intros Hd. rewrite Hd in Hstep.
    destruct Hstep as [[Hd' Hn]|(d & Hd' & Hn)].
    + split; [lia|intros _; exact Hn].
    + split; [lia|]. intros Hnone. congruence.
  - reflexivity.
  - reflexivity.
  - cbn [run_op]. unfold lifespan_shutdown, write_driver. cbn [snd].
    rewrite health_run. cbn [snd].
    match goal with
    | |- context [get_driver ?w0] =>
        destruct (driver_attempt w0) as [[d|e] x] eqn:Ha;
        [rewrite (get_driver_ok w0 d x Ha)
        |destruct (get_driver_raise w0 e x Ha) as [_ Hrun]; rewrite Hrun];
        unfold driver_attempt in Ha; cbn [driver ext] in Ha; rewrite Ha
    end.
    + unfold drivers_built. cbn [snd driver trace fst returned].
      rewrite !List.filter_app, !length_app. simpl. lia.
    + unfold drivers_built. cbn [snd driver trace fst returned]. lia.
Qed.

End FurtherLifecycle.

(** ** The further properties on the stub *)

(** X1, on the stub whose store cannot be reached: the constructor's
    exception comes out, and nothing is stored or recorded. *)
Lemma get_driver_singleton_witness :
  exists e w1,
    @get_driver Z string StubState (stub_config "") stub_runtime_unreachable stub_world
    = (Raise e, w1)
    /\ driver w1 = None
    /\ trace w1 = trace stub_world.
Proof.
  destruct (@get_driver_singleton Z string StubState (stub_config "")
              stub_runtime_unreachable stub_world) as (_ & _ & _ & H).
  eexists _, _. split; [on_stub|].
  edestruct H as (_ & Hd & Ht & _); [on_stub|].
  split; [exact Hd|exact Ht].
Defined.

(** X2, on the stub whose store cannot be reached: the constructor's
    exception comes out of the router, after the three clients were built. *)
Lemma make_graphiti_failures_witness :
  exists w1,
    @make_graphiti Z string StubState (stub_config "") stub_runtime_unreachable
      "openai" "sk-llm" "" stub_world
    = (Raise (Exception "ConnectionError" "Error connecting to localhost:6379"), w1)
    /\ driver w1 = None
    /\ length (trace w1) = 3%nat
    /\ List.filter is_new_driver (trace w1) = nil.
Proof.
  eexists. split; [on_stub|].
  edestruct (@make_graphiti_failures Z string StubState (stub_config "")
               stub_runtime_unreachable "openai" "sk-llm" "" stub_world)
    as (_ & Hd & _ & _ & _ & Hn); [on_stub|].
  split; [exact Hd|]. split; [reflexivity|exact Hn].
Defined.

(** X3, on the stub: provider "anthropic" with a server fallback key. *)
Lemma make_graphiti_llm_client_witness :
  exists g w',
    @make_graphiti Z string StubState (stub_config "sk-env") (stub_runtime true true)
      "anthropic" "sk-ant" "" stub_world = (Ok g, w')
    /\ api_key (llm_config (llm_client g)) = "sk-ant"
    /\ embedder_key_of (embedder g) = "sk-env".
Proof.
  eexists _, _. split; [on_stub|].
  split; [|on_stub].
  eapply proj1.
  eapply (@make_graphiti_llm_client Z string StubState (stub_config "sk-env")
            (stub_runtime true true) "anthropic" "sk-ant" "" stub_world).
  on_stub.
Defined.

(** X4, on the stub: an openai request followed by an anthropic one. *)
Lemma make_graphiti_shares_driver_witness :
  exists g1 w1 g2 w2,
    @make_graphiti Z string StubState (stub_config "") (stub_runtime true true)
      "openai" "sk-a" "" stub_world = (Ok g1, w1)
    /\ @make_graphiti Z string StubState (stub_config "") (stub_runtime true true)
         "anthropic" "sk-b" "sk-c" w1 = (Ok g2, w2)
    /\ graph_driver g2 = graph_driver g1
    /\ drivers_built w2 = 1%nat.
Proof.
  edestruct (@make_graphiti_shares_driver Z string StubState (stub_config "")
               (stub_runtime true true) "openai" "sk-a" "" "anthropic" "sk-b" "sk-c"
               stub_world) as (H & _); [on_stub..|].
  eexists _, _, _, _. split; [on_stub|]. split; [on_stub|].
  split; [exact H|on_stub].
Defined.

(** X7, on the stub: an edge whose target "zed" is not among the nodes. *)
Lemma materialization_mirrors_fetch_witness :
  exists resp w',
    @build_graph_response Z string StubState (stub_runtime true true) "localhost:6379" "s1"
      (with_store (Ok [stub_node "a" "Alice" ["Entity"]])
                  (Ok [stub_edge "e1" "a" "zed" None]))
    = (Ok resp, w')
    /\ map (fun r => (gr_id r, gr_source_id r, gr_target_id r)) (relationships resp)
       = [("e1", "a", "zed")]
    /\ map (fun e => (ge_id e, ge_name e)) (entities resp) = [("a", "Alice")]
    /\ assoc "relationship_count" (metadata resp) = Some (JInt 1).
Proof.
  edestruct (@materialization_mirrors_fetch Z string StubState (stub_runtime true true)
               "localhost:6379" "s1"
               (with_store (Ok [stub_node "a" "Alice" ["Entity"]])
                           (Ok [stub_edge "e1" "a" "zed" None])))
    as (resp & w' & Hrun & Hent & Hrel & _ & _ & Hcount & _ & Hlen & _); [on_stub..|].
  exists resp, w'. split; [exact Hrun|]. split; [exact Hrel|]. split; [exact Hent|].
  rewrite Hcount, Hlen. reflexivity.
Defined.

(** X8, on the stub: the edge fetch fails. *)
Lemma materialization_session_scoped_witness :
  List.filter is_call
    (trace (snd (@build_graph_response Z string StubState (stub_runtime true true)
                   "localhost:6379" "s1"
                   (with_store (Ok nil) (Raise (Exception "ConnectionError" "store down"))))))
  = [Called (Call_clone "localhost:6379" "s1") true;
     Called (Call_get_nodes "s1" ["s1"]) true;
     Called (Call_get_edges "s1" ["s1"]) false].
Proof.
  edestruct (@materialization_session_scoped Z string StubState (stub_runtime true true)
               "localhost:6379" "s1"
               (with_store (Ok nil) (Raise (Exception "ConnectionError" "store down"))))
    as (H & _); [on_stub..|].
  exact H.
Defined.

(** X9, on the stub: a text that is one no-break space, with an empty key,
    is answered as empty text. *)
Lemma request_validation_witness :
  @ingest Z string StubState (stub_config "") (stub_runtime true true)
    (mkIngestRequest "s1" nbsp "openai" "" "" None) stub_world
  = (Raise (HTTPException 400 "Empty text"), stub_world).
Proof.
  destruct (@request_validation Z string StubState (stub_config "")
              (stub_runtime true true) stub_world) as (H & _).
  apply H. reflexivity.
Defined.

(** X10, on the stub whose store cannot be reached: the constructor's
    exception comes out of [ingest] as it is. *)
Lemma routing_failure_translation_witness :
  fst (@ingest Z string StubState (stub_config "") stub_runtime_unreachable
         stub_ingest_request stub_world)
  = Raise (Exception "ConnectionError" "Error connecting to localhost:6379").
Proof.
  epose proof (@routing_failure_translation Z string StubState (stub_config "")
                 stub_runtime_unreachable stub_world _ _) as (Hi & _).
  eassert (H : @ingest Z string StubState (stub_config "") stub_runtime_unreachable
                 stub_ingest_request stub_world = _)
    by (eapply Hi; on_stub).
  rewrite H. reflexivity.
Defined.

(** X11, on the stub whose store cannot be reached: [search] raises the
    constructor's exception, which is no [ValueError]. *)
Lemma endpoint_errors_witness :
  exists e,
    fst (@search Z string StubState (stub_config "") stub_runtime_unreachable
           stub_search_request stub_world) = Raise e
    /\ http_status e = None
    /\ fst (@driver_attempt Z string StubState (stub_config "") stub_runtime_unreachable
              stub_world) = Raise e.
Proof.
  destruct (@endpoint_errors Z string StubState (stub_config "")
              stub_runtime_unreachable stub_world) as (_ & H & _).
  eexists. split; [on_stub|].
  edestruct (H stub_search_request) as [[H4 _]|[H5|[Ha _]]]; [on_stub| | |].
  - vm_compute in H4. discriminate H4.
  - vm_compute in H5. discriminate H5.
  - split; [reflexivity|exact Ha].
Defined.

(** X12, on the stub whose store cannot be reached. *)
Lemma health_reports_handle_witness :
  fst (@health Z string StubState (stub_config "") stub_runtime_unreachable stub_world)
  = Ok (JDict [("status", JStr "ok"); ("falkordb", JBool false)]).
Proof.
  destruct (@health_reports_handle Z string StubState (stub_config "")
              stub_runtime_unreachable stub_world) as (_ & _ & _ & _ & H & _).
  eassert (Hr : @health Z string StubState (stub_config "") stub_runtime_unreachable
                  stub_world = _)
    by (eapply H; on_stub).
  rewrite Hr. reflexivity.
Defined.


(** X14, on the stub with the engine down. *)
Lemma search_engine_failure_witness :
  fst (@search Z string StubState (stub_config "") stub_runtime_engine_down
         stub_search_request stub_world)
  = Raise (HTTPException 500 "engine down").
Proof.
  eassert (H : @search Z string StubState (stub_config "") stub_runtime_engine_down
                 stub_search_request stub_world = _)
    by (eapply search_engine_failure; on_stub).
  rewrite H. reflexivity.
Defined.

(** X15, on the stub with the engine down. *)
Lemma ingest_extraction_failure_witness :
  fst (@ingest Z string StubState (stub_config "") stub_runtime_engine_down
         stub_ingest_request stub_world)
  = Raise (HTTPException 500 "engine down").
Proof.
  eassert (H : @ingest Z string StubState (stub_config "") stub_runtime_engine_down
                 stub_ingest_request stub_world = _)
    by (eapply ingest_extraction_failure; on_stub).
  rewrite H. reflexivity.
Defined.

(** X16, on the stub with the store down: the episode is accepted, the
    read-back fails. *)
Lemma ingest_read_back_failure_witness :
  fst (@ingest Z string StubState (stub_config "") (stub_runtime true true)
         stub_ingest_request store_down)
  = Raise (HTTPException 500 "store down").
Proof.
  eassert (H : @ingest Z string StubState (stub_config "") (stub_runtime true true)
                 stub_ingest_request store_down = _)
    by (eapply ingest_read_back_failure; on_stub).
  rewrite H. reflexivity.
Defined.


(** X20, on the stub: a first ingest on a fresh process whose index build
    fails. *)
Lemma ingest_ensures_indices_witness :
  build_attempts
    (snd (@ingest Z string StubState (stub_config "") (stub_runtime true true)
            stub_ingest_request build_fails_once)) = 1%nat
  /\ indices_built
       (snd (@ingest Z string StubState (stub_config "") (stub_runtime true true)
               stub_ingest_request build_fails_once)) = false
  /\ exists (w1 : World Z string StubState) g b evs,
       trace (snd (@ingest Z string StubState (stub_config "") (stub_runtime true true)
                     stub_ingest_request build_fails_once))
       = (trace w1
          ++ [Called (Call_build_indices g) false;
              Log WARNING "Failed to build indices: index build failed";
              Called (Call_add_episode g "s1_1700000000" "Alice knows Bob"
                        EpisodeType_text "Live speech transcript from MindFlow"
                        1700000000 "s1") b]
          ++ evs)%list.
Proof.
  edestruct (@ingest_ensures_indices Z string StubState (stub_config "")
               (stub_runtime true true) stub_ingest_request build_fails_once)
    as (Ha & Hb & Hgo); [on_stub..|].
  split; [rewrite Ha; on_stub|]. split; [rewrite Hb; on_stub|].
  edestruct Hgo as (b & evs & Htrace & _); [on_stub..|].
  eexists _, _, b, evs. exact Htrace.
Defined.

(** X21, on the stub whose store cannot be reached, with a server key. *)
Lemma startup_is_best_effort_witness :
  fst (@lifespan_startup Z string StubState (stub_config "sk-env")
         stub_runtime_unreachable stub_world) = Ok tt
  /\ In (Log WARNING
           "Failed to build indices on startup: Error connecting to localhost:6379")
        (trace (snd (@lifespan_startup Z string StubState (stub_config "sk-env")
                       stub_runtime_unreachable stub_world)))
  /\ build_attempts
       (snd (@lifespan_startup Z string StubState (stub_config "sk-env")
               stub_runtime_unreachable stub_world)) = 0%nat.
Proof.
  destruct (@startup_is_best_effort Z string StubState (stub_config "sk-env")
              stub_runtime_unreachable stub_world) as (Hret & _ & _ & H).
  split; [exact Hret|].
  edestruct H as [Hrun Hn]; [discriminate|on_stub|].
  split; [|rewrite Hn; reflexivity].
  rewrite Hrun. cbn [snd trace]. rewrite in_app_iff. right. simpl. auto.
Defined.

(** X22, on the stub: two ingests, a graph read and a search. *)
Lemma driver_is_process_singleton_witness :
  let ops := [OpIngest stub_ingest_request; OpGetGraph "s1";
              OpSearch stub_search_request; OpIngest stub_ingest_request] in
  (drivers_built
     (@run_ops Z string StubState (stub_config "") (stub_runtime true true) ops stub_world)
   <= 1)%nat.
Proof.
  intros ops.
  destruct (@driver_is_process_singleton Z string StubState (stub_config "")
              (stub_runtime true true) ops stub_world) as (_ & H & _); [on_stub|].
  destruct H as [Hle _]; [on_stub|]. exact Hle.
Defined.

(** ** More on the timestamp *)

Lemma replace_without_Z (s : string) :
  occurs "Z" s = false -> replace s "Z" "+00:00" = s.
Proof.
  induction s as [|c s IH]; [reflexivity|].
  simpl occurs. intros H. apply orb_false_elim in H. destruct H as [Hc Hs].
  rewrite replace_Z_cons, Hc, (IH Hs). reflexivity.
Qed.

Section FurtherTimestamp.
Context {datetime FalkorDriver Ext : Type}.
Context {rt : Runtime datetime FalkorDriver Ext}.

(** X23.  How [ingest] reads its timestamp field.  An absent timestamp and
    the empty string both give the clock reading, and the parser is not
    consulted.  A timestamp without a capital "Z" is handed to the parser
    verbatim.  Every capital "Z" is rewritten to "+00:00" before parsing,
    wherever it stands, not only at the end: a string with a "Z" in the
    middle is read exactly as the string with "+00:00" in that place. *)
Theorem timestamp_reading (now : datetime) :
  reference_time now None = now
  /\ reference_time now (Some "") = now
  /\ (forall s,
        s <> "" -> occurs "Z" s = false ->
        reference_time now (Some s)
        = match fromisoformat s with Some t => t | None => now end)
  /\ (forall s1 s2,
        reference_time now (Some (s1 ++ "Z" ++ s2))
        = reference_time now (Some (s1 ++ "+00:00" ++ s2))).
Proof.
  split; [reflexivity|]. split; [reflexivity|]. split.
  - intros s Hs HZ. unfold reference_time.
    assert (Ht : truthy (Some s) = true) by (apply truthy_str_true; exact Hs).
    rewrite Ht, (replace_without_Z s HZ). reflexivity.
  - intros s1 s2. unfold reference_time.
    assert (H1 : truthy (Some (s1 ++ "Z" ++ s2)%string) = true).
    { apply truthy_str_true, append_nonempty. discriminate. }
    assert (H2 : truthy (Some (s1 ++ "+00:00" ++ s2)%string) = true).
    { apply truthy_str_true, append_nonempty. discriminate. }
    rewrite H1, H2, !replace_Z_app. reflexivity.
Qed.

End FurtherTimestamp.
